(** * Evidence engine: the review store, protocol hashing, deduplication
      and the stage runners, embedded from the Python sources.

    Layout: the data model and the operations first (one part per Python
    module), then the properties. Python [str] values are [string]s,
    [Optional[...]] is [option], SQLite tables are lists of row records kept
    in rowid order, and a Python exception is a value of [exn] returned next
    to the store that was reached when it was raised. *)

From stdpp Require Import base strings list gmap.
From Stdlib Require Import Ascii String ZArith QArith Lia.

#[local] Set Warnings "-register-all".

Local Open Scope Z_scope.
Local Open Scope string_scope.

(* ================================================================== *)
(** ** engine/search/models.py *)

Inductive Source := pubmed | openalex.

(** [raw_data] is an arbitrary dict of the search client; only its identity
    matters here, so it is kept as a list of key/value texts. [year] is a
    publication year, read as an integer that an SQLite INTEGER column
    holds. *)
Record Citation := mkCitation {
  pmid : option string;
  doi : option string;
  title : string;
  abstract : option string;
  authors : list string;
  journal : option string;
  year : option Z;
  source : Source;
  raw_data : list (string * string)
}.

(* ================================================================== *)
(** ** engine/agents/models.py *)

Record EvidenceSpan := mkEvidenceSpan {
  field_name : string;
  value : string;
  source_snippet : string;
  confidence : Q;
  tier : Z
}.

(* ================================================================== *)
(** ** Exceptions and outcomes *)

(** The three [ValueError]s of [update_status] carry the data their
    messages are formatted from. [CollaboratorError] stands for whatever
    an external call (model, parser, file system) raises. *)
Inductive exn :=
| ValueError_invalid_status (new_status : string)
| ValueError_paper_not_found (paper_id : Z)
| ValueError_invalid_transition (current new_status : string)
| IntegrityError
| ValidationError
| CollaboratorError (what : string).

Inductive outcome (A : Type) :=
| Return (a : A)
| Raise (e : exn).
Arguments Return {A} a.
Arguments Raise {A} e.

Definition is_raise {A} (o : outcome A) : bool :=
  match o with Raise _ => true | Return _ => false end.

(* ================================================================== *)
(** ** engine/core/database.py *)

Definition STATUSES : list string :=
  [ "INGESTED"; "SCREENED_IN"; "SCREENED_OUT"; "SCREEN_FLAGGED";
    "PDF_ACQUIRED"; "PARSED"; "EXTRACTED"; "AUDITED" ].

(** Python's [x in collection] on strings. *)
Definition str_in (s : string) (l : list string) : bool :=
  existsb (String.eqb s) l.

(** [ALLOWED_TRANSITIONS.get(current)]: [None] when the key is absent. *)
Definition ALLOWED_TRANSITIONS (current : string) : option (list string) :=
  if String.eqb current "INGESTED" then
    Some ["SCREENED_IN"; "SCREENED_OUT"; "SCREEN_FLAGGED"]
  else if String.eqb current "SCREENED_IN" then Some ["PDF_ACQUIRED"]
  else if String.eqb current "SCREEN_FLAGGED" then
    Some ["SCREENED_IN"; "SCREENED_OUT"]
  else if String.eqb current "PDF_ACQUIRED" then Some ["PARSED"]
  else if String.eqb current "PARSED" then Some ["EXTRACTED"]
  else if String.eqb current "EXTRACTED" then Some ["AUDITED"]
  else if String.eqb current "SCREENED_OUT" then Some []
  else if String.eqb current "AUDITED" then Some []
  else None.

(** Rows of the five tables the pipeline writes. Field prefixes name the
    table: [p_] papers, [sd_] screening_decisions, [fta_] full_text_assets,
    [e_] extractions, [es_] evidence_spans. *)
Record Paper := mkPaper {
  p_id : Z;
  p_pmid : option string;
  p_doi : option string;
  p_title : string;
  p_abstract : option string;
  p_authors : list string;          (* stored as a JSON array *)
  p_journal : option string;
  p_year : option Z;
  p_source : Source;
  p_status : string;
  p_created_at : string;
  p_updated_at : string
}.

Record ScreeningRow := mkScreeningRow {
  sd_id : Z;
  sd_paper_id : Z;
  sd_pass_number : Z;
  sd_decision : string;
  sd_rationale : string;
  sd_model : string;
  sd_decided_at : string
}.

Record FullTextAsset := mkFullTextAsset {
  fta_id : Z;
  fta_paper_id : Z;
  fta_pdf_path : string;
  fta_pdf_hash : string;
  fta_parsed_text_path : string;
  fta_parsed_text_version : Z;
  fta_parser_used : string;
  fta_parsed_at : string
}.

Record Extraction := mkExtraction {
  e_id : Z;
  e_paper_id : Z;
  e_extraction_schema_hash : string;
  e_extracted_data : list EvidenceSpan;   (* stored as JSON text *)
  e_reasoning_trace : string;
  e_model : string;
  e_extracted_at : string
}.

Record EvidenceSpanRow := mkEvidenceSpanRow {
  es_id : Z;
  es_extraction_id : Z;
  es_field_name : string;
  es_value : string;
  es_source_snippet : string;
  es_confidence : Q;
  es_audit_status : string;
  es_auditor_model : option string;
  es_audit_rationale : option string;
  es_audited_at : option string
}.

Record ReviewDatabase := mkDb {
  papers : list Paper;
  screening_decisions : list ScreeningRow;
  full_text_assets : list FullTextAsset;
  extractions : list Extraction;
  evidence_spans : list EvidenceSpanRow
}.

Definition empty_db : ReviewDatabase := mkDb [] [] [] [] [].

Definition with_papers (db : ReviewDatabase) (ps : list Paper) :=
  mkDb ps (screening_decisions db) (full_text_assets db) (extractions db)
       (evidence_spans db).
Definition with_screening_decisions (db : ReviewDatabase) (l : list ScreeningRow) :=
  mkDb (papers db) l (full_text_assets db) (extractions db) (evidence_spans db).
Definition with_full_text_assets (db : ReviewDatabase) (l : list FullTextAsset) :=
  mkDb (papers db) (screening_decisions db) l (extractions db) (evidence_spans db).
Definition with_extractions (db : ReviewDatabase) (l : list Extraction) :=
  mkDb (papers db) (screening_decisions db) (full_text_assets db) l
       (evidence_spans db).
Definition with_evidence_spans (db : ReviewDatabase) (l : list EvidenceSpanRow) :=
  mkDb (papers db) (screening_decisions db) (full_text_assets db)
       (extractions db) l.

(** A store operation: the store it leaves behind and what it returned or
    raised. Every write of the sources is committed at once, so the store
    component is the committed state also when an exception follows. *)
Definition M (A : Type) : Type := ReviewDatabase -> ReviewDatabase * outcome A.

Definition ret {A} (a : A) : M A := fun db => (db, Return a).
Definition raise {A} (e : exn) : M A := fun db => (db, Raise e).
Definition bind {A B} (m : M A) (k : A -> M B) : M B := fun db =>
  match m db with
  | (db', Return a) => k a db'
  | (db', Raise e) => (db', Raise e)
  end.
(** [try: m except Exception as exc: h exc] *)
Definition try_except {A} (m : M A) (h : exn -> M A) : M A := fun db =>
  match m db with
  | (db', Return a) => (db', Return a)
  | (db', Raise e) => h e db'
  end.

Notation "x <- m ;; k" := (bind m (fun x => k))
  (at level 100, m at next level, right associativity).
Notation "m ;;; k" := (bind m (fun _ => k))
  (at level 100, right associativity).

(** Rowid of an [INTEGER PRIMARY KEY] insert: one more than the largest
    rowid in the table, 1 in an empty table. *)
Definition max_id (ids : list Z) : Z := fold_right Z.max 0 ids.
Definition next_rowid (ids : list Z) : Z := max_id ids + 1.

(** Python truthiness of an [Optional[str]]. *)
Definition truthy (o : option string) : bool :=
  match o with
  | None => false
  | Some s => negb (String.eqb s "")
  end.

Definition opt_str_eqb (a b : option string) : bool :=
  match a, b with
  | Some x, Some y => String.eqb x y
  | _, _ => false
  end.

(** [SELECT id FROM papers WHERE pmid = ?] then [fetchone()]. *)
Definition select_paper_by_pmid (s : string) (ps : list Paper) : option Z :=
  option_map p_id (List.find (fun r => opt_str_eqb (p_pmid r) (Some s)) ps).

(** The [INSERT INTO papers] of [add_papers]. The only constraint an
    insert built from a [Citation] can break is [UNIQUE] on [pmid]
    (SQL [NULL]s are never equal, so it binds texts only). *)
Definition insert_paper (cit : Citation) (now : string) : M unit := fun db =>
  let ps := papers db in
  if existsb (fun r => opt_str_eqb (p_pmid r) (pmid cit)) ps then
    (db, Raise IntegrityError)
  else
    let row := mkPaper (next_rowid (List.map p_id ps)) (pmid cit) (doi cit)
                 (title cit) (abstract cit) (authors cit) (journal cit)
                 (year cit) (source cit) "INGESTED" now now in
    (with_papers db (ps ++ [row]), Return tt).

(** [if cit.pmid: row = SELECT ...; if row: continue] *)
Definition pmid_already_stored (cit : Citation) (db : ReviewDatabase) : bool :=
  match pmid cit with
  | Some s =>
      if String.eqb s "" then false
      else match select_paper_by_pmid s (papers db) with
           | Some _ => true
           | None => false
           end
  | None => false
  end.

(** Body of the [for cit in citations] loop of [add_papers]; [added] is
    the running count. *)
Definition add_papers_step (now : string) (cit : Citation) (added : Z) : M Z :=
  fun db =>
  if pmid_already_stored cit db then (db, Return added)        (* continue *)
  else
    try_except (insert_paper cit now ;;; ret (added + 1))
               (fun e => match e with
                         | IntegrityError => ret added         (* continue *)
                         | _ => raise e
                         end) db.

Fixpoint add_papers_loop (now : string) (citations : list Citation) (added : Z)
  : M Z :=
  match citations with
  | [] => ret added
  | cit :: rest =>
      added' <- add_papers_step now cit added ;;
      add_papers_loop now rest added'
  end.

Definition add_papers (citations : list Citation) (now : string) : M Z :=
  add_papers_loop now citations 0.

(** [SELECT status FROM papers WHERE id = ?] then [fetchone()]. *)
Definition select_paper (paper_id : Z) (ps : list Paper) : option Paper :=
  List.find (fun r => Z.eqb (p_id r) paper_id) ps.

Definition set_status (new_status now : string) (r : Paper) : Paper :=
  mkPaper (p_id r) (p_pmid r) (p_doi r) (p_title r) (p_abstract r)
    (p_authors r) (p_journal r) (p_year r) (p_source r)
    new_status (p_created_at r) now.

(** [UPDATE papers SET status = ?, updated_at = ? WHERE id = ?] *)
Definition sql_update_status (paper_id : Z) (new_status now : string)
  (ps : list Paper) : list Paper :=
  List.map (fun r => if Z.eqb (p_id r) paper_id
                     then set_status new_status now r else r) ps.

Definition update_status (paper_id : Z) (new_status : string) (now : string)
  : M unit := fun db =>
  if negb (str_in new_status STATUSES) then
    (db, Raise (ValueError_invalid_status new_status))
  else
    match select_paper paper_id (papers db) with
    | None => (db, Raise (ValueError_paper_not_found paper_id))
    | Some row =>
        let current := p_status row in
        let allowed := default [] (ALLOWED_TRANSITIONS current) in
        if negb (str_in new_status allowed) then
          (db, Raise (ValueError_invalid_transition current new_status))
        else
          (with_papers db (sql_update_status paper_id new_status now (papers db)),
           Return tt)
    end.

Definition get_papers_by_status (status : string) (db : ReviewDatabase)
  : list Paper :=
  List.filter (fun r => String.eqb (p_status r) status) (papers db).


(** [PRAGMA foreign_keys=ON]: an insert whose parent row is missing
    raises [IntegrityError]. *)
Definition paper_exists (paper_id : Z) (db : ReviewDatabase) : bool :=
  existsb (fun r => Z.eqb (p_id r) paper_id) (papers db).

Definition add_screening_decision (paper_id pass_number : Z)
  (decision rationale model now : string) : M Z := fun db =>
  if paper_exists paper_id db
     && (Z.eqb pass_number 1 || Z.eqb pass_number 2)
     && str_in decision ["include"; "exclude"; "uncertain"]
  then
    let rid := next_rowid (List.map sd_id (screening_decisions db)) in
    (with_screening_decisions db
       (screening_decisions db ++
          [mkScreeningRow rid paper_id pass_number decision rationale model now]),
     Return rid)
  else (db, Raise IntegrityError).

Definition add_extraction (paper_id : Z) (schema_hash : string)
  (extracted_data : list EvidenceSpan) (reasoning_trace model now : string)
  : M Z := fun db =>
  if paper_exists paper_id db then
    let rid := next_rowid (List.map e_id (extractions db)) in
    (with_extractions db
       (extractions db ++
          [mkExtraction rid paper_id schema_hash extracted_data
             reasoning_trace model now]),
     Return rid)
  else (db, Raise IntegrityError).

(** [SELECT MAX(e2.id) FROM extractions e2 WHERE e2.paper_id = ?]:
    [None] is SQL [NULL] (no such row). *)
Definition sql_max (l : list Z) : option Z :=
  match l with
  | [] => None
  | x :: rest => Some (fold_right Z.max x rest)
  end.

Definition max_extraction_id (paper_id : Z) (es : list Extraction) : option Z :=
  sql_max (List.map e_id
             (List.filter (fun e2 => Z.eqb (e_paper_id e2) paper_id) es)).

(** The join of [get_stale_extractions]: for each paper, the extraction
    rows that pass the [ON] and [WHERE] conditions, paired with the paper
    ([p.*, e.extraction_schema_hash]). *)
Definition get_stale_extractions (current_hash : string) (db : ReviewDatabase)
  : list (Paper * string) :=
  flat_map
    (fun p =>
       List.map (fun e => (p, e_extraction_schema_hash e))
         (List.filter
            (fun e =>
               Z.eqb (e_paper_id e) (p_id p)
               && negb (String.eqb (e_extraction_schema_hash e) current_hash)
               && match max_extraction_id (p_id p) (extractions db) with
                  | Some m => Z.eqb (e_id e) m
                  | None => false
                  end)
            (extractions db)))
    (papers db).

Definition extraction_exists (extraction_id : Z) (db : ReviewDatabase) : bool :=
  existsb (fun e => Z.eqb (e_id e) extraction_id) (extractions db).

Definition confidence_in_range (c : Q) : bool :=
  Qle_bool 0 c && Qle_bool c 1.

Definition add_evidence_span (extraction_id : Z)
  (field_name value source_snippet : string) (confidence : Q) : M Z := fun db =>
  if extraction_exists extraction_id db && confidence_in_range confidence then
    let rid := next_rowid (List.map es_id (evidence_spans db)) in
    (with_evidence_spans db
       (evidence_spans db ++
          [mkEvidenceSpanRow rid extraction_id field_name value source_snippet
             confidence "pending" None None None]),
     Return rid)
  else (db, Raise IntegrityError).

Definition set_audit (status model rationale now : string) (r : EvidenceSpanRow)
  : EvidenceSpanRow :=
  mkEvidenceSpanRow (es_id r) (es_extraction_id r) (es_field_name r)
    (es_value r) (es_source_snippet r) (es_confidence r)
    status (Some model) (Some rationale) (Some now).

(** [UPDATE evidence_spans SET ... WHERE id = ?]. The [CHECK] on
    [audit_status] is evaluated on the rows the update touches. *)
Definition update_audit (span_id : Z) (status model rationale now : string)
  : M unit := fun db =>
  if existsb (fun r => Z.eqb (es_id r) span_id) (evidence_spans db)
     && negb (str_in status ["pending"; "verified"; "flagged"])
  then (db, Raise IntegrityError)
  else
    (with_evidence_spans db
       (List.map (fun r => if Z.eqb (es_id r) span_id
                           then set_audit status model rationale now r else r)
          (evidence_spans db)),
     Return tt).

(* ================================================================== *)
(** ** engine/core/review_spec.py *)

(** Values that [model_dump()] produces and [json.dumps] consumes. *)
Inductive json :=
| JNull
| JInt (n : Z)
| JStr (s : string)
| JList (items : list json)
| JDict (items : list (string * json)).

Definition hex_digit (n : N) : ascii :=
  match n with
  | 0%N => "0" | 1%N => "1" | 2%N => "2" | 3%N => "3" | 4%N => "4"
  | 5%N => "5" | 6%N => "6" | 7%N => "7" | 8%N => "8" | 9%N => "9"
  | 10%N => "a" | 11%N => "b" | 12%N => "c" | 13%N => "d" | 14%N => "e"
  | _ => "f"
  end%char.

(** One character of [json.dumps]'s [ensure_ascii] string encoder. A
    character of a [string] is read as the code point of the same number
    (0..255), so everything outside [' '..'~'] is written [\u00xx]. *)
Definition escape_char (c : ascii) : string :=
  let n := N_of_ascii c in
  if N.eqb n 34 then "\" ++ String c ""
  else if N.eqb n 92 then "\\"
  else if N.eqb n 10 then "\n"
  else if N.eqb n 13 then "\r"
  else if N.eqb n 9 then "\t"
  else if N.eqb n 8 then "\b"
  else if N.eqb n 12 then "\f"
  else if (N.ltb n 32 || N.ltb 126 n)%bool then
    "\u00" ++ String (hex_digit (N.div n 16)) (String (hex_digit (N.modulo n 16)) "")
  else String c "".

Fixpoint escape_string (s : string) : string :=
  match s with
  | EmptyString => ""
  | String c rest => escape_char c ++ escape_string rest
  end.

Definition quote : string := String (ascii_of_N 34) "".

Definition dumps_str (s : string) : string := quote ++ escape_string s ++ quote.

(** Decimal text of a Python [int]. *)
Definition digit_char (n : Z) : ascii := ascii_of_N (Z.to_N (48 + n)).

Fixpoint dumps_nat_digits (fuel : nat) (n : Z) (acc : string) : string :=
  match fuel with
  | O => acc
  | S fuel' =>
      let acc' := String (digit_char (n mod 10)) acc in
      if Z.ltb n 10 then acc' else dumps_nat_digits fuel' (n / 10) acc'
  end.

Definition dumps_int (n : Z) : string :=
  if Z.ltb n 0 then "-" ++ dumps_nat_digits (Z.to_nat (Z.log2 (- n)) + 1) (- n) ""
  else dumps_nat_digits (Z.to_nat (Z.log2 n) + 1) n "".

Fixpoint join (sep : string) (parts : list string) : string :=
  match parts with
  | [] => ""
  | [x] => x
  | x :: rest => x ++ sep ++ join sep rest
  end.

(** [sort_keys=True]: items ordered by key, code point by code point. *)
Fixpoint insert_by_key {A} (kv : string * A) (l : list (string * A))
  : list (string * A) :=
  match l with
  | [] => [kv]
  | kv' :: rest =>
      if String.leb (fst kv) (fst kv') then kv :: l
      else kv' :: insert_by_key kv rest
  end.

Definition sort_by_key {A} (l : list (string * A)) : list (string * A) :=
  fold_right insert_by_key [] l.

(** [json.dumps(data, sort_keys=True)] with the default separators. *)
Fixpoint json_dumps (j : json) : string :=
  match j with
  | JNull => "null"
  | JInt n => dumps_int n
  | JStr s => dumps_str s
  | JList items => "[" ++ join ", " (List.map json_dumps items) ++ "]"
  | JDict items =>
      "{" ++ join ", "
               (List.map (fun kv => dumps_str (fst kv) ++ ": " ++ snd kv)
                  (sort_by_key
                     (List.map (fun kv => (fst kv, json_dumps (snd kv))) items)))
          ++ "}"
  end.

Module review_spec.

Record ExtractionField := mkExtractionField {
  name : string;
  description : string;
  type : string;
  tier : Z;
  enum_values : option (list string)
}.

Record ExtractionSchema := mkExtractionSchema {
  fields : list ExtractionField
}.

Definition fields_by_tier (s : ExtractionSchema) (t : Z) : list ExtractionField :=
  List.filter (fun f => Z.eqb (tier f) t) (fields s).

Record PICO := mkPICO {
  population : string;
  intervention : string;
  comparator : string;
  outcomes : list string
}.

Record SearchStrategy := mkSearchStrategy {
  databases : list string;
  query_terms : list string;
  date_range : list Z
}.

Record ScreeningCriteria := mkScreeningCriteria {
  inclusion : list string;
  exclusion : list string
}.

Record ReviewSpec := mkReviewSpec {
  title : string;
  version : string;
  authors : list string;
  date : Z * Z * Z;                (* year, month, day *)
  prospero_id : option string;
  pico : PICO;
  search_strategy : SearchStrategy;
  screening_criteria : ScreeningCriteria;
  extraction_schema : ExtractionSchema
}.

(** [model_dump()] of the two hashed sub-sections. *)
Definition dump_str_list (l : list string) : json := JList (List.map JStr l).

Definition dump_screening_criteria (c : ScreeningCriteria) : json :=
  JDict [ ("inclusion", dump_str_list (inclusion c));
          ("exclusion", dump_str_list (exclusion c)) ].

Definition dump_extraction_field (f : ExtractionField) : json :=
  JDict [ ("name", JStr (name f));
          ("description", JStr (description f));
          ("type", JStr (type f));
          ("tier", JInt (tier f));
          ("enum_values",
           match enum_values f with
           | None => JNull
           | Some vs => dump_str_list vs
           end) ].

Definition dump_extraction_schema (s : ExtractionSchema) : json :=
  JDict [ ("fields", JList (List.map dump_extraction_field (fields s))) ].

Section Hashing.
(** [hashlib.sha256(blob).hexdigest()], the digest function of the
    Python standard library. *)
Variable sha256_hexdigest : string -> string.

Definition _canonical_hash (data : json) : string :=
  sha256_hexdigest (json_dumps data).

Definition screening_hash (self : ReviewSpec) : string :=
  _canonical_hash (dump_screening_criteria (screening_criteria self)).

Definition extraction_hash (self : ReviewSpec) : string :=
  _canonical_hash (dump_extraction_schema (extraction_schema self)).
End Hashing.

End review_spec.

(* ================================================================== *)
(** ** Python [str] methods and the [re] classes used by dedup.py

    A character of a [string] is read as the code point of the same
    number, so the tables below are those of Unicode restricted to
    U+0000..U+00FF. *)

Definition between (lo n hi : N) : bool := (N.leb lo n && N.leb n hi)%bool.

(** [str.isspace], which is also [\s] of a [str] pattern and what
    [str.strip()] removes. *)
Definition is_space (c : ascii) : bool :=
  let n := N_of_ascii c in
  (between 9 n 13 || between 28 n 32 || N.eqb n 133 || N.eqb n 160)%bool.

(** [\w] of a [str] pattern: alphanumeric or underscore. *)
Definition is_word (c : ascii) : bool :=
  let n := N_of_ascii c in
  (between 48 n 57 || between 65 n 90 || N.eqb n 95 || between 97 n 122
   || N.eqb n 170 || N.eqb n 178 || N.eqb n 179 || N.eqb n 181
   || N.eqb n 185 || N.eqb n 186 || between 188 n 190
   || (between 192 n 255 && negb (N.eqb n 215) && negb (N.eqb n 247)))%bool.

Definition lower_char (c : ascii) : ascii :=
  let n := N_of_ascii c in
  if (between 65 n 90 || (between 192 n 222 && negb (N.eqb n 215)))%bool
  then ascii_of_N (n + 32) else c.

(** [s.lower()] *)
Fixpoint lower (s : string) : string :=
  match s with
  | EmptyString => EmptyString
  | String c rest => String (lower_char c) (lower rest)
  end.

Fixpoint lstrip (s : string) : string :=
  match s with
  | EmptyString => EmptyString
  | String c rest => if is_space c then lstrip rest else s
  end.

Fixpoint rstrip (s : string) : string :=
  match s with
  | EmptyString => EmptyString
  | String c rest =>
      match rstrip rest with
      | EmptyString => if is_space c then EmptyString else String c EmptyString
      | r => String c r
      end
  end.

(** [s.strip()] *)
Definition strip (s : string) : string := rstrip (lstrip s).

(** [re.sub(r"[^\w\s]", "", t)] *)
Fixpoint sub_punct (t : string) : string :=
  match t with
  | EmptyString => EmptyString
  | String c rest =>
      if (is_word c || is_space c)%bool then String c (sub_punct rest)
      else sub_punct rest
  end.

(** [re.sub(r"\s+", " ", t)]: every maximal run of whitespace becomes one
    blank. [in_run] tells that the previous character was whitespace. *)
Fixpoint sub_spaces_from (in_run : bool) (t : string) : string :=
  match t with
  | EmptyString => EmptyString
  | String c rest =>
      if is_space c then
        if in_run then sub_spaces_from true rest
        else String " "%char (sub_spaces_from true rest)
      else String c (sub_spaces_from false rest)
  end.

Definition sub_spaces (t : string) : string := sub_spaces_from false t.

(* ================================================================== *)
(** ** difflib.SequenceMatcher(None, a, b), as far as [ratio()] needs it

    With [isjunk=None] the junk set is empty, so the two junk-extension
    loops of [find_longest_match] never run and are left out. *)

Section SequenceMatcher.
Variables a b : list ascii.

Definition count_in (c : ascii) (l : list ascii) : nat :=
  List.length (List.filter (fun x => Ascii.eqb x c) l).

(** [bpopular]: with [autojunk] and [len(b) >= 200], the elements that
    occur more than [len(b) // 100 + 1] times. *)
Definition is_popular (c : ascii) : bool :=
  (Nat.leb 200 (List.length b)
   && Nat.ltb (Nat.div (List.length b) 100 + 1) (count_in c b))%bool.

(** [b2j.get(elt, nothing)]: the positions of [elt] in [b], ascending,
    unless [elt] was purged as popular. *)
Definition b2j_get (elt : ascii) : list nat :=
  if is_popular elt then []
  else List.filter (fun j => bool_decide (b !! j = Some elt))
                   (seq 0 (List.length b)).

(** [j2len.get(j-1, 0)]; position [-1] is never a key. *)
Definition j2lenget_pred (j2len : gmap nat nat) (j : nat) : nat :=
  match j with
  | O => 0%nat
  | S j' => default 0%nat (j2len !! j')
  end.

(** The [for j in b2j.get(a[i], nothing)] loop. *)
Fixpoint scan_row (blo bhi i : nat) (j2len : gmap nat nat) (js : list nat)
  (newj2len : gmap nat nat) (best : nat * nat * nat)
  : gmap nat nat * (nat * nat * nat) :=
  match js with
  | [] => (newj2len, best)
  | j :: js' =>
      if Nat.ltb j blo then scan_row blo bhi i j2len js' newj2len best
      else if Nat.leb bhi j then (newj2len, best)            (* break *)
      else
        let k := (j2lenget_pred j2len j + 1)%nat in
        let best' :=
          if Nat.ltb (snd best) k then ((i + 1 - k)%nat, (j + 1 - k)%nat, k)
          else best in
        scan_row blo bhi i j2len js' (<[j := k]> newj2len) best'
  end.

(** The [for i in range(alo, ahi)] loop, over the list of its [i]s. *)
Fixpoint scan_rows (blo bhi : nat) (rows : list nat) (j2len : gmap nat nat)
  (best : nat * nat * nat) : nat * nat * nat :=
  match rows with
  | [] => best
  | i :: rows' =>
      let js := match a !! i with
                | Some elt => b2j_get elt
                | None => []
                end in
      let '(newj2len, best') := scan_row blo bhi i j2len js ∅ best in
      scan_rows blo bhi rows' newj2len best'
  end.

Definition same_at (i j : nat) : bool :=
  match a !! i, b !! j with
  | Some x, Some y => Ascii.eqb x y
  | _, _ => false
  end.

(** First [while]: grow the block to the left. *)
Fixpoint extend_left (alo blo besti bestj bestsize : nat) : nat * nat * nat :=
  match besti, bestj with
  | S i', S j' =>
      if (Nat.ltb alo besti && Nat.ltb blo bestj && same_at i' j')%bool
      then extend_left alo blo i' j' (S bestsize)
      else (besti, bestj, bestsize)
  | _, _ => (besti, bestj, bestsize)
  end.

(** Second [while]: grow the block to the right; it stops at the latest
    when [besti+bestsize] reaches [ahi], which bounds the iterations. *)
Fixpoint extend_right (steps ahi bhi besti bestj bestsize : nat) : nat :=
  match steps with
  | O => bestsize
  | S steps' =>
      if (Nat.ltb (besti + bestsize) ahi && Nat.ltb (bestj + bestsize) bhi
          && same_at (besti + bestsize) (bestj + bestsize))%bool
      then extend_right steps' ahi bhi besti bestj (S bestsize)
      else bestsize
  end.

Definition find_longest_match (alo ahi blo bhi : nat) : nat * nat * nat :=
  let '(besti, bestj, bestsize) :=
    scan_rows blo bhi (seq alo (ahi - alo)) ∅ (alo, blo, 0%nat) in
  let '(besti, bestj, bestsize) := extend_left alo blo besti bestj bestsize in
  let bestsize :=
    extend_right (ahi - (besti + bestsize)) ahi bhi besti bestj bestsize in
  (besti, bestj, bestsize).

(** The work-list loop of [get_matching_blocks]: [queue.pop()] takes the
    entry pushed last, here the head. Returns the blocks found, or [None]
    when [steps] iterations did not empty the queue. *)
Fixpoint matching_blocks_loop (steps : nat)
  (queue : list (nat * nat * nat * nat)) (blocks : list (nat * nat * nat))
  : option (list (nat * nat * nat)) :=
  match queue with
  | [] => Some blocks
  | (alo, ahi, blo, bhi) :: queue' =>
      match steps with
      | O => None
      | S steps' =>
          let '(i, j, k) := find_longest_match alo ahi blo bhi in
          if Nat.eqb k 0 then matching_blocks_loop steps' queue' blocks
          else
            let q1 := if (Nat.ltb alo i && Nat.ltb blo j)%bool
                      then [(alo, i, blo, j)] else [] in
            let q2 := if (Nat.ltb (i + k) ahi && Nat.ltb (j + k) bhi)%bool
                      then [((i + k)%nat, ahi, (j + k)%nat, bhi)] else [] in
            matching_blocks_loop steps' (q2 ++ q1 ++ queue')
                                 (blocks ++ [(i, j, k)])
      end
  end.

(** Every iteration that finds a block removes at least one position of
    [a] from the ranges still queued, so [2 * len(a) + 1] iterations
    always empty the queue (lemma [matching_blocks_loop_total]). *)
Definition get_matching_blocks : list (nat * nat * nat) :=
  default [] (matching_blocks_loop (2 * List.length a + 1)%nat
                [(0%nat, List.length a, 0%nat, List.length b)] []).

(** [sum(triple[-1] for triple in self.get_matching_blocks())]: sorting
    the blocks and merging adjacent ones, which [get_matching_blocks]
    does before it returns, leave this sum as it is. *)
Definition matches : nat :=
  fold_right Nat.add 0%nat (List.map snd get_matching_blocks).

(** [ratio()], that is [_calculate_ratio(matches, len(a) + len(b))], as
    the exact rational the float division rounds. *)
Definition ratio : Q :=
  let len := (List.length a + List.length b)%nat in
  if Nat.eqb len 0 then 1%Q
  else (2 * Z.of_nat matches # Pos.of_nat len)%Q.
End SequenceMatcher.

(* ================================================================== *)
(** ** engine/search/dedup.py *)

(** Lowercase, strip punctuation, collapse whitespace. *)
Definition normalize_title (title : string) : string :=
  let t := lower title in
  let t := sub_punct t in
  strip (sub_spaces t).

(** [SequenceMatcher(None, t1, t2).ratio()] *)
Definition title_similarity (t1 t2 : string) : Q :=
  ratio (list_ascii_of_string t1) (list_ascii_of_string t2).

(** [title_similarity(norm, existing_title) > 0.9]. The source compares
    two floats, the correctly rounded quotient and the float nearest to
    0.9. A quotient 2M/T above 9/10 is above it by at least 1/(10T), which
    is more than an ulp as long as the two titles have fewer than 2^50
    characters together; so the floats compare as the rationals do, and
    the rationals are compared here. *)
Definition similar_enough (norm existing_title : string) : bool :=
  negb (Qle_bool (title_similarity norm existing_title) (9 # 10)).

Definition _find_match (cit : Citation)
  (doi_index pmid_index : gmap string nat) (title_index : list (string * nat))
  : option nat :=
  (* Priority 1: DOI exact match *)
  let by_doi :=
    match doi cit with
    | Some d => if String.eqb d "" then None else doi_index !! lower (strip d)
    | None => None
    end in
  match by_doi with
  | Some idx => Some idx
  | None =>
      (* Priority 2: PMID exact match *)
      let by_pmid :=
        match pmid cit with
        | Some p => if String.eqb p "" then None else pmid_index !! strip p
        | None => None
        end in
      match by_pmid with
      | Some idx => Some idx
      | None =>
          (* Priority 3: Fuzzy title match *)
          let norm := normalize_title (title cit) in
          option_map snd
            (List.find (fun entry => similar_enough norm (fst entry)) title_index)
      end
  end.

(** [data[field] = secondary.field] when [data[field] is None]. *)
Definition fill {A} (p s : option A) : option A :=
  match p with
  | None => s
  | Some _ => p
  end.

(** Fill missing fields in primary from secondary. *)
Definition _merge (primary secondary : Citation) : Citation :=
  mkCitation
    (fill (pmid primary) (pmid secondary))
    (fill (doi primary) (doi secondary))
    (title primary)
    (fill (abstract primary) (abstract secondary))
    (match authors primary with
     | [] => authors secondary
     | _ :: _ => authors primary
     end)
    (fill (journal primary) (journal secondary))
    (fill (year primary) (year secondary))
    (source primary)
    (raw_data primary).

(** The local variables of [deduplicate]. *)
Record DedupState := mkDedupState {
  doi_index : gmap string nat;
  pmid_index : gmap string nat;
  title_index : list (string * nat);
  unique : list Citation;
  duplicate_pairs : list (string * string)
}.

(** [unique.append(cit)] and the three index updates, shared by both
    loops of [deduplicate]. *)
Definition index_new (cit : Citation) (st : DedupState) : DedupState :=
  let idx := List.length (unique st) in
  mkDedupState
    (match doi cit with
     | Some d => if String.eqb d "" then doi_index st
                 else <[lower (strip d) := idx]> (doi_index st)
     | None => doi_index st
     end)
    (match pmid cit with
     | Some p => if String.eqb p "" then pmid_index st
                 else <[strip p := idx]> (pmid_index st)
     | None => pmid_index st
     end)
    (title_index st ++ [(normalize_title (title cit), idx)])
    (unique st ++ [cit])
    (duplicate_pairs st).

(** Body of the [for oa_cit in openalex_citations] loop. An index found
    by [_find_match] is always a position of [unique] (lemma
    [find_match_in_range]), so the last case is never reached. *)
Definition dedup_step (st : DedupState) (oa_cit : Citation) : DedupState :=
  match _find_match oa_cit (doi_index st) (pmid_index st) (title_index st) with
  | Some match_idx =>
      match unique st !! match_idx with
      | Some kept =>
          let merged := _merge kept oa_cit in
          mkDedupState (doi_index st) (pmid_index st) (title_index st)
            (<[match_idx := merged]> (unique st))
            (duplicate_pairs st ++ [(title merged, title oa_cit)])
      | None => st
      end
  | None => index_new oa_cit st
  end.

Record DedupStats := mkDedupStats {
  pubmed_total : nat;
  openalex_total : nat;
  duplicates_found : nat;
  unique_total : nat
}.

Record DedupResult := mkDedupResult {
  unique_citations : list Citation;
  result_duplicate_pairs : list (string * string);
  stats : DedupStats
}.

Definition dedup_init : DedupState := mkDedupState ∅ ∅ [] [] [].

Definition index_pubmed (pubmed_citations : list Citation) : DedupState :=
  fold_left (fun st cit => index_new cit st) pubmed_citations dedup_init.

Definition deduplicate (pubmed_citations openalex_citations : list Citation)
  : DedupResult :=
  let st := fold_left dedup_step openalex_citations
              (index_pubmed pubmed_citations) in
  mkDedupResult (unique st) (duplicate_pairs st)
    (mkDedupStats (List.length pubmed_citations)
       (List.length openalex_citations)
       (List.length (duplicate_pairs st)) (List.length (unique st))).

(* ================================================================== *)
(** ** engine/agents/screener.py *)

Inductive Decision := include | exclude.

Definition decision_text (d : Decision) : string :=
  match d with
  | include => "include"
  | exclude => "exclude"
  end.

(** pydantic [ScreeningDecision]; [decision] is a
    [Literal["include", "exclude"]]. *)
Record ScreeningDecision := mkScreeningDecision {
  decision : Decision;
  rationale : string;
  sd_confidence : Q
}.

Record ScreeningStats := mkScreeningStats {
  screened_in : Z;
  screened_out : Z;
  flagged : Z;
  total : Z
}.

Definition SCREENER_MODEL : string := "qwen3:8b".

(** Lifts a call that touches no table into a store operation. *)
Definition call {A} (o : outcome A) : M A := fun db => (db, o).

Section Screener.
(** The model call: what [screen_paper(paper, spec, pass_number)]
    returns or raises. *)
Variable screen_paper :
  Paper -> review_spec.ReviewSpec -> Z -> outcome ScreeningDecision.
(** The clock read by [_now()] while a paper is handled. *)
Variable _now : Z -> string.

(** Body of the [for i, paper in enumerate(papers, 1)] loop. No
    statement of it is inside a [try]. *)
Definition screen_one (spec : review_spec.ReviewSpec) (paper : Paper)
  (stats : ScreeningStats) : M ScreeningStats :=
  let pid := p_id paper in
  (* Pass 1 *)
  d1 <- call (screen_paper paper spec 1) ;;
  add_screening_decision pid 1 (decision_text (decision d1)) (rationale d1)
    SCREENER_MODEL (_now pid) ;;;
  (* Pass 2 *)
  d2 <- call (screen_paper paper spec 2) ;;
  add_screening_decision pid 2 (decision_text (decision d2)) (rationale d2)
    SCREENER_MODEL (_now pid) ;;;
  (* Resolve agreement *)
  match decision d1, decision d2 with
  | include, include =>
      update_status pid "SCREENED_IN" (_now pid) ;;;
      ret (mkScreeningStats (screened_in stats + 1) (screened_out stats)
             (flagged stats) (total stats))
  | exclude, exclude =>
      update_status pid "SCREENED_OUT" (_now pid) ;;;
      ret (mkScreeningStats (screened_in stats) (screened_out stats + 1)
             (flagged stats) (total stats))
  | _, _ =>
      update_status pid "SCREEN_FLAGGED" (_now pid) ;;;
      ret (mkScreeningStats (screened_in stats) (screened_out stats)
             (flagged stats + 1) (total stats))
  end.

Fixpoint screening_loop (spec : review_spec.ReviewSpec) (ps : list Paper)
  (stats : ScreeningStats) : M ScreeningStats :=
  match ps with
  | [] => ret stats
  | paper :: rest =>
      stats' <- screen_one spec paper stats ;;
      screening_loop spec rest stats'
  end.

Definition run_screening (spec : review_spec.ReviewSpec) : M ScreeningStats :=
  fun db =>
  let ps := get_papers_by_status "INGESTED" db in
  screening_loop spec ps
    (mkScreeningStats 0 0 0 (Z.of_nat (List.length ps))) db.
End Screener.

(* ================================================================== *)
(** ** engine/parsers/models.py and engine/parsers/pdf_parser.py *)

Record ParsedDocument := mkParsedDocument {
  pd_paper_id : Z;
  source_pdf_path : string;
  pd_pdf_hash : string;
  parsed_markdown : string;
  parser_used : string;
  parsed_at : string;
  pd_version : Z
}.

(** Validation that pydantic runs when a [ParsedDocument] is built:
    [parser_used: Literal["docling", "qwen2.5vl"]] and
    [version: int = Field(ge=1)]. *)
Definition make_ParsedDocument (paper_id : Z)
  (pdf_path pdf_hash markdown parser now : string) (version : Z)
  : outcome ParsedDocument :=
  if str_in parser ["docling"; "qwen2.5vl"] && Z.leb 1 version then
    Return (mkParsedDocument paper_id pdf_path pdf_hash markdown parser now version)
  else Raise ValidationError.

Definition _SCANNED_THRESHOLD : nat := 100.

Record ParseStats := mkParseStats {
  parsed : Z;
  skipped_existing : Z;
  failed : Z;
  docling : Z;
  minicpm : Z
}.

Definition add_failed (s : ParseStats) : ParseStats :=
  mkParseStats (parsed s) (skipped_existing s) (failed s + 1) (docling s) (minicpm s).
Definition add_parsed (s : ParseStats) : ParseStats :=
  mkParseStats (parsed s + 1) (skipped_existing s) (failed s) (docling s) (minicpm s).
Definition add_docling (s : ParseStats) : ParseStats :=
  mkParseStats (parsed s) (skipped_existing s) (failed s) (docling s + 1) (minicpm s).
Definition add_minicpm (s : ParseStats) : ParseStats :=
  mkParseStats (parsed s) (skipped_existing s) (failed s) (docling s) (minicpm s + 1).

(** [SELECT parsed_text_version FROM full_text_assets WHERE paper_id = ?
    AND pdf_hash = ? ORDER BY parsed_text_version DESC LIMIT 1] *)
Definition select_existing_version (paper_id : Z) (pdf_hash : string)
  (assets : list FullTextAsset) : option Z :=
  sql_max (List.map fta_parsed_text_version
             (List.filter (fun r => Z.eqb (fta_paper_id r) paper_id
                                    && String.eqb (fta_pdf_hash r) pdf_hash)
                assets)).

(** [SELECT MAX(parsed_text_version) FROM full_text_assets WHERE
    paper_id = ?] *)
Definition select_last_version (paper_id : Z) (assets : list FullTextAsset)
  : option Z :=
  sql_max (List.map fta_parsed_text_version
             (List.filter (fun r => Z.eqb (fta_paper_id r) paper_id) assets)).

(** [last_version or 0] *)
Definition or_zero (v : option Z) : Z := default 0 v.

Section PdfParser.
(** The collaborators of [parse_pdf]: file reading and hashing, the
    scanned-page heuristic, the two parser backends, and the file system
    under [parsed_text/]. *)
Variable compute_pdf_hash : string -> outcome string.
Variable is_scanned_pdf : string -> outcome bool.
Variable parse_with_docling : string -> outcome string.
Variable parse_with_minicpm : string -> outcome string.
(** [<review_dir>/parsed_text/{paper_id}_v{version}.md] *)
Variable md_path : Z -> Z -> string.
(** [md_path.read_text() if md_path.exists() else ""] *)
Variable read_md : string -> outcome string.
(** [md_path.write_text(markdown)] *)
Variable write_md : string -> string -> outcome unit.
(** The first of the [pdfs/{pid}_*.pdf], [pdfs/{pid}.pdf] candidates. *)
Variable find_pdf : Z -> option string.
Variable _now : Z -> string.

(** Route: Docling unless the PDF looks scanned or Docling's output is
    sparse. Returns the Markdown and [parser_used]. *)
Definition route_parser (pdf_path : string) : M (string * string) :=
  scanned <- call (is_scanned_pdf pdf_path) ;;
  if (scanned : bool) then
    markdown <- call (parse_with_minicpm pdf_path) ;;
    ret (markdown, "minicpm-v")
  else
    markdown <- call (parse_with_docling pdf_path) ;;
    if Nat.ltb (String.length (strip markdown)) _SCANNED_THRESHOLD then
      markdown' <- call (parse_with_minicpm pdf_path) ;;
      ret (markdown', "minicpm-v")
    else ret (markdown, "docling").

Definition parse_pdf (pdf_path : string) (paper_id : Z) : M ParsedDocument :=
  pdf_hash <- call (compute_pdf_hash pdf_path) ;;
  fun db =>
  (* Check for existing parse with same hash *)
  match select_existing_version paper_id pdf_hash (full_text_assets db) with
  | Some version =>
      (text <- call (read_md (md_path paper_id version)) ;;
       call (make_ParsedDocument paper_id pdf_path pdf_hash text "docling"
               (_now paper_id) version)) db
  | None =>
      (* Determine version number *)
      let last_version := select_last_version paper_id (full_text_assets db) in
      let version := or_zero last_version + 1 in
      (routed <- route_parser pdf_path ;;
       let '(markdown, parser) := routed in
       (* Save Markdown file *)
       let path := md_path paper_id version in
       call (write_md path markdown) ;;;
       (* Record in database: [paper_id] REFERENCES [papers(id)] and
          foreign keys are on, so the INSERT is refused for a paper that
          is not stored *)
       (fun db1 =>
          if paper_exists paper_id db1 then
            (with_full_text_assets db1
               (full_text_assets db1 ++
                  [mkFullTextAsset
                     (next_rowid (List.map fta_id (full_text_assets db1)))
                     paper_id pdf_path pdf_hash path version parser
                     (_now paper_id)]),
             Return tt)
          else (db1, Raise IntegrityError)) ;;;
       call (make_ParsedDocument paper_id pdf_path pdf_hash markdown parser
               (_now paper_id) version)) db
  end.

(** Body of the loop of [parse_all_pdfs]. The counters are entries of a
    dict that the [try] block updates in place, so an update made before
    an exception is still there in the handler. *)
Definition parse_one (paper : Paper) (stats : ParseStats) : M ParseStats :=
  fun db =>
  let pid := p_id paper in
  match find_pdf pid with
  | None => (db, Return (add_failed stats))                  (* continue *)
  | Some pdf_path =>
      match parse_pdf pdf_path pid db with
      | (db1, Raise _) => (db1, Return (add_failed stats))
      | (db1, Return result) =>
          let stats1 := if String.eqb (parser_used result) "docling"
                        then add_docling stats else add_minicpm stats in
          match update_status pid "PARSED" (_now pid) db1 with
          | (db2, Raise _) => (db2, Return (add_failed stats1))
          | (db2, Return _) => (db2, Return (add_parsed stats1))
          end
      end
  end.

Fixpoint parse_loop (ps : list Paper) (stats : ParseStats) : M ParseStats :=
  match ps with
  | [] => ret stats
  | paper :: rest =>
      stats' <- parse_one paper stats ;;
      parse_loop rest stats'
  end.

Definition parse_all_pdfs : M ParseStats := fun db =>
  parse_loop (get_papers_by_status "PDF_ACQUIRED" db)
    (mkParseStats 0 0 0 0 0) db.
End PdfParser.

(* ================================================================== *)
(** ** engine/agents/extractor.py *)

Record ExtractionResult := mkExtractionResult {
  er_paper_id : Z;
  er_fields : list EvidenceSpan;
  er_reasoning_trace : string;
  er_model : string;
  er_extraction_schema_hash : string;
  er_extracted_at : string
}.

Record ExtractionStats := mkExtractionStats {
  extracted : Z;
  skipped : Z;
  x_failed : Z;
  total_spans : Z
}.

Definition EXTRACTOR_MODEL : string := "deepseek-r1:32b".

(** [SELECT id FROM extractions WHERE paper_id = ? AND
    extraction_schema_hash = ?] then [fetchone()]. *)
Definition select_current_extraction (paper_id : Z) (schema_hash : string)
  (db : ReviewDatabase) : option Z :=
  option_map e_id
    (List.find (fun e => Z.eqb (e_paper_id e) paper_id
                         && String.eqb (e_extraction_schema_hash e) schema_hash)
       (extractions db)).

Section Extractor.
Variable sha256_hexdigest : string -> string.
(** Pure prompt formatting. *)
Variable build_extraction_prompt : string -> review_spec.ReviewSpec -> string.
(** The two model calls. *)
Variable extract_pass1_reasoning : string -> outcome string.
Variable extract_pass2_output :
  string -> string -> review_spec.ReviewSpec -> Z -> outcome (list EvidenceSpan).
(** The newest [parsed_text/{pid}_v*.md]: [None] when there is no such
    file, otherwise what [read_text()] returns or raises. *)
Variable newest_parsed_text : Z -> option (outcome string).
Variable _now : Z -> string.

Definition extract_pass2_structured (prompt reasoning_trace : string)
  (spec : review_spec.ReviewSpec) (paper_id : Z) : outcome ExtractionResult :=
  let schema_hash := review_spec.extraction_hash sha256_hexdigest spec in
  match extract_pass2_output prompt reasoning_trace spec paper_id with
  | Raise e => Raise e
  | Return fields =>
      Return (mkExtractionResult paper_id fields reasoning_trace
                EXTRACTOR_MODEL schema_hash (_now paper_id))
  end.

(** [for span in result.fields: db.add_evidence_span(...)] *)
Fixpoint store_spans (ext_id : Z) (spans : list EvidenceSpan) : M unit :=
  match spans with
  | [] => ret tt
  | span :: rest =>
      add_evidence_span ext_id (field_name span) (value span)
        (source_snippet span) (confidence span) ;;;
      store_spans ext_id rest
  end.

Definition extract_paper (paper_id : Z) (paper_text : string)
  (spec : review_spec.ReviewSpec) : M ExtractionResult :=
  let prompt := build_extraction_prompt paper_text spec in
  (* Pass 1: reasoning *)
  reasoning_trace <- call (extract_pass1_reasoning prompt) ;;
  (* Pass 2: structured output *)
  result <- call (extract_pass2_structured prompt reasoning_trace spec paper_id) ;;
  (* Store extraction in database *)
  ext_id <- add_extraction paper_id (er_extraction_schema_hash result)
              (er_fields result) reasoning_trace EXTRACTOR_MODEL
              (_now paper_id) ;;
  (* Store each evidence span *)
  store_spans ext_id (er_fields result) ;;;
  ret result.

(** Body of the loop of [run_extraction]. *)
Definition extract_one (spec : review_spec.ReviewSpec) (schema_hash : string)
  (paper : Paper) (stats : ExtractionStats) : M ExtractionStats := fun db =>
  let pid := p_id paper in
  (* Check staleness: skip if already extracted with current schema hash *)
  match select_current_extraction pid schema_hash db with
  | Some _ =>
      (db, Return (mkExtractionStats (extracted stats) (skipped stats + 1)
                     (x_failed stats) (total_spans stats)))   (* continue *)
  | None =>
      (* Load parsed Markdown *)
      match newest_parsed_text pid with
      | None =>
          (db, Return (mkExtractionStats (extracted stats) (skipped stats)
                         (x_failed stats + 1) (total_spans stats)))
      | Some (Raise e) => (db, Raise e)
      | Some (Return paper_text) =>
          try_except
            (result <- extract_paper pid paper_text spec ;;
             update_status pid "EXTRACTED" (_now pid) ;;;
             ret (mkExtractionStats (extracted stats + 1) (skipped stats)
                    (x_failed stats)
                    (total_spans stats
                     + Z.of_nat (List.length (er_fields result)))))
            (fun _ =>
               ret (mkExtractionStats (extracted stats) (skipped stats)
                      (x_failed stats + 1) (total_spans stats)))
            db
      end
  end.

Fixpoint extraction_loop (spec : review_spec.ReviewSpec) (schema_hash : string)
  (ps : list Paper) (stats : ExtractionStats) : M ExtractionStats :=
  match ps with
  | [] => ret stats
  | paper :: rest =>
      stats' <- extract_one spec schema_hash paper stats ;;
      extraction_loop spec schema_hash rest stats'
  end.

Definition run_extraction (spec : review_spec.ReviewSpec) : M ExtractionStats :=
  fun db =>
  let ps := get_papers_by_status "PARSED" db in
  let schema_hash := review_spec.extraction_hash sha256_hexdigest spec in
  extraction_loop spec schema_hash ps (mkExtractionStats 0 0 0 0) db.
End Extractor.

(* ================================================================== *)
(** ** engine/core/database.py: the counting queries *)

(** [SELECT key, COUNT(rows) AS cnt FROM ... GROUP BY key] read into a
    dict: one entry per key that occurs, holding the number of rows with
    that key. *)
Definition group_count {A} (key : A -> string) (rows : list A)
  : gmap string Z :=
  fold_left (fun m r => <[key r := default 0 (m !! key r) + 1]> m) rows ∅.

(** [SELECT COUNT(rows) FROM ... WHERE cond] *)
Definition count_where {A} (cond : A -> bool) (rows : list A) : Z :=
  Z.of_nat (List.length (List.filter cond rows)).

Definition get_screening_summary (db : ReviewDatabase) : gmap string Z :=
  group_count p_status (papers db).

Definition get_pipeline_stats (db : ReviewDatabase) : gmap string Z :=
  let stats := get_screening_summary db in
  let stats := <["total_papers" := Z.of_nat (List.length (papers db))]> stats in
  let stats :=
    <["total_extractions" := Z.of_nat (List.length (extractions db))]> stats in
  let stats :=
    <["total_evidence_spans" := Z.of_nat (List.length (evidence_spans db))]>
      stats in
  let stats :=
    <["spans_verified" :=
        count_where (fun r => String.eqb (es_audit_status r) "verified")
          (evidence_spans db)]> stats in
  <["spans_flagged" :=
      count_where (fun r => String.eqb (es_audit_status r) "flagged")
        (evidence_spans db)]> stats.

(* ================================================================== *)
(** ** engine/exporters/prisma.py *)

(** The text SQLite holds in [papers.source]. *)
Definition source_text (s : Source) : string :=
  match s with
  | pubmed => "pubmed"
  | openalex => "openalex"
  end.

(** [status_counts.get(s, 0)] *)
Definition get_count (counts : gmap string Z) (s : string) : Z :=
  default 0 (counts !! s).

(** [sum(status_counts.get(s, 0) for s in statuses)] *)
Definition sum_counts (counts : gmap string Z) (statuses : list string) : Z :=
  fold_right Z.add 0 (List.map (get_count counts) statuses).

(** The rows of the join behind [exclusion_reasons]: the rationale of
    every ['exclude'] decision whose paper is [SCREENED_OUT]. *)
Definition excluded_rationales (db : ReviewDatabase) : list string :=
  flat_map
    (fun sd =>
       List.map (fun _ => sd_rationale sd)
         (List.filter
            (fun p => Z.eqb (p_id p) (sd_paper_id sd)
                      && String.eqb (p_status p) "SCREENED_OUT"
                      && String.eqb (sd_decision sd) "exclude")
            (papers db)))
    (screening_decisions db).

(** [exclusion_reasons[row["rationale"] or "No reason given"] = cnt] for
    the groups in the order SQLite yields them, which is ascending by
    rationale; a later group overwrites an earlier one under the same
    key. *)
Definition exclusion_reasons_of (groups : gmap string Z) : gmap string Z :=
  fold_left
    (fun m kv =>
       <[(if String.eqb (fst kv) "" then "No reason given" else fst kv)
         := snd kv]> m)
    (sort_by_key (map_to_list groups)) ∅.

Record PrismaFlow := mkPrismaFlow {
  records_identified : Z;
  records_by_source : gmap string Z;
  duplicates_removed : Z;
  records_screened : Z;
  records_excluded : Z;
  exclusion_reasons : gmap string Z;
  screen_flagged : Z;
  full_text_assessed : Z;
  studies_included : Z;
  prisma_spans_verified : Z;
  prisma_spans_flagged : Z
}.

(** Python's [sum(source_counts.values())]. *)
Definition sum_values (m : gmap string Z) : Z :=
  map_fold (fun _ v acc => v + acc) 0 m.

Definition generate_prisma_flow (db : ReviewDatabase) : PrismaFlow :=
  (* Records identified by source *)
  let source_counts := group_count (fun p => source_text (p_source p))
                         (papers db) in
  let total_identified := sum_values source_counts in
  (* Status counts *)
  let status_counts := group_count p_status (papers db) in
  (* Screening outcomes *)
  let screened_out := get_count status_counts "SCREENED_OUT" in
  let screen_flagged := get_count status_counts "SCREEN_FLAGGED" in
  (* Records that passed screening; a set, each member summed once *)
  let screened_in :=
    sum_counts status_counts
      ["SCREENED_IN"; "PDF_ACQUIRED"; "PARSED"; "EXTRACTED"; "AUDITED"] in
  let exclusion_reasons :=
    exclusion_reasons_of (group_count id (excluded_rationales db)) in
  (* Full text stages *)
  let full_text_assessed :=
    sum_counts status_counts ["PDF_ACQUIRED"; "PARSED"; "EXTRACTED"; "AUDITED"] in
  let studies_included := sum_counts status_counts ["EXTRACTED"; "AUDITED"] in
  (* Audit stats *)
  let spans_verified :=
    count_where (fun r => String.eqb (es_audit_status r) "verified")
      (evidence_spans db) in
  let spans_flagged :=
    count_where (fun r => String.eqb (es_audit_status r) "flagged")
      (evidence_spans db) in
  mkPrismaFlow total_identified source_counts 0
    (screened_in + screened_out + screen_flagged) screened_out
    exclusion_reasons screen_flagged full_text_assessed studies_included
    spans_verified spans_flagged.

(* ================================================================== *)
(** ** engine/agents/auditor.py *)

(** [needle in hay] on strings. *)
Fixpoint str_contains (needle hay : string) : bool :=
  (String.prefix needle hay
   || match hay with
      | EmptyString => false
      | String _ rest => str_contains needle rest
      end)%bool.

(** [s.split()]: the maximal runs of non-whitespace characters. [word]
    is the run read so far. *)
Fixpoint split_from (word : string) (s : string) : list string :=
  match s with
  | EmptyString => if String.eqb word "" then [] else [word]
  | String c rest =>
      if is_space c then
        if String.eqb word "" then split_from "" rest
        else word :: split_from "" rest
      else split_from (word ++ String c "") rest
  end.

Definition split (s : string) : list string := split_from "" s.

(** pydantic's checks on an [EvidenceSpan]: [confidence] within [0, 1],
    [tier] within 1..3. *)
Definition make_EvidenceSpan (field_name value source_snippet : string)
  (confidence : Q) (tier : Z) : outcome EvidenceSpan :=
  if confidence_in_range confidence && Z.leb 1 tier && Z.leb tier 3 then
    Return (mkEvidenceSpan field_name value source_snippet confidence tier)
  else Raise ValidationError.

Module auditor.

Definition MODEL : string := "qwen3:32b".

(** [Literal["verified", "flagged"]] *)
Inductive AuditStatus := verified | flagged.

Definition status_text (s : AuditStatus) : string :=
  match s with
  | verified => "verified"
  | flagged => "flagged"
  end.

Record AuditVerdict := mkAuditVerdict {
  status : AuditStatus;
  grep_found : bool;
  reasoning : string
}.

(** Lowercase and collapse whitespace. *)
Definition _normalize (text : string) : string :=
  strip (sub_spaces (lower text)).

(** [SequenceMatcher(None, norm_snippet, window).ratio() > 0.85] for the
    window of [window_size] words that starts at word [i]. As for the
    title threshold, the floats compare as the exact ratio and 17/20
    do. *)
Definition window_matches (norm_snippet : string) (text_words : list string)
  (window_size i : nat) : bool :=
  let window := join " " (firstn window_size (skipn i text_words)) in
  negb (Qle_bool (ratio (list_ascii_of_string norm_snippet)
                    (list_ascii_of_string window)) (17 # 20)).

Definition grep_verify (source_snippet paper_text : string) : bool :=
  if (String.eqb source_snippet "" || String.eqb paper_text "")%bool then false
  else
    let norm_snippet := _normalize source_snippet in
    let norm_text := _normalize paper_text in
    (* Exact substring match *)
    if str_contains norm_snippet norm_text then true
    else
      (* Sliding window fuzzy match *)
      let snippet_len := String.length norm_snippet in
      if Nat.eqb snippet_len 0 then false
      else
        let text_words := split norm_text in
        let snippet_words := split norm_snippet in
        let window_size := List.length snippet_words in
        if Nat.eqb window_size 0 then false
        else
          existsb (window_matches norm_snippet text_words window_size)
            (seq 0 (Nat.max 1 (List.length text_words + 1 - window_size))).

Record AuditStats := mkAuditStats {
  papers_audited : Z;
  spans_verified : Z;
  spans_flagged : Z;
  grep_failures : Z
}.

Definition REASON_NOT_FOUND : string :=
  "Field was NOT_FOUND — no extraction to audit.".
Definition REASON_NO_SNIPPET : string :=
  "Source snippet not found in paper text.".

Section Auditor.
(** The model call of [semantic_verify]: the verdict it parses from the
    model's answer, or what it raises. *)
Variable semantic_verify : EvidenceSpan -> string -> outcome AuditVerdict.
(** The newest [parsed_text/{pid}_v*.md] as in [run_extraction]. *)
Variable newest_parsed_text : Z -> option (outcome string).
Variable _now : Z -> string.

(** Audit a single evidence span: grep check, then semantic check. A row
    of [evidence_spans] has no [tier] column, so the span is built with
    the default tier 1. *)
Definition audit_span (span_data : EvidenceSpanRow) (paper_text : string)
  : outcome AuditVerdict :=
  let source_snippet := es_source_snippet span_data in
  let value := es_value span_data in
  (* Skip NOT_FOUND fields *)
  if String.eqb value "NOT_FOUND" then
    Return (mkAuditVerdict verified false REASON_NOT_FOUND)
  else
    (* Step 1: grep check *)
    let grep_found := grep_verify source_snippet paper_text in
    if negb grep_found then
      Return (mkAuditVerdict flagged false REASON_NO_SNIPPET)
    else
      (* Step 2: semantic check via LLM *)
      match make_EvidenceSpan (es_field_name span_data) value source_snippet
              (es_confidence span_data) 1 with
      | Raise e => Raise e
      | Return span =>
          match semantic_verify span paper_text with
          | Raise e => Raise e
          | Return verdict =>
              Return (mkAuditVerdict (status verdict) true (reasoning verdict))
          end
      end.

(** The counters after one verdict. *)
Definition count_verdict (verdict : AuditVerdict) (stats : AuditStats)
  : AuditStats :=
  let stats :=
    match status verdict with
    | verified =>
        mkAuditStats (papers_audited stats) (spans_verified stats + 1)
          (spans_flagged stats) (grep_failures stats)
    | flagged =>
        mkAuditStats (papers_audited stats) (spans_verified stats)
          (spans_flagged stats + 1) (grep_failures stats)
    end in
  if negb (grep_found verdict) then
    mkAuditStats (papers_audited stats) (spans_verified stats)
      (spans_flagged stats) (grep_failures stats + 1)
  else stats.

(** [for span_row in spans], over the rows fetched before the loop. *)
Fixpoint audit_spans (pid : Z) (paper_text : string)
  (spans : list EvidenceSpanRow) (stats : AuditStats) : M AuditStats :=
  match spans with
  | [] => ret stats
  | span_data :: rest =>
      verdict <- call (audit_span span_data paper_text) ;;
      update_audit (es_id span_data) (status_text (status verdict)) MODEL
        (reasoning verdict) (_now pid) ;;;
      audit_spans pid paper_text rest (count_verdict verdict stats)
  end.

(** [SELECT * FROM evidence_spans WHERE extraction_id = ? AND
    audit_status = 'pending'] *)
Definition pending_spans (ext_id : Z) (db : ReviewDatabase)
  : list EvidenceSpanRow :=
  List.filter (fun r => Z.eqb (es_extraction_id r) ext_id
                        && String.eqb (es_audit_status r) "pending")
    (evidence_spans db).

(** Body of the loop of [run_audit]; [SELECT id FROM extractions WHERE
    paper_id = ? ORDER BY id DESC LIMIT 1] is the largest extraction id
    of the paper. *)
Definition audit_one (paper : Paper) (stats : AuditStats) : M AuditStats :=
  fun db =>
  let pid := p_id paper in
  (* Load parsed text *)
  match newest_parsed_text pid with
  | None => (db, Return stats)                                (* continue *)
  | Some (Raise e) => (db, Raise e)
  | Some (Return paper_text) =>
      (* Get the latest extraction for this paper *)
      match max_extraction_id pid (extractions db) with
      | None => (db, Return stats)                            (* continue *)
      | Some ext_id =>
          (* Get all pending evidence spans *)
          let spans := pending_spans ext_id db in
          (stats' <- audit_spans pid paper_text spans stats ;;
           update_status pid "AUDITED" (_now pid) ;;;
           ret (mkAuditStats (papers_audited stats' + 1)
                  (spans_verified stats') (spans_flagged stats')
                  (grep_failures stats'))) db
      end
  end.

Fixpoint audit_loop (ps : list Paper) (stats : AuditStats) : M AuditStats :=
  match ps with
  | [] => ret stats
  | paper :: rest =>
      stats' <- audit_one paper stats ;;
      audit_loop rest stats'
  end.

Definition run_audit : M AuditStats := fun db =>
  audit_loop (get_papers_by_status "EXTRACTED" db) (mkAuditStats 0 0 0 0) db.
End Auditor.

End auditor.

(* ================================================================== *)
(** ** engine/agents/extractor.py: the thinking trace *)

(** [s[n:]] *)
Fixpoint drop_chars (n : nat) (s : string) : string :=
  match n, s with
  | O, _ => s
  | S n', String _ rest => drop_chars n' rest
  | S _, EmptyString => EmptyString
  end.

(** The text before and the text after the first occurrence of [sub];
    [None] when [sub] does not occur. *)
Fixpoint split_at_first (sub s : string) : option (string * string) :=
  if String.prefix sub s then Some ("", drop_chars (String.length sub) s)
  else
    match s with
    | EmptyString => None
    | String c rest =>
        match split_at_first sub rest with
        | Some (before, after) => Some (String c before, after)
        | None => None
        end
    end.

(** [re.search(r"<think>(.*?)</think>", content, re.DOTALL)]: the match
    starts at the first opening tag that a closing tag follows, which is
    the first opening tag if any is, and the lazy group ends at the first
    closing tag after it. *)
Definition parse_thinking_trace (content : string) : string :=
  match split_at_first "<think>" content with
  | Some (_, after) =>
      match split_at_first "</think>" after with
      | Some (group1, _) => strip group1
      | None => strip content
      end
  | None => strip content
  end.

(* ================================================================== *)
(** ** engine/parsers/pdf_parser.py: the scanned-page heuristic *)

(** [is_scanned_pdf] on the texts that [page.get_text()] gives for the
    pages of the document. The source divides the total by the page
    count as floats and compares with 100; for integers that is
    [total_chars < 100 * num_pages]. *)
Definition is_scanned_pages (page_texts : list string) : bool :=
  let num_pages := List.length page_texts in
  if Nat.eqb num_pages 0 then true
  else
    let total_chars :=
      fold_right Nat.add 0%nat (List.map String.length page_texts) in
    Nat.ltb total_chars (_SCANNED_THRESHOLD * num_pages).

(* ================================================================== *)
(** ** scripts/run_pipeline.py: the search stage *)

(** [unique[:limit]] for a Python int [limit]. *)
Definition slice_to {A} (limit : Z) (l : list A) : list A :=
  if Z.ltb limit 0 then firstn (Z.to_nat (Z.of_nat (List.length l) + limit)) l
  else firstn (Z.to_nat limit) l.

Record SearchReport := mkSearchReport {
  report_pubmed : nat;
  report_openalex : nat;
  report_duplicates : nat;
  report_unique : nat;
  report_added : Z
}.

Section StageSearch.

(** The two search clients run on the review spec. The stage uses
    nothing of them but that each returns a list of citations or raises;
    it calls them with no handler, so what they raise leaves the stage. *)
Variable search_pubmed : review_spec.ReviewSpec -> outcome (list Citation).
Variable search_openalex : review_spec.ReviewSpec -> outcome (list Citation).

(** [limit] is the [--limit] option. *)
Definition _stage_search (spec : review_spec.ReviewSpec) (limit : option Z)
  (now : string) : M SearchReport :=
  pm_cits <- call (search_pubmed spec) ;;
  oa_cits <- call (search_openalex spec) ;;
  let dedup_result := deduplicate pm_cits oa_cits in
  let unique := unique_citations dedup_result in
  let unique :=
    match limit with
    | Some n => if Z.eqb n 0 then unique else slice_to n unique
    | None => unique
    end in
  added <- add_papers unique now ;;
  ret (mkSearchReport (List.length pm_cits) (List.length oa_cits)
         (duplicates_found (stats dedup_result))
         (List.length (unique_citations dedup_result)) added).

End StageSearch.

(* ================================================================== *)
(** ** engine/core/review_spec.py: validation *)

(** The constraints that pydantic checks when [load_review_spec]
    validates the parsed YAML: [tier] within 1..3 for every field, at
    least one tier-1 field, a [date_range] of two years in order. Raising
    is rendered by [ValidationError]. *)
Definition validate_field (f : review_spec.ExtractionField) : bool :=
  Z.leb 1 (review_spec.tier f) && Z.leb (review_spec.tier f) 3.

(** [any(f.tier == 1 for f in v)] *)
Definition at_least_one_tier1 (v : list review_spec.ExtractionField) : bool :=
  existsb (fun f => Z.eqb (review_spec.tier f) 1) v.

(** [min_length=2, max_length=2] and [v[0] > v[1]] raising. *)
Definition valid_date_range (v : list Z) : bool :=
  match v with
  | [start; stop] => negb (Z.ltb stop start)
  | _ => false
  end.

Definition model_validate (raw : review_spec.ReviewSpec)
  : outcome review_spec.ReviewSpec :=
  if forallb validate_field
       (review_spec.fields (review_spec.extraction_schema raw))
     && at_least_one_tier1
          (review_spec.fields (review_spec.extraction_schema raw))
     && valid_date_range
          (review_spec.date_range (review_spec.search_strategy raw))
  then Return raw
  else Raise ValidationError.

(* ================================================================== *)
(** ** engine/agents/extractor.py: the prompt *)

Definition newline : string := String (ascii_of_N 10) "".

Definition tier_label (tier : Z) : string :=
  if Z.eqb tier 1 then "Tier 1 — Required"
  else if Z.eqb tier 2 then "Tier 2 — Important"
  else "Tier 3 — Optional".

(** One [- **name** (type): description] line; the note on allowed
    values is there when [enum_values] is a non-empty list. *)
Definition field_line (f : review_spec.ExtractionField) : string :=
  let enum_note :=
    match review_spec.enum_values f with
    | Some (v :: vs) => " (allowed values: " ++ join ", " (v :: vs) ++ ")"
    | _ => ""
    end in
  "- **" ++ review_spec.name f ++ "** (" ++ review_spec.type f ++ enum_note
  ++ "): " ++ review_spec.description f.

(** The [lines] of the tiers that have fields, tier by tier. *)
Definition prompt_blocks (spec : review_spec.ReviewSpec) : list (list string) :=
  omap
    (fun tier =>
       match review_spec.fields_by_tier (review_spec.extraction_schema spec)
               tier with
       | [] => None                                            (* continue *)
       | fields =>
           Some ((newline ++ "### " ++ tier_label tier)
                 :: List.map field_line fields)
       end)
    [1; 2; 3].

Definition build_extraction_prompt (paper_text : string)
  (spec : review_spec.ReviewSpec) : string :=
  let field_blocks := List.map (join newline) (prompt_blocks spec) in
  let schema_text := join newline field_blocks in
  join newline
    [ "Extract structured data from the following paper for a systematic review.";
      "";
      "## Extraction Schema";
      schema_text;
      "";
      "## Instructions";
      "For each field above, extract the value from the paper and provide:";
      "- **value**: The extracted data. If the field is not found in the paper, set to "
        ++ quote ++ "NOT_FOUND" ++ quote ++ ".";
      "- **source_snippet**: A verbatim quote (1-3 sentences) from the paper that supports your extraction. If NOT_FOUND, set to empty string.";
      "- **confidence**: How clearly the paper states this information (0.0 to 1.0).";
      "- **tier**: The tier number of the field (1, 2, or 3).";
      "";
      "## Paper Text";
      paper_text ].

(* ================================================================== *)
(** ** The parsed text that the extractor and the auditor read

    [md_files = sorted(parsed_dir.glob(f"{pid}_v*.md"), reverse=True)] and
    then [md_files[0]], over the names of the files in [parsed_text/]. *)

(** [f"{paper_id}_v{version}.md"], the name [parse_pdf] writes under. *)
Definition md_name (paper_id version : Z) : string :=
  dumps_int paper_id ++ "_v" ++ dumps_int version ++ ".md".

(** [s.endswith(suffix)] *)
Definition ends_with (suffix s : string) : bool :=
  Nat.leb (String.length suffix) (String.length s)
  && String.eqb (drop_chars (String.length s - String.length suffix) s) suffix.

(** The pattern [{pid}_v*.md]: the name begins with [{pid}_v] and what
    follows ends with [.md]. *)
Definition glob_md (pid : Z) (name : string) : bool :=
  let stem := dumps_int pid ++ "_v" in
  String.prefix stem name
  && ends_with ".md" (drop_chars (String.length stem) name).

(** The first element of a list sorted in descending order: its largest
    element. Paths in one directory compare as their names do, code point
    by code point. *)
Definition first_descending (names : list string) : option string :=
  fold_right
    (fun name best =>
       match best with
       | None => Some name
       | Some other => if String.leb other name then Some name else Some other
       end)
    None names.

Definition newest_md_file (pid : Z) (dir : list string) : option string :=
  first_descending (List.filter (glob_md pid) dir).

(* ================================================================== *)
(** ** engine/exporters/evidence_table.py *)

(** A cell of the evidence table: what the row list holds before the CSV
    or Excel writer renders it. *)
Inductive cell :=
| CInt (n : Z)
| CReal (q : Q)
| CText (s : string)
| CNone.

Definition opt_text (o : option string) : cell :=
  match o with
  | Some s => CText s
  | None => CNone
  end.

Definition opt_int (o : option Z) : cell :=
  match o with
  | Some n => CInt n
  | None => CNone
  end.

(** [ORDER BY id] *)
Fixpoint insert_by_id (p : Paper) (l : list Paper) : list Paper :=
  match l with
  | [] => [p]
  | q :: rest =>
      if Z.leb (p_id p) (p_id q) then p :: l else q :: insert_by_id p rest
  end.

Definition order_by_id (ps : list Paper) : list Paper :=
  fold_right insert_by_id [] ps.

(** [span_map[s["field_name"]] = s] over the spans of the extraction, in
    table order: the last span of a field name stays. *)
Definition span_map_of (ext_id : Z) (db : ReviewDatabase)
  : gmap string EvidenceSpanRow :=
  fold_left (fun m s => <[es_field_name s := s]> m)
    (List.filter (fun s => Z.eqb (es_extraction_id s) ext_id)
       (evidence_spans db))
    ∅.

Definition field_cells (span_map : gmap string EvidenceSpanRow)
  (fname : string) : list cell :=
  match span_map !! fname with
  | Some span =>
      [ CText (es_value span); CText (es_source_snippet span);
        CReal (es_confidence span); CText (es_audit_status span) ]
  | None => [ CText ""; CText ""; CText ""; CText "" ]
  end.

Definition _build_evidence_rows (db : ReviewDatabase)
  (spec : review_spec.ReviewSpec) : list string * list (list cell) :=
  let field_names :=
    List.map review_spec.name
      (review_spec.fields (review_spec.extraction_schema spec)) in
  (* Base columns, then four per extraction field *)
  let headers :=
    List.app
      ["paper_id"; "pmid"; "doi"; "title"; "authors"; "year"; "journal"]
      (flat_map
         (fun fname =>
            [fname; fname ++ "_snippet"; fname ++ "_confidence";
             fname ++ "_audit"])
         field_names) in
  (* Papers that have extractions (EXTRACTED or AUDITED) *)
  let papers :=
    order_by_id
      (List.filter (fun p => str_in (p_status p) ["EXTRACTED"; "AUDITED"])
         (papers db)) in
  let rows :=
    List.map
      (fun paper =>
         let pid := p_id paper in
         let row :=
           [ CInt pid; opt_text (p_pmid paper); opt_text (p_doi paper);
             CText (p_title paper);
             CText (json_dumps (JList (List.map JStr (p_authors paper))));
             opt_int (p_year paper); opt_text (p_journal paper) ] in
         (* Latest extraction's spans *)
         let span_map :=
           match max_extraction_id pid (extractions db) with
           | Some ext_id => span_map_of ext_id db
           | None => ∅
           end in
         (row ++ flat_map (field_cells span_map) field_names)%list)
      papers in
  (headers, rows).

(* ================================================================== *)
(** ** engine/search/pubmed.py *)

Definition _BATCH_SIZE : nat := 500.
Definition _RATE_LIMIT_DELAY : Q := 34 # 100.
Definition _MAX_RETRIES : Z := 3.

(** [s.replace(old, new)] for a non-empty [old]: the occurrences of [old]
    are replaced from the left, none overlapping another. [skip] counts
    the characters of the occurrence just replaced that are still to be
    passed over. *)
Fixpoint replace_from (skip : nat) (old new s : string) : string :=
  match s with
  | EmptyString => EmptyString
  | String c rest =>
      match skip with
      | S skip' => replace_from skip' old new rest
      | O =>
          if String.prefix old s
          then new ++ replace_from (String.length old - 1) old new rest
          else String c (replace_from 0 old new rest)
      end
  end.

Definition replace (old new s : string) : string := replace_from 0 old new s.

(** [s[:n]] *)
Fixpoint take_chars (n : nat) (s : string) : string :=
  match n, s with
  | S n', String c rest => String c (take_chars n' rest)
  | _, _ => EmptyString
  end.

(** [range(start, stop, step)] for a positive [step]; at most [fuel]
    numbers, and [stop] of them are enough. *)
Fixpoint range_from (fuel start stop step : nat) : list nat :=
  match fuel with
  | O => []
  | S fuel' =>
      if Nat.ltb start stop
      then start :: range_from fuel' (start + step) stop step
      else []
  end.

Definition range (start stop step : nat) : list nat :=
  range_from stop start stop step.

(** [l[start:stop]] for [0 <= start <= stop]. *)
Definition slice {A} (start stop : nat) (l : list A) : list A :=
  firstn (stop - start) (skipn start l).

(** A MEDLINE record as [Medline.parse] yields it: a dict in which any
    key may be missing. [rec_AID] and [rec_AU] are read with [[]] as the
    default; [rec_raw] is the record as the citation keeps it. *)
Record MedlineRecord := mkMedlineRecord {
  rec_TI : option string;
  rec_DP : option string;
  rec_AID : list string;
  rec_PMID : option string;
  rec_AB : option string;
  rec_AU : list string;
  rec_JT : option string;
  rec_raw : list (string * string)
}.

(** What [search_pubmed] does on the network, in order. *)
Inductive NetEvent :=
| Efetch (ids : list string)
| Sleep (seconds : Q).

Section Pubmed.

(** Python's [int] on a string; [None] stands for [ValueError]. *)
Variable int : string -> option Z.
(** [_efetch]: the MEDLINE records of a batch of PMIDs, or the exception
    of the third failed attempt. *)
Variable _efetch : list string -> outcome (list MedlineRecord).

Definition _parse_record (rec : MedlineRecord) : option Citation :=
  match rec_TI rec with
  | None => None
  | Some title =>
      if String.eqb title "" then None
      else
        (* Extract year from Date of Publication (DP) field *)
        let year :=
          match rec_DP rec with
          | Some dp => if String.eqb dp "" then None else int (take_chars 4 dp)
          | None => None
          end in
        (* DOI is in Article Identifier (AID) field, tagged with [doi] *)
        let doi :=
          match List.find (ends_with "[doi]") (rec_AID rec) with
          | Some aid => Some (replace " [doi]" "" aid)
          | None => None
          end in
        Some (mkCitation (rec_PMID rec) doi title (rec_AB rec) (rec_AU rec)
                (rec_JT rec) year pubmed (rec_raw rec))
  end.

(** [for rec in records: ... citations.append(citation)] *)
Definition parse_records (records : list MedlineRecord) : list Citation :=
  flat_map (fun rec => match _parse_record rec with
                       | Some citation => [citation]
                       | None => []
                       end) records.

(** Phase 2 of [search_pubmed]: the loop over [range(0, total,
    _BATCH_SIZE)]. *)
Fixpoint fetch_batches (starts : list nat) (pmids : list string) (total : nat)
  (citations : list Citation) (log : list NetEvent)
  : list NetEvent * outcome (list Citation) :=
  match starts with
  | [] => (log, Return citations)
  | start :: rest =>
      let batch_ids := slice start (start + _BATCH_SIZE) pmids in
      let log := (log ++ [Efetch batch_ids])%list in
      match _efetch batch_ids with
      | Raise e => (log, Raise e)
      | Return records =>
          let citations := (citations ++ parse_records records)%list in
          let log :=
            if Nat.ltb (start + _BATCH_SIZE) total
            then (log ++ [Sleep _RATE_LIMIT_DELAY])%list
            else log in
          fetch_batches rest pmids total citations log
      end
  end.

(** [search_pubmed] once [_esearch] has returned [pmids]. *)
Definition search_pubmed (pmids : list string) (log : list NetEvent)
  : list NetEvent * outcome (list Citation) :=
  let total := List.length pmids in
  if Nat.eqb total 0 then (log, Return [])
  else fetch_batches (range 0 total _BATCH_SIZE) pmids total [] log.

End Pubmed.

(* ================================================================== *)
(** ** engine/search/openalex.py *)

(** An OpenAlex work: the entries of the dict that [_parse_work] reads,
    any of which may be missing or null. [work_ids_pmid] is
    [ids.get("pmid")], [work_authorships] the [display_name] of the
    author of each authorship, [work_journal] the [display_name] of the
    source of the primary location; [work_raw] is the dict as the
    citation keeps it. *)
Record Work := mkWork {
  work_title : option string;
  work_ids_pmid : option string;
  work_doi : option string;
  work_authorships : list (option string);
  work_journal : option string;
  work_abstract_inverted_index : option (list (string * list nat));
  work_publication_year : option Z;
  work_raw : list (string * string)
}.

(** What [next(paginator)] does: it yields a page, raises
    [StopIteration], or raises another exception. *)
Inductive Response :=
| GotPage (page : list Work)
| StopIteration
| Failure (exc : exn).

Section Openalex.

(** pyalex's [invert_abstract]. *)
Variable invert_abstract : list (string * list nat) -> string.

Definition reconstruct_abstract
  (inverted_index : option (list (string * list nat))) : option string :=
  match inverted_index with
  | None => None
  | Some [] => None
  | Some index => Some (invert_abstract index)
  end.

Definition _parse_work (work : Work) : option Citation :=
  match work_title work with
  | None => None
  | Some title =>
      if String.eqb title "" then None
      else
        (* Extract PMID from ids dict *)
        let pmid :=
          match work_ids_pmid work with
          | Some pmid_url =>
              if String.eqb pmid_url "" then None
              else Some (replace "https://pubmed.ncbi.nlm.nih.gov/" "" pmid_url)
          | None => None
          end in
        (* DOI: strip prefix *)
        let doi :=
          match work_doi work with
          | Some doi =>
              if negb (String.eqb doi "") && String.prefix "https://doi.org/" doi
              then Some (drop_chars (String.length "https://doi.org/") doi)
              else Some doi
          | None => None
          end in
        (* Authors *)
        let authors :=
          flat_map (fun name => if truthy name then [default "" name] else [])
            (work_authorships work) in
        Some (mkCitation pmid doi title
                (reconstruct_abstract (work_abstract_inverted_index work))
                authors (work_journal work) (work_publication_year work)
                openalex (work_raw work))
  end.

(** [_paginate_with_retry] over the responses that the successive calls
    [next(paginator)] get; a paginator with no response left raises
    [StopIteration]. One recursion renders the two loops: [attempt] is
    the counter of the inner [for], which every [yield] starts again at 1.
    The result is the pages yielded, the seconds slept between attempts,
    and how the generator ends. *)
Fixpoint paginate_from (paginator : list Response) (attempt : Z)
  : list (list Work) * list Z * outcome unit :=
  match paginator with
  | [] => ([], [], Return tt)
  | StopIteration :: _ => ([], [], Return tt)
  | GotPage page :: rest =>
      let '(pages, slept, ending) := paginate_from rest 1 in
      (page :: pages, slept, ending)
  | Failure exc :: rest =>
      if Z.eqb attempt _MAX_RETRIES then ([], [], Raise exc)
      else
        let wait := 2 ^ attempt in
        let '(pages, slept, ending) := paginate_from rest (attempt + 1) in
        (pages, wait :: slept, ending)
  end.

Definition _paginate_with_retry (paginator : list Response)
  : list (list Work) * list Z * outcome unit :=
  paginate_from paginator 1.

(** [for work in page: ... citations.append(citation)] *)
Definition parse_page (page : list Work) : list Citation :=
  flat_map (fun work => match _parse_work work with
                        | Some citation => [citation]
                        | None => []
                        end) page.

(** [search_openalex] over the paginator of its query: the citations of
    all pages when the generator ends normally, none when it raises. *)
Definition search_openalex (paginator : list Response)
  : outcome (list Citation) :=
  let '(pages, _, ending) := _paginate_with_retry paginator in
  match ending with
  | Return _ => Return (flat_map parse_page pages)
  | Raise exc => Raise exc
  end.

End Openalex.

(* ================================================================== *)
(** * Vocabulary of the properties *)

(** The status graph as the specification draws it. *)
Inductive transition_edge : string -> string -> Prop :=
| edge_ingested_in : transition_edge "INGESTED" "SCREENED_IN"
| edge_ingested_out : transition_edge "INGESTED" "SCREENED_OUT"
| edge_ingested_flagged : transition_edge "INGESTED" "SCREEN_FLAGGED"
| edge_in_pdf : transition_edge "SCREENED_IN" "PDF_ACQUIRED"
| edge_flagged_in : transition_edge "SCREEN_FLAGGED" "SCREENED_IN"
| edge_flagged_out : transition_edge "SCREEN_FLAGGED" "SCREENED_OUT"
| edge_pdf_parsed : transition_edge "PDF_ACQUIRED" "PARSED"
| edge_parsed_extracted : transition_edge "PARSED" "EXTRACTED"
| edge_extracted_audited : transition_edge "EXTRACTED" "AUDITED".

(** Two paper rows that differ at most in [status] and [updated_at]. *)
Definition same_but_status (r r' : Paper) : Prop :=
  p_id r' = p_id r /\ p_pmid r' = p_pmid r /\ p_doi r' = p_doi r /\
  p_title r' = p_title r /\ p_abstract r' = p_abstract r /\
  p_authors r' = p_authors r /\ p_journal r' = p_journal r /\
  p_year r' = p_year r /\ p_source r' = p_source r /\
  p_created_at r' = p_created_at r.

Definition example_paper (id : Z) (pmid_ : option string) (status : string) : Paper :=
  mkPaper id pmid_ None "Study A" None [] None None pubmed status "t0" "t0".

Definition example_db : ReviewDatabase :=
  mkDb [example_paper 1 (Some "111") "INGESTED";
        example_paper 2 (Some "222") "SCREENED_OUT"] [] [] [] [].


Definition example_audit_db : ReviewDatabase :=
  mkDb [example_paper 1 (Some "111") "EXTRACTED"] [] []
       [mkExtraction 1 1 "h1" [] "trace" "deepseek-r1:32b" "t0"]
       [mkEvidenceSpanRow 1 1 "study_design" "RCT" "This was an RCT" (19 # 20)
          "pending" None None None].

(** The PMIDs held by the rows of [papers] ([NULL]s left out). *)
Definition stored_pmids (ps : list Paper) : list string := omap p_pmid ps.

(** The citations of a batch that ingestion keeps: a citation is left out
    exactly when it carries a PMID that is already stored, in the store or
    through an earlier citation of the same batch. *)
Fixpoint ingested (seen : list string) (citations : list Citation)
  : list Citation :=
  match citations with
  | [] => []
  | cit :: rest =>
      match pmid cit with
      | Some s =>
          if str_in s seen then ingested seen rest
          else cit :: ingested (seen ++ [s]) rest
      | None => cit :: ingested seen rest
      end
  end.

(** The row that ingestion writes for a citation. *)
Definition paper_of (id : Z) (cit : Citation) (now : string) : Paper :=
  mkPaper id (pmid cit) (doi cit) (title cit) (abstract cit) (authors cit)
    (journal cit) (year cit) (source cit) "INGESTED" now now.

Fixpoint rows_from (start : Z) (now : string) (citations : list Citation)
  : list Paper :=
  match citations with
  | [] => []
  | cit :: rest => paper_of start cit now :: rows_from (start + 1) now rest
  end.

Definition has_no_pmid (cit : Citation) : bool :=
  match pmid cit with None => true | Some _ => false end.

Definition example_citation (title_ : string) (pmid_ : option string) : Citation :=
  mkCitation pmid_ (Some "10.1/a") title_ None [] None None pubmed [].

(** [e] is a latest extraction of paper [p]: one of its extractions, and
    none of its extractions has a larger id. *)
Definition latest_extraction (db : ReviewDatabase) (p : Paper) (e : Extraction)
  : Prop :=
  In e (extractions db) /\ e_paper_id e = p_id p
  /\ forall e2, In e2 (extractions db) -> e_paper_id e2 = p_id p ->
                e_id e2 <= e_id e.

(** The store after two successive extractions of one paper. *)
Definition extracted_twice (paper_id : Z) (h1 h2 : string) (db : ReviewDatabase)
  : ReviewDatabase :=
  fst ((add_extraction paper_id h1 [] "trace 1" EXTRACTOR_MODEL "t1" ;;;
        add_extraction paper_id h2 [] "trace 2" EXTRACTOR_MODEL "t2") db).


(** The screening decisions recorded for a paper, as (pass, decision)
    pairs in the order they were appended. *)
Definition decisions_of (paper_id : Z) (db : ReviewDatabase) : list (Z * string) :=
  List.map (fun r => (sd_pass_number r, sd_decision r))
    (List.filter (fun r => Z.eqb (sd_paper_id r) paper_id)
       (screening_decisions db)).

Definition status_of (paper_id : Z) (db : ReviewDatabase) : option string :=
  option_map p_status (select_paper paper_id (papers db)).

Definition example_spec : review_spec.ReviewSpec :=
  review_spec.mkReviewSpec "Surgical autonomy" "1.0" ["A. Author"] (2026, 1, 15)
    None
    (review_spec.mkPICO "adults" "autonomous robot" "surgeon" ["accuracy"])
    (review_spec.mkSearchStrategy ["pubmed"; "openalex"] ["autonomous suturing"]
       [2015; 2025])
    (review_spec.mkScreeningCriteria ["robotic surgery"] ["review articles"])
    (review_spec.mkExtractionSchema
       [review_spec.mkExtractionField "study_design" "Design of the study"
          "str" 1 None]).


Definition example_clock (paper_id : Z) : string := "t1".

Definition example_ingested_db : ReviewDatabase :=
  mkDb [example_paper 1 (Some "111") "INGESTED";
        example_paper 2 (Some "222") "INGESTED";
        example_paper 3 (Some "333") "SCREENED_OUT"] [] [] [] [].

(** A model call that fails on the second pass of paper 1. *)
Definition failing_screen_paper (paper : Paper) (spec : review_spec.ReviewSpec)
  (pass_number : Z) : outcome ScreeningDecision :=
  if Z.eqb pass_number 2 && Z.eqb (p_id paper) 1
  then Raise (CollaboratorError "ollama: connection refused")
  else Return (mkScreeningDecision include "Mock include." (4 # 5)).



(** The parsed-text versions recorded for a paper, in insertion order,
    and the content hashes they were recorded for. *)
Definition assets_of (paper_id : Z) (db : ReviewDatabase) : list FullTextAsset :=
  List.filter (fun r => Z.eqb (fta_paper_id r) paper_id) (full_text_assets db).

Definition versions_of (paper_id : Z) (db : ReviewDatabase) : list Z :=
  List.map fta_parsed_text_version (assets_of paper_id db).

Definition hashes_of (paper_id : Z) (db : ReviewDatabase) : list string :=
  List.map fta_pdf_hash (assets_of paper_id db).

(** 1, 2, ..., n *)
Definition one_to (n : nat) : list Z := List.map Z.of_nat (seq 1 n).

(** A mocked file system and parser for the examples: every PDF is
    digital, its hash is its path, Docling returns a long text. *)
Definition example_hash (pdf_path : string) : outcome string := Return pdf_path.
Definition example_is_scanned (pdf_path : string) : outcome bool := Return false.
Definition example_markdown : string :=
  "# Autonomous Robotic Suturing: A Systematic Review. This study evaluates the performance of autonomous suturing systems across multiple robotic platforms.".
Definition example_docling (pdf_path : string) : outcome string :=
  Return example_markdown.
Definition example_minicpm (pdf_path : string) : outcome string :=
  Raise (CollaboratorError "ollama: connection refused").
Definition example_md_path (paper_id version : Z) : string := "parsed_text/x.md".
Definition example_read_md (path : string) : outcome string := Return example_markdown.
Definition example_write_md (path text : string) : outcome unit := Return tt.

(** A store that holds paper 1, whose PDF has been acquired, and no
    asset yet. *)
Definition example_acquired_db : ReviewDatabase :=
  mkDb [example_paper 1 (Some "111") "PDF_ACQUIRED"] [] [] [] [].

(** The row [parse_pdf] records for a new hash. *)
Definition new_asset (md_path : Z -> Z -> string) (_now : Z -> string)
  (db : ReviewDatabase) (pdf_path : string) (paper_id : Z)
  (pdf_hash parser : string) : FullTextAsset :=
  let version := or_zero (select_last_version paper_id (full_text_assets db)) + 1 in
  mkFullTextAsset (next_rowid (List.map fta_id (full_text_assets db)))
    paper_id pdf_path pdf_hash (md_path paper_id version) version parser
    (_now paper_id).

(** Per paper: the versions are 1, 2, ..., n in insertion order and no
    content hash occurs twice. *)
Definition versions_in_order (db : ReviewDatabase) : Prop :=
  forall paper_id,
    versions_of paper_id db = one_to (List.length (assets_of paper_id db))
    /\ NoDup (hashes_of paper_id db).

Section ParseRequests.
Variable compute_pdf_hash : string -> outcome string.
Variable is_scanned_pdf : string -> outcome bool.
Variable parse_with_docling : string -> outcome string.
Variable parse_with_minicpm : string -> outcome string.
Variable md_path : Z -> Z -> string.
Variable read_md : string -> outcome string.
Variable write_md : string -> string -> outcome unit.
Variable _now : Z -> string.

(** A sequence of parse requests [(pdf_path, paper_id)], each run on the
    store the previous one left, whatever it returned or raised. *)
Fixpoint parse_requests (requests : list (string * Z)) (db : ReviewDatabase)
  : ReviewDatabase :=
  match requests with
  | [] => db
  | (pdf_path, paper_id) :: rest =>
      parse_requests rest
        (fst (parse_pdf compute_pdf_hash is_scanned_pdf parse_with_docling
                parse_with_minicpm md_path read_md write_md _now
                pdf_path paper_id db))
  end.
End ParseRequests.

(** A review specification with another screening section, and one with
    another extraction schema. *)
Definition with_screening_criteria (s : review_spec.ReviewSpec)
  (c : review_spec.ScreeningCriteria) : review_spec.ReviewSpec :=
  review_spec.mkReviewSpec (review_spec.title s) (review_spec.version s)
    (review_spec.authors s) (review_spec.date s) (review_spec.prospero_id s)
    (review_spec.pico s) (review_spec.search_strategy s) c
    (review_spec.extraction_schema s).

Definition with_extraction_schema (s : review_spec.ReviewSpec)
  (e : review_spec.ExtractionSchema) : review_spec.ReviewSpec :=
  review_spec.mkReviewSpec (review_spec.title s) (review_spec.version s)
    (review_spec.authors s) (review_spec.date s) (review_spec.prospero_id s)
    (review_spec.pico s) (review_spec.search_strategy s)
    (review_spec.screening_criteria s) e.

(** A stand-in digest for the examples: the text itself. *)
Definition example_digest (blob : string) : string := blob.

(** The local variables of [deduplicate] after the PubMed list and a
    prefix of the OpenAlex list have been worked through. *)
Definition dedup_state (pubmed_citations openalex_citations : list Citation)
  : DedupState :=
  fold_left dedup_step openalex_citations (index_pubmed pubmed_citations).

(** Every index held by the three indexes is a position of [unique]. *)
Definition indexes_in_range (st : DedupState) : Prop :=
  (forall k i, doi_index st !! k = Some i -> (i < List.length (unique st))%nat)
  /\ (forall k i, pmid_index st !! k = Some i -> (i < List.length (unique st))%nat)
  /\ (forall t i, In (t, i) (title_index st) -> (i < List.length (unique st))%nat).

(** The fields of the kept record that [_merge] may not touch: those
    that were populated, and title, source and raw data in any case. *)
Definition keeps_populated (kept merged : Citation) : Prop :=
  title merged = title kept /\ source merged = source kept
  /\ raw_data merged = raw_data kept
  /\ (forall x, doi kept = Some x -> doi merged = Some x)
  /\ (forall x, pmid kept = Some x -> pmid merged = Some x)
  /\ (forall x, abstract kept = Some x -> abstract merged = Some x)
  /\ (forall x, journal kept = Some x -> journal merged = Some x)
  /\ (forall x, year kept = Some x -> year merged = Some x)
  /\ (authors kept <> [] -> authors merged = authors kept).

(** The fields of the kept record that were missing take the value of the
    discarded record. *)
Definition fills_missing (kept secondary merged : Citation) : Prop :=
  (doi kept = None -> doi merged = doi secondary)
  /\ (pmid kept = None -> pmid merged = pmid secondary)
  /\ (abstract kept = None -> abstract merged = abstract secondary)
  /\ (journal kept = None -> journal merged = journal secondary)
  /\ (year kept = None -> year merged = year secondary)
  /\ (authors kept = [] -> authors merged = authors secondary).

(** Length of the run of positions ending at [i] whose characters are
    not purged as popular, in a sequence matched against itself. *)
Fixpoint diag_run (a : list ascii) (i : nat) : nat :=
  let before := match i with O => 0%nat | S i' => diag_run a i' end in
  match a !! i with
  | Some c => if is_popular a c then 0%nat else S before
  | None => 0%nat
  end.

Definition diag_run_before (a : list ascii) (i : nat) : nat :=
  match i with O => 0%nat | S i' => diag_run a i' end.

(** A list of positions in strictly increasing order, none below [lo]. *)
Fixpoint ascending_from (lo : nat) (l : list nat) : Prop :=
  match l with
  | [] => True
  | x :: rest => (lo <= x)%nat /\ ascending_from (S x) rest
  end.

(** The previous row of the table, as the next row reads it. *)
Definition row_ready (a : list ascii) (i : nat) (j2len : gmap nat nat) : Prop :=
  (forall j, (j2lenget_pred j2len j <= diag_run_before a i)%nat)
  /\ (forall j, (j2lenget_pred j2len j <= diag_run_before a j)%nat)
  /\ j2lenget_pred j2len i = diag_run_before a i.

(** The best block found so far lies on the diagonal and is at least as
    long as every diagonal run that ended before row [i]. *)
Definition best_on_diagonal (a : list ascii) (i : nat) (best : nat * nat * nat) : Prop :=
  exists bi bs, best = (bi, bi, bs) /\ (bi + bs <= i)%nat
                /\ forall j, (j < i)%nat -> (diag_run a j <= bs)%nat.


(** The keys under which [_find_match] and the indexing loops look a
    citation up: the DOI trimmed and lower-cased, the PMID trimmed; no key
    when the field is missing or empty. *)
Definition doi_key (cit : Citation) : option string :=
  match doi cit with
  | Some d => if String.eqb d "" then None else Some (lower (strip d))
  | None => None
  end.

Definition pmid_key (cit : Citation) : option string :=
  match pmid cit with
  | Some p => if String.eqb p "" then None else Some (strip p)
  | None => None
  end.


Definition example_primary : Citation :=
  mkCitation (Some "1") (Some "10.1/a") "Study A" None [] None None pubmed [].

Definition example_secondary : Citation :=
  mkCitation None (Some " 10.1/A ") "A completely different title" None []
    None None openalex [].


(** A block [(i, j, k)] lies inside the ranges [alo, ahi) and [blo, bhi). *)
Definition block_in_range (alo ahi blo bhi : nat) (block : nat * nat * nat)
  : Prop :=
  let '(i, j, k) := block in
  (alo <= i)%nat /\ (blo <= j)%nat /\ (i + k <= ahi)%nat /\ (j + k <= bhi)%nat.

(** An upper bound on the iterations that a queue of ranges still needs. *)
Definition queue_weight (queue : list (nat * nat * nat * nat)) : nat :=
  fold_right Nat.add 0%nat
    (List.map (fun e => let '(alo, ahi, _, _) := e in (2 * (ahi - alo) + 1)%nat)
       queue).

Definition range_ok (e : nat * nat * nat * nat) : Prop :=
  let '(alo, ahi, blo, bhi) := e in (alo <= ahi)%nat /\ (blo <= bhi)%nat.

(* ================================================================== *)
(** * Vocabulary of the further properties *)

(** Every paper row carries one of the eight recognized statuses. *)
Definition statuses_valid (db : ReviewDatabase) : Prop :=
  Forall (fun p => In (p_status p) STATUSES) (papers db).

(** How far along the pipeline a status is; flagged papers sit between
    ingestion and the two screening verdicts. *)
Definition stage (status : string) : nat :=
  if String.eqb status "INGESTED" then 0
  else if String.eqb status "SCREEN_FLAGGED" then 1
  else if String.eqb status "SCREENED_IN" then 2
  else if String.eqb status "SCREENED_OUT" then 2
  else if String.eqb status "PDF_ACQUIRED" then 3
  else if String.eqb status "PARSED" then 4
  else if String.eqb status "EXTRACTED" then 5
  else 6.

(** Successive calls [update_status(paper_id, new_status)] for one
    paper, each with the clock reading of its moment; the first call that
    raises ends the sequence. *)
Fixpoint update_status_chain (paper_id : Z) (steps : list (string * string))
  : M unit :=
  match steps with
  | [] => ret tt
  | (new_status, now) :: rest =>
      update_status paper_id new_status now ;;;
      update_status_chain paper_id rest
  end.

(** The statuses of a chain climb the stages, starting above [current]. *)
Fixpoint climbing (current : string) (targets : list string) : Prop :=
  match targets with
  | [] => True
  | s :: rest => (stage current < stage s <= 6)%nat /\ climbing s rest
  end.

(** Two citations share an identifier as deduplication reads it: the
    DOI up to surrounding blanks and letter case, the PMID up to
    surrounding blanks, or the normalized title. *)
Definition same_record (c1 c2 : Citation) : Prop :=
  (exists k, doi_key c1 = Some k /\ doi_key c2 = Some k)
  \/ (exists k, pmid_key c1 = Some k /\ pmid_key c2 = Some k)
  \/ normalize_title (title c1) = normalize_title (title c2).

(** The citation has been entered in the indexes of the state. *)
Definition indexed (st : DedupState) (c : Citation) : Prop :=
  (forall k, doi_key c = Some k -> is_Some (doi_index st !! k))
  /\ (forall k, pmid_key c = Some k -> is_Some (pmid_index st !! k))
  /\ In (normalize_title (title c)) (List.map fst (title_index st)).

(** Every character of the string satisfies [f]. *)
Fixpoint str_forall (f : ascii -> bool) (s : string) : bool :=
  match s with
  | EmptyString => true
  | String c rest => f c && str_forall f rest
  end.

(** The only whitespace of the string is single blanks; with [in_run] it
    does not start with one either. *)
Fixpoint collapsed (in_run : bool) (s : string) : bool :=
  match s with
  | EmptyString => true
  | String c rest =>
      if is_space c then Ascii.eqb c " " && negb in_run && collapsed true rest
      else collapsed false rest
  end.

(** The string does not begin with whitespace. *)
Definition starts_clean (s : string) : bool :=
  match s with
  | EmptyString => true
  | String c _ => negb (is_space c)
  end.

(** The total size of a list of matching blocks, and the positions of
    [a] and of [b] that the queued ranges still cover. *)
Definition block_total (blocks : list (nat * nat * nat)) : nat :=
  fold_right Nat.add 0%nat (List.map snd blocks).

Definition span_a (queue : list (nat * nat * nat * nat)) : nat :=
  fold_right Nat.add 0%nat
    (List.map (fun e => let '(alo, ahi, _, _) := e in (ahi - alo)%nat) queue).

Definition span_b (queue : list (nat * nat * nat * nat)) : nat :=
  fold_right Nat.add 0%nat
    (List.map (fun e => let '(_, _, blo, bhi) := e in (bhi - blo)%nat) queue).

(** An evidence span row after its audit: the audit columns take the
    verdict of [audit_span]; a row whose audit raised is left alone. *)
Definition audited_row
  (semantic_verify : EvidenceSpan -> string -> outcome auditor.AuditVerdict)
  (paper_text now : string) (r : EvidenceSpanRow) : EvidenceSpanRow :=
  match auditor.audit_span semantic_verify r paper_text with
  | Return v =>
      set_audit (auditor.status_text (auditor.status v)) auditor.MODEL
        (auditor.reasoning v) now r
  | Raise _ => r
  end.

(** The span belongs to extraction [ext_id] and is not audited yet. *)
Definition is_pending_of (ext_id : Z) (r : EvidenceSpanRow) : bool :=
  Z.eqb (es_extraction_id r) ext_id && String.eqb (es_audit_status r) "pending".

Definition example_verifier (span : EvidenceSpan) (paper_text : string)
  : outcome auditor.AuditVerdict :=
  Return (auditor.mkAuditVerdict auditor.verified true "supported").

Definition example_parsed_text (pid : Z) : option (outcome string) :=
  Some (Return "Methods. This was an RCT of forty patients.").

(** The character is not an opening angle bracket. *)
Definition no_lt (c : ascii) : bool := negb (Ascii.eqb c "<").

(** The pending rows that [extract_paper] writes for the fields of an
    extraction, under consecutive row ids from [start]. *)
Fixpoint span_rows (ext_id start : Z) (spans : list EvidenceSpan)
  : list EvidenceSpanRow :=
  match spans with
  | [] => []
  | span :: rest =>
      mkEvidenceSpanRow start ext_id (field_name span) (value span)
        (source_snippet span) (confidence span) "pending" None None None
      :: span_rows ext_id (start + 1) rest
  end.

Definition example_prompt (paper_text : string) (spec : review_spec.ReviewSpec)
  : string := paper_text.

Definition example_pass1 (prompt : string) : outcome string :=
  Return "The paper reports a randomized trial.".

Definition example_fields : list EvidenceSpan :=
  [mkEvidenceSpan "study_design" "RCT" "This was an RCT" (19 # 20) 1;
   mkEvidenceSpan "sample_size" "NOT_FOUND" "" 0 1].

Definition example_pass2 (prompt trace : string) (spec : review_spec.ReviewSpec)
  (paper_id : Z) : outcome (list EvidenceSpan) :=
  Return example_fields.

(** A scanned PDF for the examples, and the page text a vision model
    reads from it. *)
Definition example_scanned (pdf_path : string) : outcome bool := Return true.
Definition example_ocr (pdf_path : string) : outcome string :=
  Return "# Extracted Text".
Definition example_find_pdf (paper_id : Z) : option string := Some "pdfs/1.pdf".



(** The ids are in ascending order. *)
Fixpoint ascending_ids (ids : list Z) : Prop :=
  match ids with
  | [] => True
  | x :: rest => Forall (Z.le x) rest /\ ascending_ids rest
  end.

(** The seven base cells of the evidence-table row of a paper. *)
Definition base_cells (paper : Paper) : list cell :=
  [ CInt (p_id paper); opt_text (p_pmid paper); opt_text (p_doi paper);
    CText (p_title paper);
    CText (json_dumps (JList (List.map JStr (p_authors paper))));
    opt_int (p_year paper); opt_text (p_journal paper) ].

(** ** Reading canonical JSON back

    A reader for the JSON text that [json_dumps] writes for strings and
    lists of strings; it is the inverse that shows the writer loses
    nothing. *)

Definition hex_value (c : ascii) : N :=
  let n := N_of_ascii c in
  if (N.leb 48 n && N.leb n 57)%bool then n - 48 else n - 87.

(** Reads the characters of a string literal after its opening quote, up
    to and including the closing quote. *)
Fixpoint read_chars (s : string) : option (string * string) :=
  match s with
  | EmptyString => None
  | String c rest =>
      if N.eqb (N_of_ascii c) 34 then Some (EmptyString, rest)
      else if N.eqb (N_of_ascii c) 92 then
        match rest with
        | String e rest1 =>
            if N.eqb (N_of_ascii e) 117 then
              match rest1 with
              | String _ (String _ (String h1 (String h2 rest2))) =>
                  match read_chars rest2 with
                  | Some (text, after) =>
                      Some (String (ascii_of_N (16 * hex_value h1 + hex_value h2))
                              text, after)
                  | None => None
                  end
              | _ => None
              end
            else
              let n := N_of_ascii e in
              let d := if N.eqb n 110 then 10%N
                       else if N.eqb n 114 then 13%N
                       else if N.eqb n 116 then 9%N
                       else if N.eqb n 98 then 8%N
                       else if N.eqb n 102 then 12%N
                       else n in
              match read_chars rest1 with
              | Some (text, after) => Some (String (ascii_of_N d) text, after)
              | None => None
              end
        | EmptyString => None
        end
      else
        match read_chars rest with
        | Some (text, after) => Some (String c text, after)
        | None => None
        end
  end.

(** Reads a string literal. *)
Definition read_str (s : string) : option (string * string) :=
  match s with
  | String c rest => if N.eqb (N_of_ascii c) 34 then read_chars rest else None
  | EmptyString => None
  end.

(** Reads the items of a list of string literals after the opening
    bracket; [fuel] bounds the number of items. *)
Fixpoint read_items (fuel : nat) (s : string) : option (list string * string) :=
  match fuel with
  | O => None
  | S fuel' =>
      match read_str s with
      | Some (item, String c1 rest) =>
          if N.eqb (N_of_ascii c1) 93 then Some ([item], rest)
          else
            match rest with
            | String _ rest' =>
                match read_items fuel' rest' with
                | Some (items, after) => Some (item :: items, after)
                | None => None
                end
            | EmptyString => None
            end
      | _ => None
      end
  end.

Definition read_str_list (s : string) : option (list string * string) :=
  match s with
  | String _ (String c rest) =>
      if N.eqb (N_of_ascii c) 93 then Some ([], rest)
      else read_items (String.length s) (String c rest)
  | _ => None
  end.

(** Reads the canonical JSON of screening criteria. *)
Definition read_screening_criteria (blob : string)
  : option review_spec.ScreeningCriteria :=
  match read_str_list (drop_chars 14 blob) with
  | Some (excl, rest) =>
      match read_str_list (drop_chars 15 rest) with
      | Some (incl, _) => Some (review_spec.mkScreeningCriteria incl excl)
      | None => None
      end
  | None => None
  end.

(** ** The search clients *)

(** The batches of PMIDs that were requested, in order, and the number
    of pauses between requests. *)
Definition fetched_ids (log : list NetEvent) : list (list string) :=
  flat_map (fun e => match e with Efetch ids => [ids] | Sleep _ => [] end) log.

Definition sleeps (log : list NetEvent) : nat :=
  List.length
    (List.filter (fun e => match e with Sleep _ => true | Efetch _ => false end)
       log).

(** The pages that the paginator holds before it stops. *)
Fixpoint pages_until_stop (paginator : list Response) : list (list Work) :=
  match paginator with
  | [] => []
  | StopIteration :: _ => []
  | GotPage page :: rest => page :: pages_until_stop rest
  | Failure _ :: rest => pages_until_stop rest
  end.

(** Before it stops, the paginator never fails three times in a row;
    [run] failures have just been seen. *)
Fixpoint tolerable (run : nat) (paginator : list Response) : bool :=
  match paginator with
  | [] => true
  | StopIteration :: _ => true
  | GotPage _ :: rest => tolerable 0 rest
  | Failure _ :: rest => Nat.ltb run 2 && tolerable (S run) rest
  end.

Definition example_int (s : string) : option Z :=
  if String.eqb s "2023" then Some 2023 else None.

Definition example_invert_abstract (index : list (string * list nat)) : string :=
  join " " (List.map fst index).

Definition example_record : MedlineRecord :=
  mkMedlineRecord (Some "Autonomous suturing") (Some "2023 Jan")
    ["S0001(23)0001-1 [pii]"; "10.1000/J.Sur.7 [doi]"] (Some "123") None
    ["Doe J"] (Some "Surgery") [].

Definition example_work : Work :=
  mkWork (Some "Autonomous suturing: a trial")
    (Some "https://pubmed.ncbi.nlm.nih.gov/123")
    (Some "https://doi.org/10.1000/j.sur.7")
    [Some "Jane Doe"; None] (Some "Surgery") None (Some 2023) [].

(** Search clients for the examples: PubMed and OpenAlex each return one
    record, and an OpenAlex client whose third request in a row failed. *)
Definition example_search_pubmed (spec : review_spec.ReviewSpec)
  : outcome (list Citation) := Return [example_primary].

Definition example_search_openalex (spec : review_spec.ReviewSpec)
  : outcome (list Citation) := Return [example_secondary].

Definition example_openalex_down (spec : review_spec.ReviewSpec)
  : outcome (list Citation) := Raise (CollaboratorError "HTTP 503").

(* ================================================================== *)
(** * Properties *)

(** ** The status graph and [update_status] *)

Lemma str_in_true s l : str_in s l = true <-> In s l.
Proof.
  unfold str_in. rewrite existsb_exists. split.
  - intros (x & Hx & He). apply String.eqb_eq in He. now subst.
  - intros H. exists s. split; [assumption | apply String.eqb_refl].
Qed.

Lemma str_in_false s l : str_in s l = false <-> ~ In s l.
Proof.
  rewrite <- str_in_true. destruct (str_in s l); split; congruence.
Qed.

Ltac case_eqb :=
  match goal with
  | |- context [String.eqb ?a ?b] =>
      let E := fresh "E" in
      destruct (String.eqb a b) eqn:E;
      [apply String.eqb_eq in E; subst | apply String.eqb_neq in E]
  end.

Lemma allowed_iff_edge current new_status :
  str_in new_status (default [] (ALLOWED_TRANSITIONS current)) = true
  <-> transition_edge current new_status.
Proof.
  split.
  - unfold ALLOWED_TRANSITIONS.
    repeat (case_eqb; [
      cbn [default]; rewrite str_in_true; cbn [In];
      intros H; repeat (destruct H as [<- | H]; [constructor |]); contradiction
      | ]).
    cbn. discriminate.
  - intros H. destruct H; reflexivity.
Qed.

Lemma no_edge_from_terminal current new_status :
  current = "SCREENED_OUT" \/ current = "AUDITED" ->
  ~ transition_edge current new_status.
Proof. intros [-> | ->] H; inversion H. Qed.

Lemma select_paper_Some pid ps row :
  select_paper pid ps = Some row -> In row ps /\ p_id row = pid.
Proof.
  unfold select_paper. intros H. apply find_some in H as [Hin Hid].
  apply Z.eqb_eq in Hid. auto.
Qed.

Lemma select_paper_None pid ps :
  select_paper pid ps = None <-> (forall row, In row ps -> p_id row <> pid).
Proof.
  unfold select_paper. split.
  - intros H row Hin. apply (find_none _ _ H) in Hin. now apply Z.eqb_neq.
  - intros H. induction ps as [| r ps IH]; [reflexivity |]. cbn.
    destruct (Z.eqb_spec (p_id r) pid) as [E | E].
    + exfalso. apply (H r); [now left | assumption].
    + apply IH. intros row Hin. apply H. now right.
Qed.

(** What a call of [update_status] does, by cases on its three checks. *)
Lemma update_status_cases paper_id new_status now db :
  (str_in new_status STATUSES = false /\
   update_status paper_id new_status now db
   = (db, Raise (ValueError_invalid_status new_status)))
  \/ (str_in new_status STATUSES = true /\
      select_paper paper_id (papers db) = None /\
      update_status paper_id new_status now db
      = (db, Raise (ValueError_paper_not_found paper_id)))
  \/ (exists row,
       str_in new_status STATUSES = true /\
       select_paper paper_id (papers db) = Some row /\
       ~ transition_edge (p_status row) new_status /\
       update_status paper_id new_status now db
       = (db, Raise (ValueError_invalid_transition (p_status row) new_status)))
  \/ (exists row,
       str_in new_status STATUSES = true /\
       select_paper paper_id (papers db) = Some row /\
       transition_edge (p_status row) new_status /\
       update_status paper_id new_status now db
       = (with_papers db
            (sql_update_status paper_id new_status now (papers db)),
          Return tt)).
Proof.
  unfold update_status.
  destruct (str_in new_status STATUSES) eqn:Hs; cbn [negb]; [| now left].
  right.
  destruct (select_paper paper_id (papers db)) as [row |] eqn:Hrow;
    [| left; auto].
  right.
  destruct (str_in new_status (default [] (ALLOWED_TRANSITIONS (p_status row))))
    eqn:Ha; cbn [negb].
  - right. exists row. rewrite allowed_iff_edge in Ha. auto.
  - left. exists row. repeat split; try reflexivity.
    intros He. apply allowed_iff_edge in He. congruence.
Qed.

Lemma sql_update_status_lookup pid s now ps i row :
  ps !! i = Some row ->
  sql_update_status pid s now ps !! i
  = Some (if Z.eqb (p_id row) pid then set_status s now row else row).
Proof.
  intros H. unfold sql_update_status.
  change (List.map ?f ps) with (f <$> ps).
  now rewrite list_lookup_fmap, H.
Qed.

(** C1. [update_status] raises on a status outside the eight recognized
    ones, on an unknown paper id, and on a status that is no successor of
    the paper's current status in the status graph (so always on a paper
    in SCREENED_OUT or AUDITED); whenever it raises the store is the one
    it was called on; when it returns, the other tables are untouched,
    the papers table keeps its rows in place, every row with another id
    is unchanged, and the row with the given id has the new status, the
    new updated_at and all its other fields unchanged. *)
Theorem update_status_contract (db : ReviewDatabase) (paper_id : Z)
  (new_status now : string) :
  let res := update_status paper_id new_status now db in
  (~ In new_status STATUSES ->
   res = (db, Raise (ValueError_invalid_status new_status)))
  /\ ((forall row, In row (papers db) -> p_id row <> paper_id) ->
      is_raise (snd res) = true)
  /\ (forall row, select_paper paper_id (papers db) = Some row ->
      ~ transition_edge (p_status row) new_status ->
      is_raise (snd res) = true)
  /\ (forall row, select_paper paper_id (papers db) = Some row ->
      p_status row = "SCREENED_OUT" \/ p_status row = "AUDITED" ->
      is_raise (snd res) = true)
  /\ (is_raise (snd res) = true -> fst res = db)
  /\ (is_raise (snd res) = false ->
      In new_status STATUSES
      /\ (exists row, select_paper paper_id (papers db) = Some row
                      /\ transition_edge (p_status row) new_status)
      /\ screening_decisions (fst res) = screening_decisions db
      /\ full_text_assets (fst res) = full_text_assets db
      /\ extractions (fst res) = extractions db
      /\ evidence_spans (fst res) = evidence_spans db
      /\ List.length (papers (fst res)) = List.length (papers db)
      /\ forall i row, papers db !! i = Some row ->
           exists row', papers (fst res) !! i = Some row'
             /\ (p_id row <> paper_id -> row' = row)
             /\ (p_id row = paper_id ->
                 same_but_status row row' /\ p_status row' = new_status
                 /\ p_updated_at row' = now)).
Proof.
  intros res. subst res.
  destruct (update_status_cases paper_id new_status now db)
    as [(Hs & ->) | [(Hs & Hn & ->) | [(row & Hs & Hr & He & ->)
                                      | (row & Hs & Hr & He & ->)]]];
    cbn [fst snd is_raise].
  - apply str_in_false in Hs. repeat split; try tauto; try reflexivity; discriminate.
  - apply str_in_true in Hs. repeat split; try tauto; try reflexivity; discriminate.
  - apply str_in_true in Hs. repeat split; try tauto; try reflexivity; discriminate.
  - apply str_in_true in Hs.
    split; [tauto |].
    split. { intros Hno. apply select_paper_Some in Hr as [Hin Hid].
             exfalso. exact (Hno row Hin Hid). }
    split. { intros row' Hr' Hne. congruence. }
    split. { intros row' Hr' Ht. assert (row' = row) by congruence. subst.
             exfalso. exact (no_edge_from_terminal _ _ Ht He). }
    split; [discriminate |].
    intros _. split; [assumption |].
    split; [now exists row |].
    cbn. repeat split; try reflexivity.
    + unfold sql_update_status. apply length_map.
    + intros i r Hi. rewrite (sql_update_status_lookup _ _ _ _ _ _ Hi).
      eexists. split; [reflexivity |].
      destruct (Z.eqb_spec (p_id r) paper_id) as [E | E].
      * split; [congruence |]. intros _. unfold same_but_status. cbn. tauto.
      * split; [reflexivity | congruence].
Qed.

(** C1 at a concrete store: an illegal jump INGESTED to EXTRACTED is
    refused and leaves the store as it was. *)
Lemma update_status_contract_witness :
  is_raise (snd (update_status 1 "EXTRACTED" "t1" example_db)) = true
  /\ fst (update_status 1 "EXTRACTED" "t1" example_db) = example_db.
Proof.
  destruct (update_status_contract example_db 1 "EXTRACTED" "t1")
    as (_ & _ & H3 & _ & H5 & _).
  assert (Hr : is_raise (snd (update_status 1 "EXTRACTED" "t1" example_db)) = true).
  { apply (H3 (example_paper 1 (Some "111") "INGESTED")); [reflexivity |].
    intros He. inversion He. }
  split; [exact Hr | exact (H5 Hr)].
Defined.

(** ** [update_audit] on a span id that is not in the table *)

Lemma map_id_on {A} (f : A -> A) (l : list A) :
  (forall x, In x l -> f x = x) -> List.map f l = l.
Proof.
  induction l as [| x l IH]; intros H; cbn; [reflexivity |].
  rewrite H by now left. f_equal. apply IH. intros y Hy. apply H. now right.
Qed.

Lemma db_eta db :
  mkDb (papers db) (screening_decisions db) (full_text_assets db)
       (extractions db) (evidence_spans db) = db.
Proof. now destruct db. Qed.

(** C10. For a span id that no row of [evidence_spans] carries,
    [update_audit] returns without an exception and the store after the
    call is the store before it, whatever status, model and rationale are
    passed; [update_status] with a recognized status on a paper id that no
    row of [papers] carries raises instead. *)
Theorem update_audit_unknown_span (db : ReviewDatabase) (span_id : Z)
  (status model rationale now : string) :
  (forall r, In r (evidence_spans db) -> es_id r <> span_id) ->
  update_audit span_id status model rationale now db = (db, Return tt)
  /\ forall paper_id new_status,
       In new_status STATUSES ->
       (forall r, In r (papers db) -> p_id r <> paper_id) ->
       update_status paper_id new_status now db
       = (db, Raise (ValueError_paper_not_found paper_id)).
Proof.
  intros Hno. split.
  - unfold update_audit.
    assert (Hex : existsb (fun r => Z.eqb (es_id r) span_id) (evidence_spans db)
                  = false).
    { apply not_true_is_false. intros H. apply existsb_exists in H as (r & Hin & He).
      apply Z.eqb_eq in He. exact (Hno r Hin He). }
    rewrite Hex. cbn [andb]. f_equal.
    rewrite map_id_on.
    + unfold with_evidence_spans. apply db_eta.
    + intros r Hin. destruct (Z.eqb_spec (es_id r) span_id) as [E | E];
        [exfalso; exact (Hno r Hin E) | reflexivity].
  - intros paper_id new_status Hs Hp. unfold update_status.
    apply str_in_true in Hs. rewrite Hs. cbn [negb].
    apply select_paper_None in Hp. now rewrite Hp.
Qed.

Lemma update_audit_unknown_span_witness :
  update_audit 7 "flagged" "qwen3:32b" "no support" "t1" example_audit_db
  = (example_audit_db, Return tt).
Proof.
  apply (update_audit_unknown_span example_audit_db 7 "flagged" "qwen3:32b"
           "no support" "t1").
  intros r [<- | []]. cbn. lia.
Defined.

(** ** Ingestion: [add_papers] *)

Lemma max_id_ge ids : 0 <= max_id ids /\ Forall (fun x => x <= max_id ids) ids.
Proof.
  unfold max_id.
  induction ids as [| x ids [IH0 IH]]; cbn [fold_right];
    [split; [lia | constructor] |].
  split; [lia |]. constructor; [lia |].
  rewrite Forall_forall in IH |- *. intros y Hy. specialize (IH y Hy). lia.
Qed.

Lemma max_id_snoc ids x : max_id (ids ++ [x]) = Z.max (max_id ids) x.
Proof.
  unfold max_id.
  induction ids as [| y ids IH]; cbn [fold_right app]; [lia |].
  rewrite IH. lia.
Qed.

Lemma next_rowid_snoc ids :
  next_rowid (ids ++ [next_rowid ids]) = next_rowid ids + 1.
Proof.
  unfold next_rowid. rewrite max_id_snoc.
  pose proof (max_id_ge ids) as [H _]. lia.
Qed.

Lemma stored_pmids_snoc ps r :
  stored_pmids (ps ++ [r])
  = (stored_pmids ps ++ match p_pmid r with Some s => [s] | None => [] end)%list.
Proof.
  unfold stored_pmids. rewrite omap_app. cbn. now destruct (p_pmid r).
Qed.

Lemma pmid_stored_iff s ps :
  existsb (fun r => opt_str_eqb (p_pmid r) (Some s)) ps
  = str_in s (stored_pmids ps).
Proof.
  induction ps as [| r ps IH]; [reflexivity |].
  unfold stored_pmids in *. cbn [existsb omap list_omap].
  destruct (p_pmid r) as [x |]; cbn [opt_str_eqb orb str_in existsb].
  - rewrite IH. unfold str_in. now rewrite (String.eqb_sym x s).
  - exact IH.
Qed.

Lemma select_by_pmid_stored s ps :
  match select_paper_by_pmid s ps with Some _ => true | None => false end
  = str_in s (stored_pmids ps).
Proof.
  rewrite <- pmid_stored_iff. unfold select_paper_by_pmid.
  induction ps as [| r ps IH]; [reflexivity |]. cbn.
  destruct (opt_str_eqb (p_pmid r) (Some s)); [reflexivity | exact IH].
Qed.

Lemma existsb_no_pmid cit ps :
  pmid cit = None ->
  existsb (fun r => opt_str_eqb (p_pmid r) (pmid cit)) ps = false.
Proof.
  intros ->. induction ps as [| r ps IH]; [reflexivity |]. cbn.
  rewrite IH. now destruct (p_pmid r).
Qed.

(** One iteration of the loop: a citation whose PMID is stored leaves
    store and count alone; any other citation becomes the next row. *)
Lemma add_papers_step_spec now cit added db :
  add_papers_step now cit added db
  = match pmid cit with
    | Some s =>
        if str_in s (stored_pmids (papers db)) then (db, Return added)
        else (with_papers db
                (papers db ++
                   [paper_of (next_rowid (List.map p_id (papers db))) cit now]),
              Return (added + 1))
    | None =>
        (with_papers db
           (papers db ++
              [paper_of (next_rowid (List.map p_id (papers db))) cit now]),
         Return (added + 1))
    end.
Proof.
  unfold add_papers_step, pmid_already_stored, try_except, bind, insert_paper,
    ret, paper_of.
  destruct (pmid cit) as [s |] eqn:Hp.
  - pose proof (select_by_pmid_stored s (papers db)) as Hsel.
    pose proof (pmid_stored_iff s (papers db)) as Hex.
    destruct (String.eqb s "") eqn:He.
    + rewrite Hex. destruct (str_in s (stored_pmids (papers db))); reflexivity.
    + destruct (select_paper_by_pmid s (papers db)); rewrite <- Hsel.
      * reflexivity.
      * rewrite Hex, <- Hsel. reflexivity.
  - pose proof (existsb_no_pmid cit (papers db) Hp) as Hex.
    rewrite Hp in Hex. rewrite Hex. reflexivity.
Qed.

Lemma with_papers_twice db ps ps' :
  with_papers (with_papers db ps) ps' = with_papers db ps'.
Proof. reflexivity. Qed.

Lemma with_papers_same db : with_papers db (papers db) = db.
Proof. unfold with_papers. apply db_eta. Qed.

Lemma add_papers_loop_spec now cits : forall added db,
  add_papers_loop now cits added db
  = (with_papers db
       (papers db ++
          rows_from (next_rowid (List.map p_id (papers db))) now
            (ingested (stored_pmids (papers db)) cits)),
     Return (added + Z.of_nat (List.length
                                 (ingested (stored_pmids (papers db)) cits)))).
Proof.
  induction cits as [| cit rest IH]; intros added db.
  - cbn. unfold ret. rewrite app_nil_r, with_papers_same. do 2 f_equal. lia.
  - cbn [add_papers_loop]. unfold bind. rewrite add_papers_step_spec.
    assert (Hins : forall s',
      (match pmid cit with Some s => [s] | None => [] end) = s' ->
      add_papers_loop now rest (added + 1)
        (with_papers db
           (papers db ++
              [paper_of (next_rowid (List.map p_id (papers db))) cit now]))
      = (with_papers db
           (papers db ++
              paper_of (next_rowid (List.map p_id (papers db))) cit now
              :: rows_from (next_rowid (List.map p_id (papers db)) + 1) now
                   (ingested (stored_pmids (papers db) ++ s') rest)),
         Return (added + Z.of_nat
                   (S (List.length
                         (ingested (stored_pmids (papers db) ++ s') rest)))))).
    { intros s' Hs'. rewrite IH. cbn [papers with_papers].
      rewrite stored_pmids_snoc. cbn [p_pmid paper_of]. rewrite Hs'.
      rewrite map_app. cbn [List.map p_id paper_of].
      rewrite next_rowid_snoc, <- app_assoc. cbn [app].
      rewrite with_papers_twice. do 2 f_equal. lia. }
    cbn [ingested]. destruct (pmid cit) as [s |] eqn:Hp.
    + destruct (str_in s (stored_pmids (papers db))) eqn:Hin.
      * apply IH.
      * rewrite (Hins [s] eq_refl). reflexivity.
    + rewrite (Hins [] eq_refl), app_nil_r. reflexivity.
Qed.

Lemma rows_from_ingested start now cits :
  Forall (fun r => p_status r = "INGESTED") (rows_from start now cits).
Proof.
  revert start. induction cits as [| c cits IH]; intros start; cbn;
    constructor; [reflexivity | apply IH].
Qed.

Lemma rows_from_length start now cits :
  List.length (rows_from start now cits) = List.length cits.
Proof.
  revert start. induction cits as [| c cits IH]; intros start; cbn;
    [reflexivity | now rewrite IH].
Qed.

Lemma ingested_no_pmid cits : forall seen,
  List.filter has_no_pmid (ingested seen cits) = List.filter has_no_pmid cits.
Proof.
  induction cits as [| c cits IH]; intros seen; [reflexivity |].
  cbn [ingested]. unfold has_no_pmid at 2. cbn [List.filter].
  destruct (pmid c) as [s |] eqn:Hp.
  - destruct (str_in s seen).
    + apply IH.
    + cbn [List.filter]. unfold has_no_pmid at 1. rewrite Hp. apply IH.
  - cbn [List.filter]. unfold has_no_pmid at 1. rewrite Hp. f_equal. apply IH.
Qed.

Lemma ingested_skips_stored cits : forall seen cit s,
  pmid cit = Some s -> In s seen -> ~ In cit (ingested seen cits).
Proof.
  induction cits as [| c cits IH]; intros seen cit s Hp Hs; [cbn; tauto |].
  cbn [ingested]. destruct (pmid c) as [s' |] eqn:Hc.
  - destruct (str_in s' seen) eqn:Hin.
    + now apply (IH seen cit s).
    + intros [-> | H].
      * assert (s' = s) by congruence. subst.
        apply str_in_false in Hin. contradiction.
      * revert H. apply (IH _ cit s Hp). apply in_or_app. now left.
  - intros [-> | H]; [congruence |]. revert H. now apply (IH seen cit s).
Qed.

Lemma ingested_fresh cits : forall seen,
  NoDup (omap pmid cits) ->
  (forall s, In s (omap pmid cits) -> ~ In s seen) ->
  ingested seen cits = cits.
Proof.
  induction cits as [| c cits IH]; intros seen Hnd Hfresh; [reflexivity |].
  cbn [ingested]. cbn in Hnd, Hfresh. destruct (pmid c) as [s |] eqn:Hc.
  - apply NoDup_cons in Hnd as [Hs Hnd].
    assert (Hin : str_in s seen = false).
    { apply str_in_false. apply Hfresh. now left. }
    rewrite Hin. f_equal. apply IH; [assumption |].
    intros x Hx Hx'. apply in_app_or in Hx' as [Hx' | [<- | []]].
    + apply (Hfresh x); [now right | assumption].
    + apply Hs. now apply list_elem_of_In.
  - f_equal. now apply IH.
Qed.

(** C2. [add_papers] appends one INGESTED row per kept citation, in
    order and with the citation's fields, leaves all earlier rows and the
    other tables as they were, and returns the number of rows appended.
    A citation is kept unless its PMID is already stored: then it is
    skipped without an exception (alone in a batch, the store is unchanged
    and 0 is returned). Citations without a PMID are all kept, and so is a
    whole batch of pairwise distinct PMIDs none of which is stored. *)
Theorem add_papers_contract (db : ReviewDatabase) (citations : list Citation)
  (now : string) :
  let kept := ingested (stored_pmids (papers db)) citations in
  let rows := rows_from (next_rowid (List.map p_id (papers db))) now kept in
  add_papers citations now db
  = (with_papers db (papers db ++ rows), Return (Z.of_nat (List.length rows)))
  /\ Forall (fun r => p_status r = "INGESTED") rows
  /\ List.length rows = List.length kept
  /\ List.filter has_no_pmid kept = List.filter has_no_pmid citations
  /\ (forall cit s, pmid cit = Some s -> In s (stored_pmids (papers db)) ->
      ~ In cit kept /\ add_papers [cit] now db = (db, Return 0))
  /\ (forall cit, pmid cit = None ->
      add_papers [cit] now db
      = (with_papers db
           (papers db ++
              [paper_of (next_rowid (List.map p_id (papers db))) cit now]),
         Return 1))
  /\ (NoDup (omap pmid citations) ->
      (forall s, In s (omap pmid citations) ->
                 ~ In s (stored_pmids (papers db))) ->
      kept = citations).
Proof.
  intros kept rows. subst kept rows.
  split.
  { unfold add_papers. rewrite add_papers_loop_spec, rows_from_length.
    reflexivity. }
  split; [apply rows_from_ingested |].
  split; [apply rows_from_length |].
  split; [apply ingested_no_pmid |].
  split.
  { intros cit s Hp Hs. split; [now apply (ingested_skips_stored _ _ cit s) |].
    unfold add_papers. rewrite add_papers_loop_spec. cbn [ingested].
    rewrite Hp. apply str_in_true in Hs. rewrite Hs. cbn.
    now rewrite app_nil_r, with_papers_same. }
  split.
  { intros cit Hp. unfold add_papers. rewrite add_papers_loop_spec.
    cbn [ingested]. rewrite Hp. reflexivity. }
  apply ingested_fresh.
Qed.

(** C2 at a concrete store: re-ingesting PMID 111 is a no-op that reports
    zero added. *)
Lemma add_papers_contract_witness :
  add_papers [example_citation "Study A again" (Some "111")] "t1" example_db
  = (example_db, Return 0).
Proof.
  destruct (add_papers_contract example_db [] "t1") as (_ & _ & _ & _ & H & _).
  apply (H (example_citation "Study A again" (Some "111")) "111").
  - reflexivity.
  - cbn. now left.
Defined.

(** ** Staleness: [get_stale_extractions] and the skip of [run_extraction] *)

Lemma sql_max_spec l m :
  sql_max l = Some m -> In m l /\ forall x, In x l -> x <= m.
Proof.
  destruct l as [| x l]; [discriminate |]. cbn [sql_max]. intros [= <-].
  induction l as [| y l [IHin IHle]]; cbn [fold_right].
  - split; [now left |]. intros z [E | []]. lia.
  - split.
    + destruct (Z.max_spec y (fold_right Z.max x l)) as [[_ ->] | [_ ->]].
      * destruct IHin as [E | Hin]; [left; exact E | right; right; exact Hin].
      * right. now left.
    + intros z [E | [E | Hz]].
      * specialize (IHle z (or_introl E)). lia.
      * lia.
      * specialize (IHle z (or_intror Hz)). lia.
Qed.

Lemma sql_max_None l : sql_max l = None -> l = [].
Proof. destruct l; [reflexivity | discriminate]. Qed.

Lemma in_extraction_ids pid es x :
  In x (List.map e_id (List.filter (fun e2 => Z.eqb (e_paper_id e2) pid) es))
  <-> exists e2, In e2 es /\ e_paper_id e2 = pid /\ e_id e2 = x.
Proof.
  rewrite in_map_iff. split.
  - intros (e2 & <- & Hin). apply filter_In in Hin as [Hin He].
    apply Z.eqb_eq in He. eauto.
  - intros (e2 & Hin & Hp & <-). exists e2. split; [reflexivity |].
    apply filter_In. split; [assumption | now apply Z.eqb_eq].
Qed.

(** The id that the sub-select of the query returns is the id of a latest
    extraction, and conversely. *)
Lemma max_extraction_id_latest db p e :
  In e (extractions db) -> e_paper_id e = p_id p ->
  (max_extraction_id (p_id p) (extractions db) = Some (e_id e)
   <-> latest_extraction db p e).
Proof.
  intros Hin Hp. unfold max_extraction_id, latest_extraction. split.
  - intros H. apply sql_max_spec in H as [_ Hle].
    repeat split; try assumption. intros e2 Hin2 Hp2. apply Hle.
    apply in_extraction_ids. eauto.
  - intros (_ & _ & Hlatest).
    destruct (sql_max _) as [m |] eqn:Hm.
    + apply sql_max_spec in Hm as [Hmin Hle].
      apply in_extraction_ids in Hmin as (e2 & Hin2 & Hp2 & <-).
      f_equal. apply Z.le_antisymm; [now apply Hlatest |].
      apply Hle. apply in_extraction_ids. eauto.
    + apply sql_max_None in Hm.
      assert (Hx : In (e_id e)
                (List.map e_id
                   (List.filter (fun e2 => Z.eqb (e_paper_id e2) (p_id p))
                      (extractions db)))).
      { apply in_extraction_ids. eauto. }
      rewrite Hm in Hx. destruct Hx.
Qed.

Lemma get_stale_extractions_In current_hash db p eh :
  In (p, eh) (get_stale_extractions current_hash db)
  <-> In p (papers db)
      /\ exists e, latest_extraction db p e
                   /\ e_extraction_schema_hash e = eh /\ eh <> current_hash.
Proof.
  unfold get_stale_extractions. rewrite in_flat_map. split.
  - intros (p0 & Hp0 & H). apply in_map_iff in H as (e & [= <- <-] & He).
    apply filter_In in He as [Hin Hc].
    apply andb_true_iff in Hc as [Hc Hmax].
    apply andb_true_iff in Hc as [Hpid Hne].
    apply Z.eqb_eq in Hpid. apply negb_true_iff, String.eqb_neq in Hne.
    split; [assumption |]. exists e. repeat split; try assumption.
    + destruct (max_extraction_id _ _) as [m |] eqn:Hm; [| discriminate].
      apply Z.eqb_eq in Hmax. subst m.
      now apply (max_extraction_id_latest db p0 e Hin Hpid).
  - intros (Hp & e & Hl & <- & Hne). exists p. split; [assumption |].
    apply in_map_iff. exists e. split; [reflexivity |].
    pose proof Hl as (Hin & Hpid & _).
    apply filter_In. split; [assumption |].
    apply (max_extraction_id_latest db p e Hin Hpid) in Hl. rewrite Hl.
    rewrite Z.eqb_refl, andb_true_r.
    apply andb_true_iff. split; [now apply Z.eqb_eq |].
    now apply negb_true_iff, String.eqb_neq.
Qed.

Lemma paper_exists_true pid db :
  paper_exists pid db = true <-> exists p, In p (papers db) /\ p_id p = pid.
Proof.
  unfold paper_exists. rewrite existsb_exists.
  split; intros (p & Hin & H); exists p; split; try assumption;
    now apply Z.eqb_eq.
Qed.

(** After [add_extraction] the new row is the latest one of its paper. *)
Lemma add_extraction_latest pid h data trace model now db p :
  In p (papers db) -> p_id p = pid ->
  exists e db',
    add_extraction pid h data trace model now db = (db', Return (e_id e))
    /\ papers db' = papers db
    /\ extractions db' = (extractions db ++ [e])%list
    /\ e_extraction_schema_hash e = h
    /\ e_paper_id e = pid
    /\ (forall e2, In e2 (extractions db) -> e_id e2 < e_id e).
Proof.
  intros Hin Hp. unfold add_extraction.
  assert (He : paper_exists pid db = true) by (apply paper_exists_true; eauto).
  rewrite He.
  exists (mkExtraction (next_rowid (List.map e_id (extractions db))) pid h
            data trace model now).
  eexists.
  split; [reflexivity |].
  cbn [papers extractions with_extractions e_extraction_schema_hash
       e_paper_id e_id].
  repeat split; try reflexivity.
  intros e2 Hin2. unfold next_rowid.
  pose proof (max_id_ge (List.map e_id (extractions db))) as [_ Hall].
  rewrite Forall_forall in Hall.
  assert (e_id e2 <= max_id (List.map e_id (extractions db))).
  { apply Hall. apply list_elem_of_In, in_map_iff. eauto. }
  lia.
Qed.

Lemma latest_after_append db db' p e :
  papers db' = papers db ->
  extractions db' = (extractions db ++ [e])%list ->
  e_paper_id e = p_id p ->
  (forall e2, In e2 (extractions db) -> e_id e2 < e_id e) ->
  forall e1, latest_extraction db' p e1 <-> e1 = e.
Proof.
  intros Hps Hes Hpid Hnew e1. unfold latest_extraction. rewrite Hes. split.
  - intros (Hin & Hp & Hle). apply in_app_or in Hin as [Hin | [<- | []]];
      [| reflexivity].
    exfalso. specialize (Hnew e1 Hin).
    assert (e_id e <= e_id e1).
    { apply Hle; [apply in_or_app; right; now left | assumption]. }
    lia.
  - intros ->. split; [apply in_or_app; right; now left |].
    split; [assumption |].
    intros e2 Hin _. apply in_app_or in Hin as [Hin | [<- | []]]; [| lia].
    specialize (Hnew e2 Hin). lia.
Qed.

Lemma filter_by_id_at_most_one (f : Extraction -> bool) (m : Z) es :
  NoDup (List.map e_id es) ->
  (List.length (List.filter (fun e => f e && Z.eqb (e_id e) m) es) <= 1)%nat.
Proof.
  induction es as [| e es IH]; intros Hnd; [cbn; lia |].
  cbn [List.map] in Hnd. apply NoDup_cons in Hnd as [Hfresh Hnd].
  cbn [List.filter]. destruct (f e && Z.eqb (e_id e) m) eqn:He;
    [| now apply IH].
  apply andb_true_iff in He as [_ He]. apply Z.eqb_eq in He.
  assert (Hnone : List.filter (fun e => f e && Z.eqb (e_id e) m) es = []).
  { destruct (List.filter _ es) as [| e' rest] eqn:Hf; [reflexivity |].
    exfalso. assert (Hin : In e' (List.filter
                                    (fun e => f e && Z.eqb (e_id e) m) es))
      by (rewrite Hf; now left).
    apply filter_In in Hin as [Hin Hc].
    apply andb_true_iff in Hc as [_ Hc]. apply Z.eqb_eq in Hc.
    apply Hfresh. rewrite He, <- Hc. now apply list_elem_of_In, in_map. }
  rewrite Hnone. cbn. lia.
Qed.

(** With distinct paper ids and distinct extraction ids, no paper is
    reported twice. *)
Lemma get_stale_extractions_NoDup current_hash db :
  NoDup (List.map p_id (papers db)) ->
  NoDup (List.map e_id (extractions db)) ->
  NoDup (List.map (fun row => p_id (fst row))
           (get_stale_extractions current_hash db)).
Proof.
  intros Hp He. unfold get_stale_extractions.
  induction (papers db) as [| p ps IH]; [constructor |].
  cbn [List.map] in Hp. apply NoDup_cons in Hp as [Hfresh Hp].
  cbn [flat_map]. rewrite map_app. apply NoDup_app.
  split; [| split; [| now apply IH]].
  - rewrite List.map_map. cbn [fst].
    assert (Hlen : (List.length
      (List.filter
         (fun e => Z.eqb (e_paper_id e) (p_id p)
                   && negb (String.eqb (e_extraction_schema_hash e) current_hash)
                   && match max_extraction_id (p_id p) (extractions db) with
                      | Some m => Z.eqb (e_id e) m
                      | None => false
                      end)
         (extractions db)) <= 1)%nat).
    { destruct (max_extraction_id (p_id p) (extractions db)) as [m |].
      - now apply filter_by_id_at_most_one.
      - assert (Hnil : forall l : list Extraction,
          List.filter
            (fun e => Z.eqb (e_paper_id e) (p_id p)
                      && negb (String.eqb (e_extraction_schema_hash e)
                                 current_hash)
                      && false) l = []).
        { induction l as [| e l IHl]; [reflexivity |]. cbn [List.filter].
          now rewrite andb_false_r. }
        rewrite Hnil. cbn. lia. }
    destruct (List.filter _ (extractions db)) as [| e [| e' rest]];
      cbn in Hlen |- *; [constructor | apply NoDup_singleton | lia].
  - intros x Hx Hx'. apply Hfresh.
    apply list_elem_of_In in Hx, Hx'. apply list_elem_of_In.
    apply in_map_iff in Hx as ([q h] & <- & Hq).
    apply in_map_iff in Hq as (e & [= <- <-] & _). cbn [fst].
    apply in_map_iff in Hx' as ([q h] & Hid & Hq). cbn [fst] in Hid.
    apply in_flat_map in Hq as (p' & Hp' & Hq).
    apply in_map_iff in Hq as (e' & [= <- <-] & _).
    rewrite <- Hid. now apply in_map.
Qed.

(** C4. [get_stale_extractions h] holds a paper, paired with a hash,
    exactly when the paper has a latest extraction (largest extraction id
    among its extractions), that hash is the one of the latest extraction,
    and it differs from [h]; with distinct row ids no paper is reported
    twice. A paper extracted under [h1] and then under
    [h2] is therefore reported for [h1] (when the two differ) and not for
    [h2]. The extraction runner, on a paper that has an extraction under
    the current schema hash, counts a skip and changes nothing. *)
Theorem get_stale_extractions_contract :
  (forall current_hash db p eh,
     In (p, eh) (get_stale_extractions current_hash db)
     <-> In p (papers db)
         /\ exists e, latest_extraction db p e
                      /\ e_extraction_schema_hash e = eh
                      /\ eh <> current_hash)
  /\ (forall current_hash db,
        NoDup (List.map p_id (papers db)) ->
        NoDup (List.map e_id (extractions db)) ->
        NoDup (List.map (fun row => p_id (fst row))
                 (get_stale_extractions current_hash db)))
  /\ (forall db p h1 h2,
        In p (papers db) ->
        let db2 := extracted_twice (p_id p) h1 h2 db in
        (h1 <> h2 -> In (p, h2) (get_stale_extractions h1 db2))
        /\ (forall eh, ~ In (p, eh) (get_stale_extractions h2 db2)))
  /\ (forall sha256 build pass1 pass2 newest clock spec paper stats db e,
        In e (extractions db) -> e_paper_id e = p_id paper ->
        e_extraction_schema_hash e = review_spec.extraction_hash sha256 spec ->
        extract_one sha256 build pass1 pass2 newest clock spec
          (review_spec.extraction_hash sha256 spec) paper stats db
        = (db, Return (mkExtractionStats (extracted stats) (skipped stats + 1)
                         (x_failed stats) (total_spans stats)))).
Proof.
  split; [exact get_stale_extractions_In |].
  split; [exact get_stale_extractions_NoDup |]. split.
  - intros db p h1 h2 Hin db2.
    destruct (add_extraction_latest (p_id p) h1 [] "trace 1" EXTRACTOR_MODEL
                "t1" db p Hin eq_refl)
      as (e1 & db1 & Hrun1 & Hps1 & Hes1 & _ & _ & _).
    assert (Hin1 : In p (papers db1)) by now rewrite Hps1.
    destruct (add_extraction_latest (p_id p) h2 [] "trace 2" EXTRACTOR_MODEL
                "t2" db1 p Hin1 eq_refl)
      as (e2 & db2' & Hrun2 & Hps2 & Hes2 & Hh2 & Hp2 & Hnew2).
    assert (Hdb2 : db2 = db2').
    { subst db2. unfold extracted_twice, bind. now rewrite Hrun1, Hrun2. }
    rewrite Hdb2. clear Hdb2 db2.
    pose proof (latest_after_append db1 db2' p e2 Hps2 Hes2 Hp2 Hnew2) as Hl.
    split.
    + intros Hne. apply get_stale_extractions_In.
      split; [now rewrite Hps2 |]. exists e2.
      split; [now apply Hl |]. split; congruence.
    + intros eh H. apply get_stale_extractions_In in H
        as (_ & e & He & Hh & Hne).
      apply Hl in He. subst e. congruence.
  - intros sha256 build pass1 pass2 newest clock spec paper stats db e
      Hin Hp Hh.
    unfold extract_one.
    assert (Hsel : exists i,
      select_current_extraction (p_id paper)
        (review_spec.extraction_hash sha256 spec) db = Some i).
    { unfold select_current_extraction.
      destruct (List.find _ (extractions db)) as [e' |] eqn:Hf; [cbn; eauto |].
      exfalso. apply (find_none _ _ Hf) in Hin. cbn in Hin.
      rewrite Hp, Hh, Z.eqb_refl, String.eqb_refl in Hin. discriminate. }
    destruct Hsel as (i & ->). reflexivity.
Qed.

(** C4 on the example store, with the hashes of the specification. *)
Lemma get_stale_extractions_contract_witness :
  In (example_paper 1 (Some "111") "EXTRACTED", "h2")
     (get_stale_extractions "h1"
        (extracted_twice 1 "h1" "h2" example_audit_db))
  /\ ~ In (example_paper 1 (Some "111") "EXTRACTED", "h2")
       (get_stale_extractions "h2"
          (extracted_twice 1 "h1" "h2" example_audit_db)).
Proof.
  destruct get_stale_extractions_contract as (_ & _ & H & _).
  destruct (H example_audit_db (example_paper 1 (Some "111") "EXTRACTED")
              "h1" "h2" (or_introl eq_refl)) as [Hin Hout].
  split; [apply Hin; discriminate | apply Hout].
Defined.

(** ** Dual-pass screening: [run_screening] *)

Section ScreeningProperties.
Variable screen_paper :
  Paper -> review_spec.ReviewSpec -> Z -> outcome ScreeningDecision.
Variable _now : Z -> string.
Variable spec : review_spec.ReviewSpec.

Lemma select_paper_exists pid db row :
  select_paper pid (papers db) = Some row -> paper_exists pid db = true.
Proof.
  intros H. apply select_paper_Some in H as [Hin Hid].
  apply paper_exists_true. eauto.
Qed.





Lemma sql_update_status_select pid s now ps qid :
  select_paper qid (sql_update_status pid s now ps)
  = option_map (fun r => if Z.eqb (p_id r) pid then set_status s now r else r)
      (select_paper qid ps).
Proof.
  unfold select_paper, sql_update_status.
  induction ps as [| r ps IH]; [reflexivity |]. cbn [List.map List.find].
  assert (Hid : p_id (if Z.eqb (p_id r) pid then set_status s now r else r)
                = p_id r) by now destruct (Z.eqb (p_id r) pid).
  rewrite Hid. destruct (Z.eqb (p_id r) qid); [reflexivity | exact IH].
Qed.

End ScreeningProperties.


Lemma NoDup_map_filter {A B} (f : A -> B) (g : A -> bool) (l : list A) :
  NoDup (List.map f l) -> NoDup (List.map f (List.filter g l)).
Proof.
  induction l as [| x l IH]; intros Hnd; [exact Hnd |].
  cbn [List.map] in Hnd. apply NoDup_cons in Hnd as [Hfresh Hnd].
  cbn [List.filter]. destruct (g x); [| now apply IH].
  cbn [List.map]. apply NoDup_cons. split; [| now apply IH].
  intros Hin. apply Hfresh. apply list_elem_of_In in Hin.
  apply list_elem_of_In. apply in_map_iff in Hin as (y & <- & Hy).
  apply filter_In in Hy as [Hy _]. now apply in_map.
Qed.





(** ** Collaborator failures in the three stage runners *)

(** The screening runner has no handler: an exception of the first model
    call of the first paper leaves [run_screening] as that exception,
    before any other paper is looked at. *)
Lemma run_screening_propagates
  (screen_paper : Paper -> review_spec.ReviewSpec -> Z -> outcome ScreeningDecision)
  (_now : Z -> string) (spec : review_spec.ReviewSpec) (db : ReviewDatabase)
  (paper : Paper) (rest : list Paper) (e : exn) :
  get_papers_by_status "INGESTED" db = paper :: rest ->
  screen_paper paper spec 1 = Raise e ->
  run_screening screen_paper _now spec db = (db, Raise e).
Proof.
  intros Hps Hraise. unfold run_screening. rewrite Hps.
  cbn [screening_loop]. unfold bind, screen_one, bind, call.
  now rewrite Hraise.
Qed.

(** C6, the screening runner at the failing input. The model call raises
    on the second pass of paper 1: [run_screening] ends with that
    exception instead of a summary, paper 1 keeps the pass-1 decision that
    was already committed, and paper 2, still INGESTED, was never
    screened. *)
Theorem run_screening_aborts_on_model_error :
  exists db',
    run_screening failing_screen_paper example_clock example_spec
      example_ingested_db
    = (db', Raise (CollaboratorError "ollama: connection refused"))
    /\ status_of 1 db' = Some "INGESTED"
    /\ decisions_of 1 db' = [(1, "include")]
    /\ status_of 2 db' = Some "INGESTED"
    /\ decisions_of 2 db' = [].
Proof.
  eexists. split; [vm_compute; reflexivity |].
  repeat split; reflexivity.
Qed.

Section ParsingFailures.
Variable compute_pdf_hash : string -> outcome string.
Variable is_scanned_pdf : string -> outcome bool.
Variable parse_with_docling : string -> outcome string.
Variable parse_with_minicpm : string -> outcome string.
Variable md_path : Z -> Z -> string.
Variable read_md : string -> outcome string.
Variable write_md : string -> string -> outcome unit.
Variable find_pdf : Z -> option string.
Variable _now : Z -> string.

Let parse_pdf' :=
  parse_pdf compute_pdf_hash is_scanned_pdf parse_with_docling
    parse_with_minicpm md_path read_md write_md _now.
Let parse_one' :=
  parse_one compute_pdf_hash is_scanned_pdf parse_with_docling
    parse_with_minicpm md_path read_md write_md find_pdf _now.
Let parse_loop' :=
  parse_loop compute_pdf_hash is_scanned_pdf parse_with_docling
    parse_with_minicpm md_path read_md write_md find_pdf _now.

Lemma route_parser_store pdf_path db :
  fst (route_parser is_scanned_pdf parse_with_docling parse_with_minicpm
         pdf_path db) = db.
Proof.
  unfold route_parser, bind, call, ret.
  destruct (is_scanned_pdf pdf_path) as [[|] |]; cbn [fst]; try reflexivity.
  - destruct (parse_with_minicpm pdf_path); reflexivity.
  - destruct (parse_with_docling pdf_path) as [md |]; [| reflexivity].
    destruct (Nat.ltb _ _); [| reflexivity].
    destruct (parse_with_minicpm pdf_path); reflexivity.
Qed.

(** [parse_pdf] writes to [full_text_assets] only. *)
Lemma parse_pdf_papers pdf_path pid db :
  papers (fst (parse_pdf' pdf_path pid db)) = papers db.
Proof.
  subst parse_pdf'. unfold parse_pdf, bind, call.
  destruct (compute_pdf_hash pdf_path) as [h |]; [| reflexivity].
  destruct (select_existing_version pid h (full_text_assets db)) as [v |].
  - destruct (read_md _); [| reflexivity].
    destruct (make_ParsedDocument _ _ _ _ _ _ _); reflexivity.
  - pose proof (route_parser_store pdf_path db) as Hr.
    destruct (route_parser _ _ _ pdf_path db) as [db1 [[md parser] |]];
      cbn [fst] in Hr; subst db1; [| reflexivity].
    destruct (write_md _ md); [| reflexivity].
    cbn [fst snd]. destruct (paper_exists pid db); [| reflexivity].
    destruct (make_ParsedDocument _ _ _ _ _ _ _); reflexivity.
Qed.

(** The parsing runner catches: whatever [parse_pdf] raises for a
    paper, the iteration returns with [failed] incremented and the papers
    table, so also the paper's status, as it was. *)
Lemma parse_one_catches paper stats db pdf_path :
  find_pdf (p_id paper) = Some pdf_path ->
  is_raise (snd (parse_pdf' pdf_path (p_id paper) db)) = true ->
  exists db1,
    parse_one' paper stats db = (db1, Return (add_failed stats))
    /\ papers db1 = papers db.
Proof.
  intros Hpdf Hraise. subst parse_one'. unfold parse_one. rewrite Hpdf.
  pose proof (parse_pdf_papers pdf_path (p_id paper) db) as Hp.
  fold parse_pdf'.
  destruct (parse_pdf' pdf_path (p_id paper) db) as [db1 [r | e]];
    [discriminate |].
  exists db1. split; [reflexivity | exact Hp].
Qed.

Lemma parse_one_never_raises paper stats db :
  is_raise (snd (parse_one' paper stats db)) = false.
Proof.
  subst parse_one'. unfold parse_one.
  destruct (find_pdf (p_id paper)); [| reflexivity].
  destruct (parse_pdf _ _ _ _ _ _ _ _ _ _ db) as [db1 [r | e]];
    [| reflexivity].
  destruct (update_status _ _ _ db1) as [db2 [[] | e]]; reflexivity.
Qed.

(** So the batch is always worked through to its end. *)
Lemma parse_loop_never_raises ps : forall stats db,
  is_raise (snd (parse_loop' ps stats db)) = false.
Proof.
  subst parse_loop'.
  induction ps as [| paper rest IH]; intros stats db; [reflexivity |].
  cbn [parse_loop]. unfold bind.
  pose proof (parse_one_never_raises paper stats db) as H.
  subst parse_one'.
  destruct (parse_one _ _ _ _ _ _ _ _ _ paper stats db) as [db1 [s | e]];
    [apply IH | discriminate].
Qed.
End ParsingFailures.

Section ExtractionFailures.
Variable sha256_hexdigest : string -> string.
Variable build_extraction_prompt : string -> review_spec.ReviewSpec -> string.
Variable extract_pass1_reasoning : string -> outcome string.
Variable extract_pass2_output :
  string -> string -> review_spec.ReviewSpec -> Z -> outcome (list EvidenceSpan).
Variable newest_parsed_text : Z -> option (outcome string).
Variable _now : Z -> string.

Let extract_paper' :=
  extract_paper sha256_hexdigest build_extraction_prompt
    extract_pass1_reasoning extract_pass2_output _now.
Let extract_one' :=
  extract_one sha256_hexdigest build_extraction_prompt
    extract_pass1_reasoning extract_pass2_output newest_parsed_text _now.

(** A model call that raises in either pass leaves the store alone. *)
Lemma extract_paper_model_error pid text spec db :
  is_raise (extract_pass1_reasoning (build_extraction_prompt text spec)) = true
  \/ (exists trace,
        extract_pass1_reasoning (build_extraction_prompt text spec)
        = Return trace
        /\ is_raise (extract_pass2_output (build_extraction_prompt text spec)
                       trace spec pid) = true) ->
  fst (extract_paper' pid text spec db) = db
  /\ is_raise (snd (extract_paper' pid text spec db)) = true.
Proof.
  subst extract_paper'. unfold extract_paper, bind, call.
  intros [H | (trace & -> & H)].
  - destruct (extract_pass1_reasoning _); [discriminate | split; reflexivity].
  - unfold extract_pass2_structured.
    destruct (extract_pass2_output _ _ _ _); [discriminate | split; reflexivity].
Qed.

(** The extraction runner catches: the iteration returns with [failed]
    incremented and the store untouched. *)
Lemma extract_one_catches spec schema_hash paper stats db text :
  select_current_extraction (p_id paper) schema_hash db = None ->
  newest_parsed_text (p_id paper) = Some (Return text) ->
  is_raise (extract_pass1_reasoning (build_extraction_prompt text spec)) = true
  \/ (exists trace,
        extract_pass1_reasoning (build_extraction_prompt text spec)
        = Return trace
        /\ is_raise (extract_pass2_output (build_extraction_prompt text spec)
                       trace spec (p_id paper)) = true) ->
  extract_one' spec schema_hash paper stats db
  = (db, Return (mkExtractionStats (extracted stats) (skipped stats)
                   (x_failed stats + 1) (total_spans stats))).
Proof.
  intros Hsel Htext Hraise. subst extract_one'. unfold extract_one.
  rewrite Hsel, Htext. unfold try_except, bind.
  destruct (extract_paper_model_error (p_id paper) text spec db Hraise)
    as [Hdb Hr].
  subst extract_paper'.
  destruct (extract_paper _ _ _ _ _ _ _ _ db) as [db1 [r | e]];
    [discriminate |].
  cbn [fst] in Hdb. subst db1. reflexivity.
Qed.
End ExtractionFailures.

(** ** Parsed-text versioning: [parse_pdf] *)

Section Versioning.
Variable compute_pdf_hash : string -> outcome string.
Variable is_scanned_pdf : string -> outcome bool.
Variable parse_with_docling : string -> outcome string.
Variable parse_with_minicpm : string -> outcome string.
Variable md_path : Z -> Z -> string.
Variable read_md : string -> outcome string.
Variable write_md : string -> string -> outcome unit.
Variable _now : Z -> string.

Let parse_pdf' :=
  parse_pdf compute_pdf_hash is_scanned_pdf parse_with_docling
    parse_with_minicpm md_path read_md write_md _now.

(** Same paper, same hash already stored: nothing is written, and a
    document that is returned carries the stored version. *)
Lemma parse_pdf_existing pdf_path paper_id db pdf_hash version :
  compute_pdf_hash pdf_path = Return pdf_hash ->
  select_existing_version paper_id pdf_hash (full_text_assets db) = Some version ->
  fst (parse_pdf' pdf_path paper_id db) = db
  /\ (forall doc, snd (parse_pdf' pdf_path paper_id db) = Return doc ->
                  pd_version doc = version)
  /\ (forall text, read_md (md_path paper_id version) = Return text ->
                   1 <= version ->
                   snd (parse_pdf' pdf_path paper_id db)
                   = Return (mkParsedDocument paper_id pdf_path pdf_hash text
                               "docling" (_now paper_id) version)).
Proof.
  intros Hh He. subst parse_pdf'. unfold parse_pdf, bind, call.
  rewrite Hh, He. unfold make_ParsedDocument. cbn [str_in existsb].
  replace (String.eqb "docling" "docling") with true by reflexivity.
  cbn [orb andb].
  destruct (read_md (md_path paper_id version)) as [text |].
  - destruct (Z.leb_spec 1 version) as [Hv | Hv]; cbn [fst snd].
    + split; [reflexivity |]. split.
      * intros doc [= <-]. reflexivity.
      * intros t [= <-] _. reflexivity.
    + split; [reflexivity |]. split; [discriminate |]. intros; lia.
  - cbn [fst snd]. split; [reflexivity |]. split; discriminate.
Qed.

(** A hash that is new for the paper: the store afterwards is the store
    before, or the store before with the one row [new_asset] appended.
    The row is appended only for a paper that is stored; for another
    paper the INSERT raises and the store is as before. *)
Lemma parse_pdf_new pdf_path paper_id db pdf_hash :
  compute_pdf_hash pdf_path = Return pdf_hash ->
  select_existing_version paper_id pdf_hash (full_text_assets db) = None ->
  match route_parser is_scanned_pdf parse_with_docling parse_with_minicpm
          pdf_path db with
  | (_, Return (markdown, parser)) =>
      match write_md
              (md_path paper_id
                 (or_zero (select_last_version paper_id (full_text_assets db)) + 1))
              markdown with
      | Return _ =>
          if paper_exists paper_id db then
            fst (parse_pdf' pdf_path paper_id db)
            = with_full_text_assets db
                (full_text_assets db
                   ++ [new_asset md_path _now db pdf_path paper_id pdf_hash
                         parser])
          else parse_pdf' pdf_path paper_id db = (db, Raise IntegrityError)
      | Raise _ => fst (parse_pdf' pdf_path paper_id db) = db
      end
  | (_, Raise _) => fst (parse_pdf' pdf_path paper_id db) = db
  end.
Proof.
  intros Hh He. subst parse_pdf'. unfold parse_pdf, bind, call.
  rewrite Hh, He.
  pose proof (route_parser_store is_scanned_pdf parse_with_docling
                parse_with_minicpm pdf_path db) as Hr.
  destruct (route_parser _ _ _ pdf_path db) as [db1 [[md parser] |]];
    cbn [fst] in Hr; subst db1; [| reflexivity].
  destruct (write_md _ md); [| reflexivity].
  cbn [fst snd]. destruct (paper_exists paper_id db); [| reflexivity].
  destruct (make_ParsedDocument _ _ _ _ _ _ _); reflexivity.
Qed.

(** Every call, whatever the collaborators do: at most one row is
    appended, and only for a stored paper and a hash that is new for
    it. *)
Lemma parse_pdf_effect pdf_path paper_id db :
  fst (parse_pdf' pdf_path paper_id db) = db
  \/ exists pdf_hash parser,
       select_existing_version paper_id pdf_hash (full_text_assets db) = None
       /\ paper_exists paper_id db = true
       /\ fst (parse_pdf' pdf_path paper_id db)
          = with_full_text_assets db
              (full_text_assets db
                 ++ [new_asset md_path _now db pdf_path paper_id pdf_hash parser]).
Proof.
  destruct (compute_pdf_hash pdf_path) as [h |] eqn:Hh.
  - destruct (select_existing_version paper_id h (full_text_assets db))
      as [v |] eqn:He.
    + left. now destruct (parse_pdf_existing pdf_path paper_id db h v Hh He).
    + pose proof (parse_pdf_new pdf_path paper_id db h Hh He) as H.
      destruct (route_parser _ _ _ pdf_path db) as [db1 [[md parser] |]];
        [| now left].
      destruct (write_md _ md); [| now left].
      destruct (paper_exists paper_id db) eqn:Hp.
      * right. exists h, parser. repeat split; assumption.
      * left. now rewrite H.
  - left. subst parse_pdf'. unfold parse_pdf, bind, call. now rewrite Hh.
Qed.

Let parse_requests' :=
  parse_requests compute_pdf_hash is_scanned_pdf parse_with_docling
    parse_with_minicpm md_path read_md write_md _now.

Lemma one_to_snoc n : one_to (S n) = (one_to n ++ [Z.of_nat (S n)])%list.
Proof.
  unfold one_to. rewrite seq_S, map_app. reflexivity.
Qed.

Lemma in_one_to n x : In x (one_to n) <-> 1 <= x <= Z.of_nat n.
Proof.
  unfold one_to. rewrite in_map_iff. split.
  - intros (k & <- & Hk). apply in_seq in Hk. lia.
  - intros H. exists (Z.to_nat x). split; [lia |]. apply in_seq. lia.
Qed.

Lemma sql_max_one_to n :
  or_zero (sql_max (one_to n)) = Z.of_nat n.
Proof.
  destruct (sql_max (one_to n)) as [m |] eqn:Hm.
  - apply sql_max_spec in Hm as [Hin Hle]. cbn.
    apply in_one_to in Hin.
    assert (Hn : In (Z.of_nat n) (one_to n)) by (apply in_one_to; lia).
    specialize (Hle _ Hn). lia.
  - apply sql_max_None in Hm. destruct n; [reflexivity |].
    rewrite one_to_snoc in Hm. now destruct (one_to n).
Qed.

Lemma existing_version_None paper_id pdf_hash db :
  select_existing_version paper_id pdf_hash (full_text_assets db) = None ->
  ~ In pdf_hash (hashes_of paper_id db).
Proof.
  unfold select_existing_version, hashes_of, assets_of. intros H Hin.
  apply sql_max_None in H. apply in_map_iff in Hin as (r & Hr & Hin).
  apply filter_In in Hin as [Hin Hp].
  assert (Hx : In r (List.filter
                       (fun r => Z.eqb (fta_paper_id r) paper_id
                                 && String.eqb (fta_pdf_hash r) pdf_hash)
                       (full_text_assets db))).
  { apply filter_In. split; [assumption |].
    rewrite Hp, Hr. now rewrite String.eqb_refl. }
  apply (in_map fta_parsed_text_version) in Hx. rewrite H in Hx. destruct Hx.
Qed.

Lemma existing_version_Some paper_id pdf_hash db version :
  select_existing_version paper_id pdf_hash (full_text_assets db) = Some version ->
  exists r, In r (full_text_assets db) /\ fta_paper_id r = paper_id
            /\ fta_pdf_hash r = pdf_hash /\ fta_parsed_text_version r = version.
Proof.
  unfold select_existing_version. intros H.
  apply sql_max_spec in H as [Hin _].
  apply in_map_iff in Hin as (r & Hv & Hin).
  apply filter_In in Hin as [Hin Hc]. apply andb_true_iff in Hc as [Hp Hh].
  apply Z.eqb_eq in Hp. apply String.eqb_eq in Hh. eauto.
Qed.

(** The allocated version: 1 without assets, else one more than the
    largest version of the paper. *)
Lemma allocated_version paper_id db :
  let version := or_zero (select_last_version paper_id (full_text_assets db)) + 1 in
  (versions_of paper_id db = [] -> version = 1)
  /\ (forall m, In m (versions_of paper_id db) ->
        (forall x, In x (versions_of paper_id db) -> x <= m) ->
        version = m + 1).
Proof.
  unfold select_last_version. fold (assets_of paper_id db).
  fold (versions_of paper_id db). split.
  - intros ->. reflexivity.
  - intros m Hin Hmax.
    destruct (sql_max (versions_of paper_id db)) as [m' |] eqn:Hm.
    + apply sql_max_spec in Hm as [Hin' Hle]. cbn.
      specialize (Hle _ Hin). specialize (Hmax _ Hin'). lia.
    + apply sql_max_None in Hm. rewrite Hm in Hin. destruct Hin.
Qed.

Lemma assets_of_append paper_id db r qid :
  fta_paper_id r = paper_id ->
  assets_of qid (with_full_text_assets db (full_text_assets db ++ [r]))
  = (assets_of qid db ++ if Z.eqb paper_id qid then [r] else [])%list.
Proof.
  intros Hp. unfold assets_of. cbn [full_text_assets with_full_text_assets].
  rewrite List.filter_app. cbn [List.filter]. now rewrite Hp.
Qed.

Lemma parse_pdf_keeps_order pdf_path paper_id db :
  versions_in_order db ->
  versions_in_order (fst (parse_pdf' pdf_path paper_id db)).
Proof.
  intros Hinv.
  destruct (parse_pdf_effect pdf_path paper_id db)
    as [-> | (h & parser & Hnone & _ & ->)]; [exact Hinv |].
  intros qid. destruct (Hinv qid) as [Hv Hnd].
  unfold versions_of, hashes_of in *.
  rewrite (assets_of_append paper_id) by reflexivity.
  destruct (Z.eqb_spec paper_id qid) as [<- | Hne].
  - rewrite !map_app, length_app. cbn [List.map List.length].
    rewrite Nat.add_1_r, one_to_snoc, Hv. split.
    + do 2 f_equal. cbn [new_asset fta_parsed_text_version].
      unfold select_last_version. fold (assets_of paper_id db).
      rewrite Hv, sql_max_one_to. lia.
    + apply NoDup_app. split; [exact Hnd |]. split.
      * intros x Hx [E | []]%list_elem_of_In. cbn in E. subst x.
        apply (existing_version_None _ _ _ Hnone).
        now apply list_elem_of_In.
      * apply NoDup_singleton.
  - rewrite !app_nil_r. split; assumption.
Qed.

(** On a store in order, a new hash for a stored paper gives the paper
    the next version, one above the number of its assets, and leaves the
    versions of every other paper as they are. *)
Lemma parse_pdf_next_version pdf_path paper_id db pdf_hash markdown parser :
  versions_in_order db ->
  compute_pdf_hash pdf_path = Return pdf_hash ->
  ~ In pdf_hash (hashes_of paper_id db) ->
  paper_exists paper_id db = true ->
  route_parser is_scanned_pdf parse_with_docling parse_with_minicpm pdf_path db
  = (db, Return (markdown, parser)) ->
  write_md
    (md_path paper_id
       (or_zero (select_last_version paper_id (full_text_assets db)) + 1))
    markdown = Return tt ->
  let db' := fst (parse_pdf' pdf_path paper_id db) in
  versions_of paper_id db'
  = (versions_of paper_id db
     ++ [Z.of_nat (List.length (versions_of paper_id db)) + 1])%list
  /\ hashes_of paper_id db' = (hashes_of paper_id db ++ [pdf_hash])%list
  /\ forall other, other <> paper_id ->
       versions_of other db' = versions_of other db.
Proof.
  intros Hinv Hh Hfresh Hp Hroute Hwrite. cbn zeta.
  assert (He : select_existing_version paper_id pdf_hash (full_text_assets db)
               = None).
  { destruct (select_existing_version paper_id pdf_hash (full_text_assets db))
      as [v |] eqn:He; [| reflexivity].
    exfalso. apply Hfresh.
    apply existing_version_Some in He as (r & Hin & Hpid & Hhash & _).
    unfold hashes_of, assets_of. apply in_map_iff. exists r.
    split; [assumption |]. apply filter_In. split; [assumption |].
    now apply Z.eqb_eq. }
  pose proof (parse_pdf_new pdf_path paper_id db pdf_hash Hh He) as Hnew.
  rewrite Hroute, Hwrite, Hp in Hnew. rewrite Hnew.
  unfold versions_of, hashes_of.
  split; [| split].
  - rewrite (assets_of_append paper_id) by reflexivity.
    rewrite Z.eqb_refl, map_app, length_map. cbn [List.map]. do 2 f_equal.
    cbn [new_asset fta_parsed_text_version].
    unfold select_last_version. fold (assets_of paper_id db).
    fold (versions_of paper_id db).
    destruct (Hinv paper_id) as [Hv _]. rewrite Hv at 1.
    rewrite sql_max_one_to. reflexivity.
  - rewrite (assets_of_append paper_id) by reflexivity.
    now rewrite Z.eqb_refl, map_app.
  - intros other Hne. rewrite (assets_of_append paper_id) by reflexivity.
    destruct (Z.eqb_spec paper_id other) as [E | _]; [congruence |].
    now rewrite app_nil_r.
Qed.

Lemma parse_requests_keep_order requests : forall db,
  versions_in_order db -> versions_in_order (parse_requests' requests db).
Proof.
  subst parse_requests'.
  induction requests as [| [pdf_path paper_id] rest IH]; intros db Hinv;
    [exact Hinv |].
  cbn [parse_requests]. apply IH. now apply parse_pdf_keeps_order.
Qed.

Lemma parse_requests_extend requests : forall db,
  exists rows,
    full_text_assets (parse_requests' requests db)
    = (full_text_assets db ++ rows)%list.
Proof.
  subst parse_requests'.
  induction requests as [| [pdf_path paper_id] rest IH]; intros db.
  - exists []. cbn. now rewrite app_nil_r.
  - cbn [parse_requests]. fold parse_pdf'.
    destruct (IH (fst (parse_pdf' pdf_path paper_id db))) as (rows & ->).
    destruct (parse_pdf_effect pdf_path paper_id db)
      as [-> | (h & parser & _ & _ & ->)].
    + now exists rows.
    + cbn [full_text_assets with_full_text_assets]. rewrite <- app_assoc.
      eauto.
Qed.
End Versioning.

Lemma existing_version_found paper_id pdf_hash db r :
  In r (full_text_assets db) -> fta_paper_id r = paper_id ->
  fta_pdf_hash r = pdf_hash ->
  exists version,
    select_existing_version paper_id pdf_hash (full_text_assets db)
    = Some version.
Proof.
  intros Hin Hp Hh.
  destruct (select_existing_version paper_id pdf_hash (full_text_assets db))
    as [v |] eqn:He; [eauto |].
  exfalso. apply (existing_version_None _ _ _ He).
  unfold hashes_of, assets_of. apply in_map_iff. exists r.
  split; [assumption |]. apply filter_In. split; [assumption |].
  now apply Z.eqb_eq.
Qed.

Lemma existing_version_fresh paper_id pdf_hash db :
  ~ In pdf_hash (hashes_of paper_id db) ->
  select_existing_version paper_id pdf_hash (full_text_assets db) = None.
Proof.
  intros Hno.
  destruct (select_existing_version paper_id pdf_hash (full_text_assets db))
    as [v |] eqn:He; [| reflexivity].
  exfalso. apply Hno.
  apply existing_version_Some in He as (r & Hin & Hp & Hh & _).
  unfold hashes_of, assets_of. apply in_map_iff. exists r.
  split; [assumption |]. apply filter_In. split; [assumption |].
  now apply Z.eqb_eq.
Qed.

Lemma versions_in_order_no_assets db :
  full_text_assets db = [] -> versions_in_order db.
Proof.
  intros H pid. unfold versions_of, hashes_of, assets_of. rewrite H.
  split; [reflexivity | constructor].
Qed.

(** C5. With the PDF's content hash [h] computed: if an asset of the
    paper with hash [h] is stored, [parse_pdf] writes nothing and the
    document it returns carries the version of such an asset; if [h] is
    new for the paper, the version allocated is 1 when the paper has no
    asset and otherwise the largest stored version of the paper plus one,
    and, the parser and the file write having returned, exactly one row,
    with that paper, hash and version, is appended when the paper is
    stored, while for a paper that is not stored the INSERT raises
    [IntegrityError] and no row is written. No call ever removes or
    changes a row or appends more than one. Hence any sequence of parse
    requests keeps the versions of every paper equal to 1, 2, ..., n in
    insertion order, one per distinct hash, as they are in a store without
    assets, whatever papers it holds; and on such a store each new hash
    for a stored paper gives it the next version, one above the number of
    its assets, and leaves every other paper's versions alone. *)
Theorem parse_pdf_versioning
  (compute_pdf_hash : string -> outcome string)
  (is_scanned_pdf : string -> outcome bool)
  (parse_with_docling parse_with_minicpm : string -> outcome string)
  (md_path : Z -> Z -> string) (read_md : string -> outcome string)
  (write_md : string -> string -> outcome unit) (_now : Z -> string) :
  let parse_pdf' :=
    parse_pdf compute_pdf_hash is_scanned_pdf parse_with_docling
      parse_with_minicpm md_path read_md write_md _now in
  let parse_requests' :=
    parse_requests compute_pdf_hash is_scanned_pdf parse_with_docling
      parse_with_minicpm md_path read_md write_md _now in
  (forall pdf_path paper_id db pdf_hash r,
     compute_pdf_hash pdf_path = Return pdf_hash ->
     In r (full_text_assets db) -> fta_paper_id r = paper_id ->
     fta_pdf_hash r = pdf_hash ->
     exists version r',
       In r' (full_text_assets db) /\ fta_paper_id r' = paper_id
       /\ fta_pdf_hash r' = pdf_hash /\ fta_parsed_text_version r' = version
       /\ fst (parse_pdf' pdf_path paper_id db) = db
       /\ (forall doc, snd (parse_pdf' pdf_path paper_id db) = Return doc ->
                       pd_version doc = version)
       /\ (forall text, read_md (md_path paper_id version) = Return text ->
                        1 <= version ->
                        exists doc,
                          snd (parse_pdf' pdf_path paper_id db) = Return doc
                          /\ pd_version doc = version))
  /\ (forall pdf_path paper_id db pdf_hash,
        compute_pdf_hash pdf_path = Return pdf_hash ->
        ~ In pdf_hash (hashes_of paper_id db) ->
        let row := new_asset md_path _now db pdf_path paper_id pdf_hash in
        let version := fta_parsed_text_version (row "docling") in
        (versions_of paper_id db = [] -> version = 1)
        /\ (forall m, In m (versions_of paper_id db) ->
              (forall x, In x (versions_of paper_id db) -> x <= m) ->
              version = m + 1)
        /\ (forall markdown parser,
              route_parser is_scanned_pdf parse_with_docling parse_with_minicpm
                pdf_path db = (db, Return (markdown, parser)) ->
              write_md (md_path paper_id version) markdown = Return tt ->
              (paper_exists paper_id db = true ->
               fst (parse_pdf' pdf_path paper_id db)
               = with_full_text_assets db (full_text_assets db ++ [row parser])
               /\ fta_paper_id (row parser) = paper_id
               /\ fta_pdf_hash (row parser) = pdf_hash
               /\ fta_parsed_text_version (row parser) = version)
              /\ (paper_exists paper_id db = false ->
                  parse_pdf' pdf_path paper_id db = (db, Raise IntegrityError))))
  /\ (forall pdf_path paper_id db,
        exists rows,
          fst (parse_pdf' pdf_path paper_id db)
          = with_full_text_assets db (full_text_assets db ++ rows)
          /\ (List.length rows <= 1)%nat
          /\ (paper_exists paper_id db = false -> rows = []))
  /\ (forall requests db,
        versions_in_order db ->
        versions_in_order (parse_requests' requests db))
  /\ (forall requests db0 paper_id,
        full_text_assets db0 = [] ->
        let db := parse_requests' requests db0 in
        versions_of paper_id db = one_to (List.length (assets_of paper_id db))
        /\ NoDup (hashes_of paper_id db))
  /\ (forall requests db,
        exists rows,
          full_text_assets (parse_requests' requests db)
          = (full_text_assets db ++ rows)%list)
  /\ (forall pdf_path paper_id db pdf_hash markdown parser,
        versions_in_order db ->
        compute_pdf_hash pdf_path = Return pdf_hash ->
        ~ In pdf_hash (hashes_of paper_id db) ->
        paper_exists paper_id db = true ->
        route_parser is_scanned_pdf parse_with_docling parse_with_minicpm
          pdf_path db = (db, Return (markdown, parser)) ->
        write_md
          (md_path paper_id
             (or_zero (select_last_version paper_id (full_text_assets db)) + 1))
          markdown = Return tt ->
        let db' := fst (parse_pdf' pdf_path paper_id db) in
        versions_of paper_id db'
        = (versions_of paper_id db
           ++ [Z.of_nat (List.length (versions_of paper_id db)) + 1])%list
        /\ hashes_of paper_id db' = (hashes_of paper_id db ++ [pdf_hash])%list
        /\ forall other, other <> paper_id ->
             versions_of other db' = versions_of other db).
Proof.
  intros parse_pdf' parse_requests'. subst parse_pdf' parse_requests'.
  split; [| split; [| split; [| split; [| split; [| split]]]]].
  - intros pdf_path paper_id db pdf_hash r Hh Hin Hp Hr.
    destruct (existing_version_found paper_id pdf_hash db r Hin Hp Hr)
      as (version & He).
    destruct (existing_version_Some _ _ _ _ He) as (r' & Hin' & Hp' & Hh' & Hv').
    destruct (parse_pdf_existing compute_pdf_hash is_scanned_pdf
                parse_with_docling parse_with_minicpm md_path read_md write_md
                _now pdf_path paper_id db pdf_hash version Hh He)
      as (Hdb & Hdoc & Hret).
    exists version, r'. repeat split; try assumption.
    intros text Htext Hv. eexists. split; [exact (Hret text Htext Hv) |].
    reflexivity.
  - intros pdf_path paper_id db pdf_hash Hh Hfresh row version.
    subst row version. cbn [new_asset fta_parsed_text_version].
    destruct (allocated_version paper_id db) as [H1 Hm].
    split; [exact H1 |]. split; [exact Hm |].
    intros markdown parser Hroute Hwrite.
    pose proof (parse_pdf_new compute_pdf_hash is_scanned_pdf
                  parse_with_docling parse_with_minicpm md_path read_md
                  write_md _now pdf_path paper_id db pdf_hash Hh
                  (existing_version_fresh _ _ _ Hfresh)) as Hnew.
    rewrite Hroute, Hwrite in Hnew.
    split; intros Hp; rewrite Hp in Hnew; [| exact Hnew].
    split; [exact Hnew |]. repeat split; reflexivity.
  - intros pdf_path paper_id db.
    destruct (parse_pdf_effect compute_pdf_hash is_scanned_pdf
                parse_with_docling parse_with_minicpm md_path read_md write_md
                _now pdf_path paper_id db) as [-> | (h & parser & _ & Hp & ->)].
    + exists []. rewrite app_nil_r. split; [| split; [cbn; lia | reflexivity]].
      unfold with_full_text_assets. now destruct db.
    + eexists. split; [reflexivity |]. split; [cbn; lia |]. congruence.
  - intros requests db. apply parse_requests_keep_order.
  - intros requests db0 paper_id Hempty db. subst db.
    apply parse_requests_keep_order.
    now apply versions_in_order_no_assets.
  - apply parse_requests_extend.
  - intros pdf_path paper_id db pdf_hash markdown parser.
    apply parse_pdf_next_version.
Qed.

(** C5 on a store that holds paper 1 and no asset: the first PDF gets the
    row of version 1, and two different PDFs for the paper, then the first
    one again, leave the versions 1 and 2. *)
Lemma parse_pdf_versioning_witness :
  fst (parse_pdf example_hash example_is_scanned example_docling example_minicpm
         example_md_path example_read_md example_write_md example_clock
         "pdfs/1_a.pdf" 1 example_acquired_db)
  = with_full_text_assets example_acquired_db
      [new_asset example_md_path example_clock example_acquired_db
         "pdfs/1_a.pdf" 1 "pdfs/1_a.pdf" "docling"]
  /\ versions_of 1
       (parse_requests example_hash example_is_scanned example_docling
          example_minicpm example_md_path example_read_md example_write_md
          example_clock
          [("pdfs/1_a.pdf", 1); ("pdfs/1_b.pdf", 1); ("pdfs/1_a.pdf", 1)]
          example_acquired_db)
     = [1; 2].
Proof.
  destruct (parse_pdf_versioning example_hash example_is_scanned
              example_docling example_minicpm example_md_path example_read_md
              example_write_md example_clock) as (_ & Hnew & _ & _ & Hseq & _).
  split.
  - destruct (Hnew "pdfs/1_a.pdf" 1 example_acquired_db "pdfs/1_a.pdf" eq_refl)
      as (_ & _ & Hrow).
    + intros [].
    + destruct (Hrow example_markdown "docling" eq_refl eq_refl) as [Hyes _].
      destruct (Hyes eq_refl) as [H _]. exact H.
  - destruct (Hseq [("pdfs/1_a.pdf", 1); ("pdfs/1_b.pdf", 1); ("pdfs/1_a.pdf", 1)]
                example_acquired_db 1 eq_refl) as [Hv _].
    rewrite Hv. reflexivity.
Defined.

(** ** Protocol hashing *)

(** C3. Whatever the digest function: two review specifications with the
    same screening criteria have the same [screening_hash], two with the
    same extraction schema have the same [extraction_hash], replacing the
    screening criteria leaves [extraction_hash] as it is, and replacing
    the extraction schema leaves [screening_hash] as it is. Each hash is
    the digest of the sorted-key JSON text of its own section. *)
Theorem hashes_depend_on_own_section (sha256_hexdigest : string -> string) :
  (forall s1 s2,
     review_spec.screening_criteria s1 = review_spec.screening_criteria s2 ->
     review_spec.screening_hash sha256_hexdigest s1
     = review_spec.screening_hash sha256_hexdigest s2)
  /\ (forall s1 s2,
        review_spec.extraction_schema s1 = review_spec.extraction_schema s2 ->
        review_spec.extraction_hash sha256_hexdigest s1
        = review_spec.extraction_hash sha256_hexdigest s2)
  /\ (forall s c,
        review_spec.extraction_hash sha256_hexdigest (with_screening_criteria s c)
        = review_spec.extraction_hash sha256_hexdigest s)
  /\ (forall s e,
        review_spec.screening_hash sha256_hexdigest (with_extraction_schema s e)
        = review_spec.screening_hash sha256_hexdigest s)
  /\ (forall s,
        review_spec.screening_hash sha256_hexdigest s
        = sha256_hexdigest
            (json_dumps (review_spec.dump_screening_criteria
                           (review_spec.screening_criteria s)))
        /\ review_spec.extraction_hash sha256_hexdigest s
           = sha256_hexdigest
               (json_dumps (review_spec.dump_extraction_schema
                              (review_spec.extraction_schema s)))).
Proof.
  unfold review_spec.screening_hash, review_spec.extraction_hash,
    review_spec._canonical_hash.
  split; [| split; [| split; [| split]]].
  - intros s1 s2 H. now rewrite H.
  - intros s1 s2 H. now rewrite H.
  - intros s c. destruct s. reflexivity.
  - intros s e. destruct s. reflexivity.
  - intros s. split; reflexivity.
Qed.

(** C3 on the example specification: a new title and a new extraction
    schema leave the screening hash where it was. *)
Lemma hashes_depend_on_own_section_witness :
  review_spec.screening_hash example_digest
    (review_spec.mkReviewSpec "Another title" "2.0" [] (2027, 2, 1) None
       (review_spec.pico example_spec) (review_spec.search_strategy example_spec)
       (review_spec.screening_criteria example_spec)
       (review_spec.mkExtractionSchema
          [review_spec.mkExtractionField "sample_size" "Number of subjects"
             "int" 1 None]))
  = review_spec.screening_hash example_digest example_spec.
Proof.
  destruct (hashes_depend_on_own_section example_digest) as (H & _).
  apply H. reflexivity.
Defined.

(** ** Deduplication: merging a matched pair *)

Lemma _merge_keeps_populated kept secondary :
  keeps_populated kept (_merge kept secondary).
Proof.
  unfold keeps_populated, _merge. cbn.
  repeat split; try (intros x ->; reflexivity).
  destruct (authors kept); [congruence | reflexivity].
Qed.

Lemma _merge_fills_missing kept secondary :
  fills_missing kept secondary (_merge kept secondary).
Proof.
  unfold fills_missing, _merge. cbn.
  repeat split; intros ->; reflexivity.
Qed.

Lemma find_match_in_range cit st idx :
  indexes_in_range st ->
  _find_match cit (doi_index st) (pmid_index st) (title_index st) = Some idx ->
  (idx < List.length (unique st))%nat.
Proof.
  intros (Hd & Hp & Ht). unfold _find_match.
  destruct (match doi cit with
            | Some d => if String.eqb d "" then None
                        else doi_index st !! lower (strip d)
            | None => None
            end) as [i |] eqn:Edoi.
  - intros [= <-]. destruct (doi cit) as [d |]; [| discriminate].
    destruct (String.eqb d ""); [discriminate |]. eapply Hd, Edoi.
  - destruct (match pmid cit with
              | Some p => if String.eqb p "" then None
                          else pmid_index st !! strip p
              | None => None
              end) as [i |] eqn:Epmid.
    + intros [= <-]. destruct (pmid cit) as [p |]; [| discriminate].
      destruct (String.eqb p ""); [discriminate |]. eapply Hp, Epmid.
    + destruct (List.find _ (title_index st)) as [[t i] |] eqn:Ef;
        [| discriminate].
      cbn. intros [= <-]. apply find_some in Ef as [Hin _]. eapply Ht, Hin.
Qed.

Lemma index_new_in_range cit st :
  indexes_in_range st -> indexes_in_range (index_new cit st).
Proof.
  intros (Hd & Hp & Ht). unfold indexes_in_range, index_new.
  cbn [doi_index pmid_index title_index unique]. rewrite length_app.
  cbn [List.length]. repeat split.
  - intros k i. destruct (doi cit) as [d |].
    + destruct (String.eqb d "").
      * intros H. specialize (Hd _ _ H). lia.
      * rewrite lookup_insert. case_decide.
        -- intros [= <-]. lia.
        -- intros Hi. specialize (Hd _ _ Hi). lia.
    + intros H. specialize (Hd _ _ H). lia.
  - intros k i. destruct (pmid cit) as [p |].
    + destruct (String.eqb p "").
      * intros H. specialize (Hp _ _ H). lia.
      * rewrite lookup_insert. case_decide.
        -- intros [= <-]. lia.
        -- intros Hi. specialize (Hp _ _ Hi). lia.
    + intros H. specialize (Hp _ _ H). lia.
  - intros t i Hin. apply in_app_or in Hin as [Hin | [[= _ <-] | []]].
    + specialize (Ht _ _ Hin). lia.
    + lia.
Qed.

Lemma dedup_step_in_range st cit :
  indexes_in_range st -> indexes_in_range (dedup_step st cit).
Proof.
  intros Hinv. unfold dedup_step.
  destruct (_find_match cit _ _ _) as [idx |]; [| now apply index_new_in_range].
  destruct (unique st !! idx) as [kept |]; [| exact Hinv].
  destruct Hinv as (Hd & Hp & Ht). unfold indexes_in_range.
  cbn [doi_index pmid_index title_index unique]. rewrite length_insert.
  repeat split; assumption.
Qed.

Lemma dedup_state_in_range pm oa : indexes_in_range (dedup_state pm oa).
Proof.
  unfold dedup_state.
  assert (Hpm : indexes_in_range (index_pubmed pm)).
  { unfold index_pubmed.
    assert (H0 : indexes_in_range dedup_init).
    { repeat split; cbn; intros *; try (rewrite lookup_empty; discriminate);
        tauto. }
    revert H0. generalize dedup_init.
    induction pm as [| c pm IH]; intros st Hst; [exact Hst |].
    cbn [fold_left]. apply IH. now apply index_new_in_range. }
  revert Hpm. generalize (index_pubmed pm).
  induction oa as [| c oa IH]; intros st Hst; [exact Hst |].
  cbn [fold_left]. apply IH. now apply dedup_step_in_range.
Qed.

Lemma dedup_state_snoc pm oa cit :
  dedup_state pm (oa ++ [cit]) = dedup_step (dedup_state pm oa) cit.
Proof. unfold dedup_state. now rewrite fold_left_app. Qed.

(** C8. When an OpenAlex record matches position [idx] of the unique
    list built so far, that position holds a record [kept], and
    [deduplicate] replaces it by [_merge kept secondary]: the list keeps
    its length and all other positions, so the secondary record is not
    added; the pair (kept title, secondary title) is appended to the
    duplicate pairs; the merged record has the title, source, raw data and
    every populated field among doi, pmid, abstract, journal, year,
    authors of [kept], and its missing ones come from the secondary. *)
Theorem deduplicate_merges_match (pubmed_citations openalex_citations : list Citation)
  (secondary : Citation) (idx : nat) :
  let st := dedup_state pubmed_citations openalex_citations in
  let before := deduplicate pubmed_citations openalex_citations in
  let after := deduplicate pubmed_citations (openalex_citations ++ [secondary]) in
  _find_match secondary (doi_index st) (pmid_index st) (title_index st)
  = Some idx ->
  exists kept,
    unique_citations before !! idx = Some kept
    /\ unique_citations after
       = <[idx := _merge kept secondary]> (unique_citations before)
    /\ List.length (unique_citations after)
       = List.length (unique_citations before)
    /\ unique_citations after !! idx = Some (_merge kept secondary)
    /\ (forall i, i <> idx ->
          unique_citations after !! i = unique_citations before !! i)
    /\ result_duplicate_pairs after
       = (result_duplicate_pairs before ++ [(title kept, title secondary)])%list
    /\ duplicates_found (stats after) = S (duplicates_found (stats before))
    /\ unique_total (stats after) = unique_total (stats before)
    /\ keeps_populated kept (_merge kept secondary)
    /\ fills_missing kept secondary (_merge kept secondary).
Proof.
  intros st before after Hm. subst before after.
  unfold deduplicate. fold (dedup_state pubmed_citations openalex_citations).
  fold (dedup_state pubmed_citations (openalex_citations ++ [secondary])).
  rewrite dedup_state_snoc. fold st.
  cbn [unique_citations result_duplicate_pairs stats duplicates_found
       unique_total].
  pose proof (find_match_in_range secondary st idx
                (dedup_state_in_range _ _) Hm) as Hlt.
  destruct (lookup_lt_is_Some_2 (unique st) idx Hlt) as (kept & Hk).
  exists kept. split; [exact Hk |].
  unfold dedup_step. rewrite Hm, Hk.
  cbn [unique duplicate_pairs title _merge].
  split; [reflexivity |].
  split; [apply length_insert |].
  split; [now apply list_lookup_insert_eq |].
  split; [intros i Hi; now apply list_lookup_insert_ne |].
  split; [reflexivity |].
  split; [rewrite length_app; cbn; lia |].
  split; [now rewrite length_insert |].
  split; [apply _merge_keeps_populated | apply _merge_fills_missing].
Qed.

(** C8 on the test of the repository: same PMID, the PubMed record
    lacks abstract, journal and year. *)
Lemma deduplicate_merges_match_witness :
  unique_citations
    (deduplicate
       [mkCitation (Some "111") (Some "10.1000/a") "Study A" None [] None None
          pubmed []]
       [mkCitation (Some "111") (Some "10.1000/b") "Study A (OA)"
          (Some "OA abstract") ["Kim"] (Some "OA Journal") (Some 2023)
          openalex []])
  = [mkCitation (Some "111") (Some "10.1000/a") "Study A" (Some "OA abstract")
       ["Kim"] (Some "OA Journal") (Some 2023) pubmed []].
Proof.
  destruct (deduplicate_merges_match
              [mkCitation (Some "111") (Some "10.1000/a") "Study A" None []
                 None None pubmed []]
              []
              (mkCitation (Some "111") (Some "10.1000/b") "Study A (OA)"
                 (Some "OA abstract") ["Kim"] (Some "OA Journal") (Some 2023)
                 openalex [])
              0%nat) as (kept & Hk & Hu & _).
  - vm_compute. reflexivity.
  - cbn in Hk. injection Hk as <-. exact Hu.
Defined.

(** ** Fuzzy title matching: a sequence matched against itself *)

Section SelfMatch.
Variable a : list ascii.

Lemma diag_run_unfold i :
  diag_run a i
  = match a !! i with
    | Some c => if is_popular a c then 0%nat else S (diag_run_before a i)
    | None => 0%nat
    end.
Proof. destruct i; reflexivity. Qed.

Lemma diag_run_le i : (diag_run a i <= i + 1)%nat.
Proof.
  induction i as [| i IH]; rewrite diag_run_unfold; cbn [diag_run_before].
  - destruct (a !! 0%nat) as [c |]; [destruct (is_popular a c) |]; lia.
  - destruct (a !! S i) as [c |]; [destruct (is_popular a c) |]; lia.
Qed.

Lemma ascending_from_weaken lo lo' l :
  (lo' <= lo)%nat -> ascending_from lo l -> ascending_from lo' l.
Proof. destruct l; cbn; [tauto | intros ? [? ?]; split; [lia | assumption]]. Qed.

Lemma ascending_from_In lo l x : ascending_from lo l -> In x l -> (lo <= x)%nat.
Proof.
  revert lo. induction l as [| y l IH]; intros lo Hasc Hin; [destruct Hin |].
  destruct Hasc as [Hy Hrest]. destruct Hin as [<- | Hin]; [assumption |].
  specialize (IH _ Hrest Hin). lia.
Qed.

Lemma filter_seq_ascending (f : nat -> bool) len : forall start,
  ascending_from start (List.filter f (seq start len)).
Proof.
  induction len as [| len IH]; intros start; [exact I |].
  cbn [seq List.filter]. destruct (f start).
  - split; [lia | apply IH].
  - apply (ascending_from_weaken (S start)); [lia | apply IH].
Qed.

(** What [b2j.get(c)] holds when [c] is the character at position [i]. *)
Lemma b2j_get_spec i c :
  a !! i = Some c ->
  let js := b2j_get a c in
  ascending_from 0 js
  /\ (forall j, In j js -> a !! j = Some c /\ is_popular a c = false)
  /\ (is_popular a c = false -> In i js)
  /\ (is_popular a c = true -> js = []).
Proof.
  intros Hi js. subst js. unfold b2j_get.
  destruct (is_popular a c) eqn:Hpop.
  - split; [exact I |]. split; [intros j [] |]. split; [discriminate | reflexivity].
  - split; [apply filter_seq_ascending |]. split; [| split; [| discriminate]].
    + intros j Hj. apply filter_In in Hj as [_ Hj].
      apply bool_decide_eq_true in Hj. split; [assumption | reflexivity].
    + intros _. apply filter_In. split.
      * apply in_seq. apply lookup_lt_Some in Hi. lia.
      * now apply bool_decide_eq_true.
Qed.

Lemma scan_row_self i c j2len js : forall newj2len best,
  a !! i = Some c ->
  row_ready a i j2len ->
  (forall j, In j js -> a !! j = Some c /\ is_popular a c = false) ->
  forall lo, ascending_from lo js ->
  (exists bi bs, best = (bi, bi, bs) /\ (bi + bs <= S i)%nat
                 /\ (forall j, (j < i)%nat -> (diag_run a j <= bs)%nat)
                 /\ (In i js \/ (diag_run a i <= bs)%nat)) ->
  exists newj2len' best',
    scan_row 0 (List.length a) i j2len js newj2len best = (newj2len', best')
    /\ best_on_diagonal a (S i) best'
    /\ (forall j, In j js ->
           newj2len' !! j = Some (j2lenget_pred j2len j + 1)%nat)
    /\ (forall j, ~ In j js -> newj2len' !! j = newj2len !! j).
Proof.
  intros newj2len best Hi (R1 & R2 & R3).
  assert (Hdi : is_popular a c = false -> diag_run a i = S (diag_run_before a i)).
  { intros Hp. rewrite diag_run_unfold, Hi, Hp. reflexivity. }
  revert newj2len best.
  induction js as [| j js IH]; intros newj2len best Hjs lo Hasc
    (bi & bs & -> & Hb & Hprev & Hcur).
  - exists newj2len, (bi, bi, bs). split; [reflexivity |].
    split.
    + exists bi, bs. split; [reflexivity |]. split; [exact Hb |].
      intros x Hx. destruct Hcur as [[] | Hcur].
      destruct (Nat.eq_dec x i) as [-> | Hne]; [exact Hcur |].
      apply Hprev. lia.
    + split; [intros x [] | reflexivity].
  - destruct (Hjs j (or_introl eq_refl)) as [Hj Hpop].
    assert (Hjlt : (j < List.length a)%nat) by (eapply lookup_lt_Some, Hj).
    assert (Hdj : diag_run a j = S (diag_run_before a j)).
    { rewrite diag_run_unfold, Hj, Hpop. reflexivity. }
    specialize (Hdi Hpop).
    destruct Hasc as [Hlo Hasc].
    cbn [scan_row].
    replace (Nat.ltb j 0) with false by (symmetry; apply Nat.ltb_ge; lia).
    replace (Nat.leb (List.length a) j) with false
      by (symmetry; apply Nat.leb_gt; lia).
    set (k := (j2lenget_pred j2len j + 1)%nat).
    cbn [snd].
    assert (Hk_i : (k <= diag_run a i)%nat) by (specialize (R1 j); lia).
    assert (Hk_j : (k <= diag_run a j)%nat) by (specialize (R2 j); lia).
    (* the best block after this step *)
    assert (Hnext : exists bi' bs',
      (if Nat.ltb bs k then ((i + 1 - k)%nat, (j + 1 - k)%nat, k)
       else (bi, bi, bs)) = (bi', bi', bs')
      /\ (bi' + bs' <= S i)%nat
      /\ (forall j0, (j0 < i)%nat -> (diag_run a j0 <= bs')%nat)
      /\ (In i js \/ (diag_run a i <= bs')%nat)).
    { destruct (Nat.ltb_spec bs k) as [Hlt | Hge].
      - (* an update: only possible on the diagonal *)
        assert (Hji : j = i).
        { destruct (Nat.lt_trichotomy j i) as [Hl | [He | Hg]]; [| exact He |].
          - specialize (Hprev j Hl). lia.
          - destruct Hcur as [[E | Hin] | Hcur]; [lia | | lia].
            pose proof (ascending_from_In _ _ _ Hasc Hin). lia. }
        subst j.
        assert (Hk : k = diag_run a i) by (subst k; rewrite R3; lia).
        pose proof (diag_run_le i).
        exists (i + 1 - k)%nat, k. split; [reflexivity |].
        split; [lia |]. split; [| right; lia].
        intros j0 Hj0. specialize (Hprev j0 Hj0). lia.
      - exists bi, bs. split; [reflexivity |]. split; [exact Hb |].
        split; [exact Hprev |].
        destruct (Nat.eq_dec j i) as [-> | Hne].
        + right. subst k. rewrite R3 in Hge. lia.
        + destruct Hcur as [[E | Hin] | Hcur];
            [congruence | now left | now right]. }
    destruct Hnext as (bi' & bs' & -> & Hnext).
    destruct (IH (<[j := k]> newj2len) (bi', bi', bs')
                (fun x Hx => Hjs x (or_intror Hx)) (S j) Hasc)
      as (M' & best' & Hrun & Hbest & Hin' & Hout').
    { exists bi', bs'. split; [reflexivity | exact Hnext]. }
    exists M', best'. split; [exact Hrun |]. split; [exact Hbest |]. split.
    + intros x Hx.
      destruct (in_dec Nat.eq_dec x js) as [Hxs | Hxs]; [now apply Hin' |].
      destruct Hx as [<- | Hx]; [| contradiction].
      rewrite (Hout' _ Hxs). now rewrite lookup_insert_eq.
    + intros x Hx. rewrite Hout' by (intros Hxs; apply Hx; now right).
      apply lookup_insert_ne. intros ->. apply Hx. now left.
Qed.
End SelfMatch.

Section SelfMatchRows.
Variable a : list ascii.

Lemma row_ready_empty : row_ready a 0 ∅.
Proof.
  repeat split; intros; try (destruct j; cbn; try rewrite lookup_empty; cbn; lia).
Qed.

(** One row of the table keeps both invariants. *)
Lemma scan_row_self_next i j2len best :
  row_ready a i j2len -> best_on_diagonal a i best ->
  exists newj2len best',
    scan_row 0 (List.length a) i j2len
      (match a !! i with Some elt => b2j_get a elt | None => [] end) ∅ best
    = (newj2len, best')
    /\ row_ready a (S i) newj2len
    /\ best_on_diagonal a (S i) best'.
Proof.
  intros Hrow (bi & bs & -> & Hb & Hprev).
  destruct (a !! i) as [c |] eqn:Hi.
  - destruct (b2j_get_spec a i c Hi) as (Hasc & Hjs & Hin & Hnil).
    pose proof Hrow as (R1 & R2 & R3).
    destruct (scan_row_self a i c j2len (b2j_get a c) ∅ (bi, bi, bs) Hi Hrow
                Hjs 0%nat Hasc) as (M' & best' & Hrun & Hbest & Hset & Hout).
    { exists bi, bs. split; [reflexivity |]. split; [lia |].
      split; [exact Hprev |].
      destruct (is_popular a c) eqn:Hp; [right | left; now apply Hin].
      rewrite diag_run_unfold, Hi, Hp. lia. }
    exists M', best'. split; [exact Hrun |]. split; [| exact Hbest].
    assert (Hval : forall x,
      default 0%nat (M' !! x)
      = if in_dec Nat.eq_dec x (b2j_get a c)
        then (j2lenget_pred j2len x + 1)%nat else 0%nat).
    { intros x. destruct (in_dec Nat.eq_dec x (b2j_get a c)) as [Hx | Hx].
      - now rewrite (Hset _ Hx).
      - now rewrite (Hout _ Hx), lookup_empty. }
    unfold row_ready. cbn [diag_run_before].
    split; [| split].
    + intros [| x]; cbn [j2lenget_pred]; [lia |]. rewrite Hval.
      destruct (in_dec _ _ _) as [Hx | _]; [| lia].
      destruct (Hjs _ Hx) as [_ Hp].
      rewrite (diag_run_unfold a i), Hi, Hp. specialize (R1 x). lia.
    + intros [| x]; cbn [j2lenget_pred diag_run_before]; [lia |]. rewrite Hval.
      destruct (in_dec _ _ _) as [Hx | _]; [| lia].
      destruct (Hjs _ Hx) as [Hax Hp].
      rewrite (diag_run_unfold a x), Hax, Hp. specialize (R2 x). lia.
    + cbn [j2lenget_pred]. rewrite Hval, (diag_run_unfold a i), Hi.
      destruct (is_popular a c) eqn:Hp.
      * rewrite (Hnil eq_refl). now destruct (in_dec _ _ _).
      * destruct (in_dec _ _ _) as [_ | Hx]; [lia |].
        exfalso. apply Hx. now apply Hin.
  - exists ∅, (bi, bi, bs). split; [reflexivity |]. split.
    + unfold row_ready. cbn [diag_run_before].
      rewrite (diag_run_unfold a i), Hi.
      repeat split; intros; try (destruct j); cbn [j2lenget_pred];
        try rewrite lookup_empty; cbn; lia.
    + exists bi, bs. split; [reflexivity |]. split; [lia |].
      intros j Hj. destruct (Nat.eq_dec j i) as [-> | Hne].
      * rewrite diag_run_unfold, Hi. lia.
      * apply Hprev. lia.
Qed.

Lemma scan_rows_self m : forall i j2len best,
  row_ready a i j2len -> best_on_diagonal a i best ->
  exists bi bs,
    scan_rows a a 0 (List.length a) (seq i m) j2len best = (bi, bi, bs)
    /\ (bi + bs <= i + m)%nat.
Proof.
  induction m as [| m IH]; intros i j2len best Hrow Hbest.
  - destruct Hbest as (bi & bs & -> & Hb & _). exists bi, bs.
    split; [reflexivity | lia].
  - cbn [seq scan_rows].
    destruct (scan_row_self_next i j2len best Hrow Hbest)
      as (M' & best' & -> & Hrow' & Hbest').
    destruct (IH (S i) M' best' Hrow' Hbest') as (bi & bs & -> & Hb).
    exists bi, bs. split; [reflexivity | lia].
Qed.

Lemma same_at_self i : (i < List.length a)%nat -> same_at a a i i = true.
Proof.
  intros Hi. unfold same_at.
  destruct (lookup_lt_is_Some_2 a i Hi) as (x & ->). apply Ascii.eqb_refl.
Qed.

Lemma extend_left_self bi : forall bs,
  (bi <= List.length a)%nat ->
  extend_left a a 0 0 bi bi bs = (0%nat, 0%nat, (bs + bi)%nat).
Proof.
  induction bi as [| bi IH]; intros bs Hb; cbn [extend_left].
  - f_equal. lia.
  - rewrite same_at_self by lia. cbn [Nat.ltb Nat.leb andb].
    rewrite IH by lia. f_equal. lia.
Qed.

Lemma extend_right_self steps : forall size,
  (size + steps <= List.length a)%nat ->
  extend_right a a steps (List.length a) (List.length a) 0 0 size
  = (size + steps)%nat.
Proof.
  induction steps as [| steps IH]; intros size Hs; cbn [extend_right];
    [lia |].
  cbn [Nat.add].
  replace (Nat.ltb size (List.length a)) with true
    by (symmetry; apply Nat.ltb_lt; lia).
  rewrite same_at_self by lia. cbn [andb]. rewrite IH by lia. lia.
Qed.

(** The longest block of a sequence matched against itself is all of it. *)
Lemma find_longest_match_self :
  find_longest_match a a 0 (List.length a) 0 (List.length a)
  = (0%nat, 0%nat, List.length a).
Proof.
  unfold find_longest_match. rewrite Nat.sub_0_r.
  destruct (scan_rows_self (List.length a) 0 ∅ (0%nat, 0%nat, 0%nat))
    as (bi & bs & -> & Hb).
  - apply row_ready_empty.
  - exists 0%nat, 0%nat. split; [reflexivity |]. split; [lia |]. intros; lia.
  - rewrite extend_left_self by lia. cbn [Nat.add].
    rewrite extend_right_self by lia. f_equal. lia.
Qed.

Lemma matches_self : matches a a = List.length a.
Proof.
  unfold matches, get_matching_blocks.
  replace (2 * List.length a + 1)%nat with (S (2 * List.length a)) by lia.
  cbn [matching_blocks_loop]. rewrite find_longest_match_self.
  destruct (List.length a) as [| n] eqn:Hn.
  - reflexivity.
  - cbn [Nat.add]. rewrite !Nat.ltb_irrefl. cbn [Nat.eqb andb app].
    destruct (2 * S n)%nat; cbn; lia.
Qed.

Lemma ratio_self : (9 # 10 < ratio a a)%Q.
Proof.
  unfold ratio. rewrite matches_self.
  destruct (List.length a) as [| n]; [reflexivity |].
  cbn [Nat.add Nat.eqb]. unfold Qlt. cbn [Qnum Qden].
  rewrite <- Pos.of_nat_succ, Zpos_P_of_succ_nat. lia.
Qed.
End SelfMatchRows.

(** ** [get_matching_blocks] always empties its queue *)

Section MatchingBlocks.
Variables a b : list ascii.

Lemma scan_row_bounds alo ahi blo bhi i j2len :
  (alo <= i < ahi)%nat ->
  (forall j, (j2lenget_pred j2len j <= i - alo)%nat
             /\ (j2lenget_pred j2len j <= j - blo)%nat) ->
  forall js newj2len best,
  (forall j k, newj2len !! j = Some k ->
               (k <= S i - alo)%nat /\ (k <= S j - blo)%nat) ->
  block_in_range alo ahi blo bhi best ->
  (forall j k, fst (scan_row blo bhi i j2len js newj2len best) !! j = Some k ->
               (k <= S i - alo)%nat /\ (k <= S j - blo)%nat)
  /\ block_in_range alo ahi blo bhi
       (snd (scan_row blo bhi i j2len js newj2len best)).
Proof.
  intros Hi Hprev js.
  induction js as [| j js IH]; intros newj2len best Hnew Hbest;
    [split; assumption |].
  cbn [scan_row].
  destruct (Nat.ltb_spec j blo) as [Hlt | Hge]; [now apply IH |].
  destruct (Nat.leb_spec bhi j) as [Hbreak | Hin]; [split; assumption |].
  destruct (Hprev j) as [P1 P2].
  apply IH.
  - intros x k. rewrite lookup_insert. case_decide as Hx.
    + subst x. intros [= <-]. lia.
    + apply Hnew.
  - destruct best as [[bi bj] bs]. cbn [snd].
    destruct (Nat.ltb_spec bs (j2lenget_pred j2len j + 1)); [| exact Hbest].
    cbn. lia.
Qed.

Lemma scan_rows_bounds alo ahi blo bhi m : forall i j2len best,
  (alo <= i)%nat -> (i + m <= ahi)%nat ->
  (forall j, (j2lenget_pred j2len j <= i - alo)%nat
             /\ (j2lenget_pred j2len j <= j - blo)%nat) ->
  block_in_range alo ahi blo bhi best ->
  block_in_range alo ahi blo bhi (scan_rows a b blo bhi (seq i m) j2len best).
Proof.
  induction m as [| m IH]; intros i j2len best Hlo Hhi Hprev Hbest;
    [exact Hbest |].
  cbn [seq scan_rows].
  set (js := match a !! i with Some elt => b2j_get b elt | None => [] end).
  destruct (scan_row_bounds alo ahi blo bhi i j2len ltac:(lia) Hprev js ∅ best)
    as [Hmap Hbest']; [intros j k; rewrite lookup_empty; discriminate
                      | exact Hbest |].
  destruct (scan_row blo bhi i j2len js ∅ best) as [newj2len best'].
  cbn [fst snd] in Hmap, Hbest'.
  apply IH; try lia; [| exact Hbest'].
  intros [| j]; cbn [j2lenget_pred]; [lia |].
  destruct (newj2len !! j) as [k |] eqn:Hk; cbn; [| lia].
  destruct (Hmap j k Hk). lia.
Qed.

Lemma extend_left_bounds alo ahi blo bhi besti : forall bestj bestsize,
  block_in_range alo ahi blo bhi (besti, bestj, bestsize) ->
  block_in_range alo ahi blo bhi
    (extend_left a b alo blo besti bestj bestsize).
Proof.
  induction besti as [| i IH]; intros bestj bestsize Hb; [exact Hb |].
  cbn [extend_left]. destruct bestj as [| j]; [exact Hb |].
  destruct (Nat.ltb_spec alo (S i)); cbn [andb]; [| exact Hb].
  destruct (Nat.ltb_spec blo (S j)); cbn [andb]; [| exact Hb].
  destruct (same_at a b i j); [| exact Hb].
  apply IH. cbn in *. lia.
Qed.

Lemma extend_right_bounds ahi bhi besti bestj steps : forall bestsize,
  (besti + bestsize <= ahi)%nat -> (bestj + bestsize <= bhi)%nat ->
  let size := extend_right a b steps ahi bhi besti bestj bestsize in
  (besti + size <= ahi)%nat /\ (bestj + size <= bhi)%nat.
Proof.
  induction steps as [| steps IH]; intros bestsize Ha Hb; cbn [extend_right];
    [split; assumption |].
  destruct (Nat.ltb_spec (besti + bestsize) ahi); cbn [andb];
    [| split; assumption].
  destruct (Nat.ltb_spec (bestj + bestsize) bhi); cbn [andb];
    [| split; assumption].
  destruct (same_at a b _ _); [| split; assumption].
  apply IH; lia.
Qed.

(** The block [find_longest_match] returns lies inside the two ranges. *)
Lemma find_longest_match_bounds alo ahi blo bhi :
  (alo <= ahi)%nat -> (blo <= bhi)%nat ->
  block_in_range alo ahi blo bhi (find_longest_match a b alo ahi blo bhi).
Proof.
  intros Ha Hb. unfold find_longest_match.
  pose proof (scan_rows_bounds alo ahi blo bhi (ahi - alo) alo ∅
                (alo, blo, 0%nat)) as H1.
  destruct (scan_rows a b blo bhi (seq alo (ahi - alo)) ∅ (alo, blo, 0%nat))
    as [[bi bj] bs].
  assert (H1' : block_in_range alo ahi blo bhi (bi, bj, bs)).
  { apply H1; try lia; [| cbn; lia].
    intros [| j]; cbn [j2lenget_pred]; [lia |]. rewrite lookup_empty. cbn. lia. }
  pose proof (extend_left_bounds alo ahi blo bhi bi bj bs H1') as H2.
  destruct (extend_left a b alo blo bi bj bs) as [[bi' bj'] bs'].
  cbn in H2.
  pose proof (extend_right_bounds ahi bhi bi' bj' (ahi - (bi' + bs')) bs'
                ltac:(lia) ltac:(lia)) as H3.
  cbn in H3 |- *. lia.
Qed.

Lemma matching_blocks_loop_steps steps : forall queue blocks,
  Forall range_ok queue -> (queue_weight queue <= steps)%nat ->
  exists result, matching_blocks_loop a b steps queue blocks = Some result.
Proof.
  induction steps as [| steps IH]; intros queue blocks Hok Hw.
  - destruct queue as [| [[[alo ahi] blo] bhi] queue]; [cbn; eauto |].
    unfold queue_weight in Hw. cbn in Hw. lia.
  - destruct queue as [| [[[alo ahi] blo] bhi] queue]; [cbn; eauto |].
    apply Forall_cons in Hok as [[Hra Hrb] Hok].
    cbn [matching_blocks_loop].
    pose proof (find_longest_match_bounds alo ahi blo bhi Hra Hrb) as Hblock.
    destruct (find_longest_match a b alo ahi blo bhi) as [[i j] k].
    cbn in Hblock.
    assert (Hw' : (queue_weight queue + 2 * (ahi - alo) + 1 <= S steps)%nat).
    { unfold queue_weight in *. cbn [List.map fold_right] in Hw. lia. }
    destruct (Nat.eqb_spec k 0) as [-> | Hk]; [apply IH; [assumption | lia] |].
    apply IH.
    + apply Forall_app. split; [| apply Forall_app; split; [| exact Hok]].
      * destruct (Nat.ltb_spec (i + k) ahi); cbn [andb]; [| constructor].
        destruct (Nat.ltb_spec (j + k) bhi); [| constructor].
        repeat constructor; cbn; lia.
      * destruct (Nat.ltb_spec alo i); cbn [andb]; [| constructor].
        destruct (Nat.ltb_spec blo j); [| constructor].
        repeat constructor; cbn; lia.
    + assert (Happ : forall q1 q2,
                queue_weight (q1 ++ q2) = (queue_weight q1 + queue_weight q2)%nat).
      { intros q1 q2. unfold queue_weight.
        induction q1 as [| e q1 IHq]; cbn [app List.map fold_right];
          [reflexivity |]. rewrite IHq. lia. }
      rewrite !Happ.
      assert (H2 : (queue_weight
                      (if (Nat.ltb (i + k) ahi && Nat.ltb (j + k) bhi)%bool
                       then [((i + k)%nat, ahi, (j + k)%nat, bhi)] else [])
                    <= 2 * (ahi - (i + k)) + 1)%nat).
      { destruct (Nat.ltb (i + k) ahi && Nat.ltb (j + k) bhi)%bool;
          unfold queue_weight; cbn; lia. }
      assert (H1 : (queue_weight
                      (if (Nat.ltb alo i && Nat.ltb blo j)%bool
                       then [(alo, i, blo, j)] else [])
                    <= 2 * (i - alo) + 1)%nat).
      { destruct (Nat.ltb alo i && Nat.ltb blo j)%bool;
          unfold queue_weight; cbn; lia. }
      lia.
Qed.

(** The iteration bound of [get_matching_blocks] is never reached. *)
Lemma matching_blocks_loop_total :
  exists blocks,
    matching_blocks_loop a b (2 * List.length a + 1)
      [(0%nat, List.length a, 0%nat, List.length b)] [] = Some blocks
    /\ get_matching_blocks a b = blocks.
Proof.
  destruct (matching_blocks_loop_steps (2 * List.length a + 1)
              [(0%nat, List.length a, 0%nat, List.length b)] [])
    as (blocks & H).
  - repeat constructor; lia.
  - unfold queue_weight. cbn. lia.
  - exists blocks. split; [exact H |]. unfold get_matching_blocks.
    now rewrite H.
Qed.
End MatchingBlocks.

(** ** Matching priority of [_find_match] *)

Lemma append_nil_l (t : string) : "" ++ t = t.
Proof. reflexivity. Qed.

Lemma append_cons (c : ascii) (s t : string) :
  String c s ++ t = String c (s ++ t).
Proof. reflexivity. Qed.





Lemma similar_enough_iff norm existing_title :
  similar_enough norm existing_title = true
  <-> (9 # 10 < title_similarity norm existing_title)%Q.
Proof.
  unfold similar_enough. rewrite negb_true_iff. split.
  - intros H. apply Qnot_le_lt. intros Hle.
    apply Qle_bool_iff in Hle. congruence.
  - intros H. apply not_true_is_false. intros Hle.
    apply Qle_bool_iff in Hle. exact (Qlt_not_le _ _ H Hle).
Qed.

Lemma similar_enough_same t : similar_enough t t = true.
Proof. apply similar_enough_iff. unfold title_similarity. apply ratio_self. Qed.



(** [_find_match] in terms of the two keys. *)
Lemma _find_match_unfold cit di pi ti :
  _find_match cit di pi ti
  = match doi_key cit ≫= (fun k => di !! k) with
    | Some idx => Some idx
    | None =>
        match pmid_key cit ≫= (fun k => pi !! k) with
        | Some idx => Some idx
        | None =>
            option_map snd
              (List.find
                 (fun entry =>
                    similar_enough (normalize_title (title cit)) (fst entry))
                 ti)
        end
    end.
Proof.
  unfold _find_match, doi_key, pmid_key.
  destruct (doi cit) as [d |]; [destruct (String.eqb d "") |];
    (destruct (pmid cit) as [p |]; [destruct (String.eqb p "") |]);
    reflexivity.
Qed.


(* ================================================================== *)
(** * Further properties of the store *)

(** ** The lifecycle has no way back *)

Lemma edge_climbs current new_status :
  transition_edge current new_status ->
  (stage current < stage new_status <= 6)%nat.
Proof. intros H. destruct H; vm_compute; lia. Qed.

Lemma climbing_bound targets : forall current,
  climbing current targets ->
  (stage current + List.length targets <= 6)%nat
  /\ Forall (fun s => (stage current < stage s)%nat) targets.
Proof.
  induction targets as [| s rest IH]; intros current H; cbn in *.
  - split; [| constructor]. unfold stage.
    repeat (destruct (String.eqb current _); [lia |]). lia.
  - destruct H as [Hs Hrest]. destruct (IH s Hrest) as [Hlen Hall].
    split; [lia |]. constructor; [lia |].
    eapply List.Forall_impl; [| exact Hall]. cbn. intros; lia.
Qed.

Lemma climbing_NoDup targets : forall current,
  climbing current targets -> NoDup (current :: targets).
Proof.
  induction targets as [| s rest IH]; intros current H.
  - apply NoDup_cons. split; [apply not_elem_of_nil | apply NoDup_nil_2].
  - pose proof (climbing_bound _ _ H) as [_ Hall].
    destruct H as [Hs Hrest]. apply NoDup_cons. split; [| now apply IH].
    intros Hin. apply list_elem_of_In in Hin.
    rewrite List.Forall_forall in Hall. specialize (Hall _ Hin). lia.
Qed.

Lemma update_status_chain_climbs paper_id steps : forall db row,
  select_paper paper_id (papers db) = Some row ->
  snd (update_status_chain paper_id steps db) = Return tt ->
  climbing (p_status row) (List.map fst steps).
Proof.
  induction steps as [| [s now] rest IH]; intros db row Hrow Hret;
    [exact I |].
  cbn [update_status_chain] in Hret. unfold bind in Hret.
  destruct (update_status_cases paper_id s now db)
    as [[_ E] | [(_ & _ & E) | [(r & _ & _ & _ & E) | (r & _ & Hr & He & E)]]];
    rewrite E in Hret; try discriminate.
  rewrite Hrow in Hr. injection Hr as <-.
  cbn [List.map fst climbing]. split; [now apply edge_climbs |].
  refine (IH _ (set_status s now row) _ Hret).
  cbn [papers with_papers]. rewrite sql_update_status_select, Hrow.
  cbn [option_map]. apply select_paper_Some in Hrow as [_ Hid].
  rewrite Hid, Z.eqb_refl. reflexivity.
Qed.

(** X1. The lifecycle only moves forward: when a sequence of
    [update_status] calls for one paper all succeed, the paper's starting
    status and the statuses it was given are pairwise different, and the
    sequence has at most six calls. *)
Theorem update_status_never_returns (paper_id : Z)
  (steps : list (string * string)) (db : ReviewDatabase) (row : Paper) :
  select_paper paper_id (papers db) = Some row ->
  snd (update_status_chain paper_id steps db) = Return tt ->
  NoDup (p_status row :: List.map fst steps)
  /\ (List.length steps <= 6)%nat.
Proof.
  intros Hrow Hret.
  pose proof (update_status_chain_climbs _ _ _ _ Hrow Hret) as Hc.
  split; [now apply climbing_NoDup |].
  destruct (climbing_bound _ _ Hc) as [Hlen _].
  rewrite length_map in Hlen. lia.
Qed.

(** X1 on the longest path: a flagged paper that is then screened in
    and carried to AUDITED. *)
Lemma update_status_never_returns_witness :
  NoDup ["INGESTED"; "SCREEN_FLAGGED"; "SCREENED_IN"; "PDF_ACQUIRED";
         "PARSED"; "EXTRACTED"; "AUDITED"].
Proof.
  refine (proj1 (update_status_never_returns 1
            [("SCREEN_FLAGGED", "t1"); ("SCREENED_IN", "t2");
             ("PDF_ACQUIRED", "t3"); ("PARSED", "t4"); ("EXTRACTED", "t5");
             ("AUDITED", "t6")]
            example_db (example_paper 1 (Some "111") "INGESTED") _ _));
    reflexivity.
Defined.

(** ** The counting queries *)

Lemma count_where_cons {A} (cond : A -> bool) r rows :
  count_where cond (r :: rows)
  = (if cond r then 1 else 0) + count_where cond rows.
Proof.
  unfold count_where. cbn [List.filter]. destruct (cond r); cbn [List.length]; lia.
Qed.

Lemma count_where_nonneg {A} (cond : A -> bool) rows : 0 <= count_where cond rows.
Proof. unfold count_where. lia. Qed.

(** A [GROUP BY] count started from a dict [m]. *)
Lemma group_count_acc {A} (key : A -> string) rows :
  forall (m : gmap string Z) k,
  fold_left (fun m r => <[key r := default 0 (m !! key r) + 1]> m) rows m !! k
  = if Z.eqb (count_where (fun r => String.eqb (key r) k) rows) 0 then m !! k
    else Some (default 0 (m !! k)
               + count_where (fun r => String.eqb (key r) k) rows).
Proof.
  induction rows as [| r rows IH]; intros m k; [reflexivity |].
  cbn [fold_left]. rewrite IH, count_where_cons.
  pose proof (count_where_nonneg (fun r => String.eqb (key r) k) rows) as Hn.
  set (c := count_where (fun r => String.eqb (key r) k) rows) in *.
  destruct (String.eqb_spec (key r) k) as [E | E].
  - rewrite E, lookup_insert_eq. cbn [default]. unfold id.
    set (d := default 0 (m !! k)).
    destruct (Z.eqb_spec (1 + c) 0); [lia |].
    destruct (Z.eqb_spec c 0); f_equal; lia.
  - rewrite lookup_insert_ne by exact E. rewrite Z.add_0_l. reflexivity.
Qed.

Lemma group_count_lookup {A} (key : A -> string) rows k :
  group_count key rows !! k
  = if Z.eqb (count_where (fun r => String.eqb (key r) k) rows) 0 then None
    else Some (count_where (fun r => String.eqb (key r) k) rows).
Proof.
  unfold group_count. rewrite group_count_acc, lookup_empty. reflexivity.
Qed.

Lemma get_count_group {A} (key : A -> string) rows k :
  get_count (group_count key rows) k
  = count_where (fun r => String.eqb (key r) k) rows.
Proof.
  unfold get_count. rewrite group_count_lookup.
  destruct (Z.eqb_spec (count_where (fun r => String.eqb (key r) k) rows) 0)
    as [E | E]; [now rewrite E | reflexivity].
Qed.

Lemma sum_values_insert (m : gmap string Z) k v :
  sum_values (<[k := v]> m) = sum_values m - get_count m k + v.
Proof.
  assert (Hfresh : forall m' : gmap string Z, m' !! k = None ->
            sum_values (<[k := v]> m') = v + sum_values m').
  { intros m' Hk. unfold sum_values.
    apply (map_fold_insert_L (fun _ v acc => v + acc)); [| exact Hk].
    intros. lia. }
  unfold get_count. destruct (m !! k) as [v0 |] eqn:Hk; cbn [default]; unfold id.
  - rewrite <- insert_delete_eq.
    rewrite Hfresh by apply lookup_delete_eq.
    rewrite <- (insert_delete_id m k v0 Hk) at 2.
    unfold sum_values at 2.
    rewrite (map_fold_insert_L (fun _ v acc => v + acc));
      [| intros; lia | apply lookup_delete_eq].
    unfold sum_values. lia.
  - rewrite Hfresh by exact Hk. lia.
Qed.

Lemma sum_values_group_acc {A} (key : A -> string) rows :
  forall m : gmap string Z,
  sum_values
    (fold_left (fun m r => <[key r := default 0 (m !! key r) + 1]> m) rows m)
  = sum_values m + Z.of_nat (List.length rows).
Proof.
  induction rows as [| r rows IH]; intros m; cbn [fold_left List.length];
    [lia |].
  rewrite IH, sum_values_insert. unfold get_count. lia.
Qed.

Lemma sum_values_group {A} (key : A -> string) rows :
  sum_values (group_count key rows) = Z.of_nat (List.length rows).
Proof.
  unfold group_count. rewrite sum_values_group_acc.
  unfold sum_values. rewrite map_fold_empty. lia.
Qed.

(** X2. [get_screening_summary] agrees with [get_papers_by_status]:
    the count it holds for a status is the number of papers that
    [get_papers_by_status] returns, a status no paper has is not a key at
    all (rather than a key with 0), and the counts add up to the number of
    papers. *)
Theorem get_screening_summary_counts (db : ReviewDatabase) (s : string) :
  get_screening_summary db !! s
  = (match get_papers_by_status s db with
     | [] => None
     | found => Some (Z.of_nat (List.length found))
     end)
  /\ sum_values (get_screening_summary db) = Z.of_nat (List.length (papers db)).
Proof.
  split; [| apply sum_values_group].
  unfold get_screening_summary. rewrite group_count_lookup.
  unfold count_where, get_papers_by_status.
  destruct (List.filter _ (papers db)) as [| p found]; [reflexivity |].
  cbn [List.length]. destruct (Z.eqb_spec (Z.of_nat (S (List.length found))) 0);
    [lia | reflexivity].
Qed.

(** ** Statuses stay within the recognized ones *)

Lemma update_status_valid paper_id new_status now db :
  statuses_valid db ->
  statuses_valid (fst (update_status paper_id new_status now db)).
Proof.
  intros Hv.
  destruct (update_status_cases paper_id new_status now db)
    as [[_ E] | [(_ & _ & E) | [(r & _ & _ & _ & E) | (r & Hs & _ & _ & E)]]];
    rewrite E; try exact Hv.
  unfold statuses_valid in *. cbn [fst papers with_papers].
  unfold sql_update_status. apply List.Forall_map.
  eapply List.Forall_impl; [| exact Hv]. cbn beta. intros p Hp.
  destruct (Z.eqb (p_id p) paper_id); [| exact Hp].
  cbn [p_status set_status]. now apply str_in_true.
Qed.

Lemma add_papers_valid citations now db :
  statuses_valid db -> statuses_valid (fst (add_papers citations now db)).
Proof.
  intros Hv. unfold add_papers. rewrite add_papers_loop_spec.
  unfold statuses_valid in *. cbn [fst papers with_papers].
  apply List.Forall_app. split; [exact Hv |].
  eapply List.Forall_impl; [| apply rows_from_ingested].
  cbn beta. intros p ->. now left.
Qed.

(** X3. The schema puts no constraint on [papers.status]; the code keeps
    it within the eight recognized statuses on its own: on a store where
    every paper has a recognized status, [add_papers] and [update_status]
    leave such a store, whatever their arguments and whether they return
    or raise. The fresh store is such a store. *)
Theorem statuses_stay_valid (db : ReviewDatabase) :
  statuses_valid db ->
  (forall citations now, statuses_valid (fst (add_papers citations now db)))
  /\ (forall paper_id new_status now,
        statuses_valid (fst (update_status paper_id new_status now db))).
Proof.
  intros Hv. split.
  - intros. now apply add_papers_valid.
  - intros. now apply update_status_valid.
Qed.

Lemma statuses_stay_valid_witness :
  statuses_valid empty_db
  /\ statuses_valid
       (fst (add_papers [example_citation "Study A" (Some "111")] "t0" empty_db)).
Proof.
  assert (H : statuses_valid empty_db) by constructor.
  split; [exact H |]. apply (statuses_stay_valid empty_db H).
Defined.

(** ** [get_pipeline_stats] *)

Lemma one_status_counted (st : string) :
  In st STATUSES ->
  fold_right Z.add 0
    (List.map (fun s => if String.eqb st s then 1 else 0) STATUSES) = 1.
Proof.
  cbn [In STATUSES].
  intros H. repeat (destruct H as [<- | H]; [reflexivity |]). destruct H.
Qed.

Lemma sum_counts_statuses (ps : list Paper) :
  Forall (fun p => In (p_status p) STATUSES) ps ->
  fold_right Z.add 0
    (List.map (fun s => count_where (fun r => String.eqb (p_status r) s) ps)
       STATUSES)
  = Z.of_nat (List.length ps).
Proof.
  induction 1 as [| p ps Hp _ IH]; [reflexivity |].
  cbn [List.length]. rewrite Nat2Z.inj_succ, <- IH.
  pose proof (one_status_counted _ Hp) as H1.
  unfold STATUSES in *. cbn [List.map fold_right] in *.
  rewrite !count_where_cons. lia.
Qed.

Lemma pipeline_stats_status_key db s :
  In s STATUSES -> get_pipeline_stats db !! s = get_screening_summary db !! s.
Proof.
  intros Hs. unfold get_pipeline_stats.
  rewrite !lookup_insert_ne; [reflexivity | | | | |];
    intros <-; cbn in Hs; repeat (destruct Hs as [Hs | Hs]; [discriminate |]);
    exact Hs.
Qed.

(** X4. In the dict of [get_pipeline_stats] the five totals do not
    disturb the per-status counts: every recognized status is looked up
    as in [get_screening_summary]; verified and flagged spans together
    never exceed the span total; and on a store whose papers all have a
    recognized status, the status counts add up to [total_papers]. *)
Theorem get_pipeline_stats_consistent (db : ReviewDatabase) :
  let stats := get_pipeline_stats db in
  (forall s, In s STATUSES -> stats !! s = get_screening_summary db !! s)
  /\ stats !! "total_papers" = Some (Z.of_nat (List.length (papers db)))
  /\ get_count stats "spans_verified" + get_count stats "spans_flagged"
     <= get_count stats "total_evidence_spans"
  /\ (statuses_valid db ->
      sum_counts stats STATUSES = get_count stats "total_papers").
Proof.
  cbn zeta. split; [intros s; apply pipeline_stats_status_key |].
  split.
  { unfold get_pipeline_stats. do 4 (rewrite lookup_insert_ne by discriminate).
    apply lookup_insert_eq. }
  split.
  - unfold get_count, get_pipeline_stats.
    rewrite lookup_insert_eq.
    rewrite lookup_insert_ne, lookup_insert_eq by discriminate.
    do 2 (rewrite lookup_insert_ne by discriminate).
    rewrite lookup_insert_eq. cbn [default]. unfold id, count_where.
    induction (evidence_spans db) as [| r rows IH]; [cbn; lia |].
    cbn [List.filter List.length].
    destruct (String.eqb_spec (es_audit_status r) "verified") as [E | E].
    + rewrite E. cbn [String.eqb Ascii.eqb Bool.eqb]. cbn [List.length]. lia.
    + destruct (String.eqb (es_audit_status r) "flagged"); cbn [List.length]; lia.
  - intros Hv.
    assert (Ht : get_count (get_pipeline_stats db) "total_papers"
                 = Z.of_nat (List.length (papers db))).
    { unfold get_count, get_pipeline_stats.
      do 4 (rewrite lookup_insert_ne by discriminate).
      now rewrite lookup_insert_eq. }
    rewrite Ht, <- (sum_counts_statuses (papers db) Hv).
    unfold sum_counts. f_equal. apply map_ext_in. intros s Hs.
    unfold get_count. rewrite (pipeline_stats_status_key db s Hs).
    apply (get_count_group p_status).
Qed.

Lemma get_pipeline_stats_consistent_witness :
  sum_counts (get_pipeline_stats example_db) STATUSES
  = get_count (get_pipeline_stats example_db) "total_papers".
Proof.
  apply (get_pipeline_stats_consistent example_db).
  repeat constructor; cbn; tauto.
Defined.

(** ** The PRISMA flow *)

Lemma status_count_cons (statuses : list string) p ps :
  fold_right Z.add 0
    (List.map (fun s => count_where (fun r => String.eqb (p_status r) s) (p :: ps))
       statuses)
  = fold_right Z.add 0
      (List.map (fun s => if String.eqb (p_status p) s then 1 else 0) statuses)
    + fold_right Z.add 0
        (List.map (fun s => count_where (fun r => String.eqb (p_status r) s) ps)
           statuses).
Proof.
  induction statuses as [| s statuses IH]; [reflexivity |].
  cbn [List.map fold_right]. rewrite IH, count_where_cons. lia.
Qed.

Lemma sum_counts_papers db statuses :
  sum_counts (group_count p_status (papers db)) statuses
  = fold_right Z.add 0
      (List.map (fun s => count_where (fun r => String.eqb (p_status r) s)
                            (papers db)) statuses).
Proof.
  unfold sum_counts. f_equal. apply map_ext. intros s.
  apply (get_count_group p_status).
Qed.

(** The stages of the flow, as the numbers of papers per status. *)
Lemma prisma_flow_by_status db :
  let n s := count_where (fun r => String.eqb (p_status r) s) (papers db) in
  let flow := generate_prisma_flow db in
  records_screened flow
  = n "SCREENED_IN" + n "PDF_ACQUIRED" + n "PARSED" + n "EXTRACTED"
    + n "AUDITED" + n "SCREENED_OUT" + n "SCREEN_FLAGGED"
  /\ records_excluded flow = n "SCREENED_OUT"
  /\ screen_flagged flow = n "SCREEN_FLAGGED"
  /\ full_text_assessed flow
     = n "PDF_ACQUIRED" + n "PARSED" + n "EXTRACTED" + n "AUDITED"
  /\ studies_included flow = n "EXTRACTED" + n "AUDITED".
Proof.
  cbn zeta. unfold generate_prisma_flow.
  cbn [records_screened records_excluded screen_flagged full_text_assessed
       studies_included].
  rewrite !sum_counts_papers, !(get_count_group p_status).
  cbn [List.map fold_right]. repeat split; lia.
Qed.

(** X5. The PRISMA numbers add up. [records_identified] is the number
    of papers; the later a stage, the fewer records it holds (included
    studies among those assessed in full text, those among the screened
    ones that were neither excluded nor flagged, the screened ones among
    the identified ones); [duplicates_removed] is always 0; and on a store
    whose papers all have a recognized status, the identified records are
    the screened ones plus those still INGESTED. *)
Theorem generate_prisma_flow_accounts (db : ReviewDatabase) :
  let flow := generate_prisma_flow db in
  records_identified flow = Z.of_nat (List.length (papers db))
  /\ duplicates_removed flow = 0
  /\ 0 <= studies_included flow <= full_text_assessed flow
  /\ full_text_assessed flow
     <= records_screened flow - records_excluded flow - screen_flagged flow
  /\ records_screened flow <= records_identified flow
  /\ (statuses_valid db ->
      records_identified flow
      = records_screened flow
        + Z.of_nat (List.length (get_papers_by_status "INGESTED" db))).
Proof.
  cbn zeta.
  assert (Hid : records_identified (generate_prisma_flow db)
                = Z.of_nat (List.length (papers db))).
  { unfold generate_prisma_flow. cbn [records_identified].
    apply sum_values_group. }
  destruct (prisma_flow_by_status db) as (Hs & He & Hf & Ha & Hi).
  cbn zeta in *. rewrite Hid, Hs, He, Hf, Ha, Hi.
  pose proof (fun s => count_where_nonneg
                         (fun r => String.eqb (p_status r) s) (papers db)) as Hn.
  pose proof (Hn "SCREENED_IN"). pose proof (Hn "PDF_ACQUIRED").
  pose proof (Hn "PARSED"). pose proof (Hn "EXTRACTED").
  pose proof (Hn "AUDITED"). pose proof (Hn "SCREENED_OUT").
  pose proof (Hn "SCREEN_FLAGGED").
  split; [reflexivity |]. split; [reflexivity |].
  split; [lia |]. split; [lia |]. split.
  - clear. induction (papers db) as [| p ps IH];
      [unfold count_where; cbn [List.filter List.length]; lia |].
    rewrite !count_where_cons. cbn [List.length]. rewrite Nat2Z.inj_succ.
    repeat match goal with
           | |- context [String.eqb (p_status p) ?s] =>
               destruct (String.eqb_spec (p_status p) s) as [-> | ?]
           end; cbn [String.eqb Ascii.eqb Bool.eqb] in *; try congruence;
      repeat match goal with
             | |- context [if ?c then _ else _] => destruct c
             end; lia.
  - intros Hv. rewrite <- (sum_counts_statuses (papers db) Hv).
    unfold STATUSES. cbn [List.map fold_right].
    unfold get_papers_by_status, count_where. lia.
Qed.

Lemma generate_prisma_flow_accounts_witness :
  records_identified (generate_prisma_flow example_db)
  = records_screened (generate_prisma_flow example_db)
    + Z.of_nat (List.length (get_papers_by_status "INGESTED" example_db)).
Proof.
  apply (generate_prisma_flow_accounts example_db).
  repeat constructor; cbn; tauto.
Defined.

(** ** Evidence spans: recorded, then audited *)

Lemma next_rowid_fresh ids x : In x ids -> x < next_rowid ids.
Proof.
  intros Hin. destruct (max_id_ge ids) as [_ Hall].
  rewrite List.Forall_forall in Hall. specialize (Hall x Hin).
  unfold next_rowid. lia.
Qed.

(** X6. A span recorded by [add_evidence_span] is appended as a pending
    row under an id larger than every id in the table, and [update_audit]
    on the id just returned rewrites the audit columns of that row and of
    no other: with one of the three audit statuses it returns, with any
    other status it raises [IntegrityError] and changes nothing. A span
    for an extraction that is not stored, or with a confidence outside
    [0, 1], is refused with [IntegrityError] and the store unchanged. *)
Theorem evidence_span_recorded_then_audited (db : ReviewDatabase)
  (extraction_id : Z) (field_name value source_snippet : string)
  (confidence : Q) :
  (extraction_exists extraction_id db = false
   \/ confidence_in_range confidence = false ->
   add_evidence_span extraction_id field_name value source_snippet confidence db
   = (db, Raise IntegrityError))
  /\ forall db1 span_id,
       add_evidence_span extraction_id field_name value source_snippet
         confidence db = (db1, Return span_id) ->
       let span audit_status auditor_model audit_rationale audited_at :=
         mkEvidenceSpanRow span_id extraction_id field_name value
           source_snippet confidence audit_status auditor_model
           audit_rationale audited_at in
       db1 = with_evidence_spans db
               (evidence_spans db ++ [span "pending" None None None])
       /\ (forall r, In r (evidence_spans db) -> es_id r < span_id)
       /\ forall status model rationale now,
            (In status ["pending"; "verified"; "flagged"] ->
             update_audit span_id status model rationale now db1
             = (with_evidence_spans db
                  (evidence_spans db ++
                     [span status (Some model) (Some rationale) (Some now)]),
                Return tt))
            /\ (~ In status ["pending"; "verified"; "flagged"] ->
                update_audit span_id status model rationale now db1
                = (db1, Raise IntegrityError)).
Proof.
  split.
  { unfold add_evidence_span. intros [-> | ->]; [reflexivity |].
    now rewrite andb_false_r. }
  intros db1 span_id Hadd span. subst span. unfold add_evidence_span in Hadd.
  destruct (extraction_exists extraction_id db && confidence_in_range confidence);
    [| discriminate].
  injection Hadd as <- <-.
  set (rid := next_rowid (List.map es_id (evidence_spans db))).
  assert (Hfresh : forall r, In r (evidence_spans db) -> es_id r < rid).
  { intros r Hin. apply next_rowid_fresh. now apply in_map. }
  split; [reflexivity |]. split; [exact Hfresh |].
  intros status model rationale now.
  assert (Hex : existsb (fun r => Z.eqb (es_id r) rid)
                  (evidence_spans db ++
                     [mkEvidenceSpanRow rid extraction_id field_name value
                        source_snippet confidence "pending" None None None])
                = true).
  { rewrite existsb_app. cbn [existsb es_id]. rewrite Z.eqb_refl.
    now rewrite orb_true_r. }
  unfold update_audit. cbn [evidence_spans with_evidence_spans]. rewrite Hex.
  split; intros Hs.
  - apply str_in_true in Hs. rewrite Hs. cbn [negb andb]. f_equal.
    unfold with_evidence_spans. cbn [papers screening_decisions
      full_text_assets extractions]. f_equal.
    rewrite List.map_app. cbn [List.map es_id]. rewrite Z.eqb_refl. f_equal.
    apply map_id_on. intros r Hin.
    destruct (Z.eqb_spec (es_id r) rid) as [E | E]; [| reflexivity].
    specialize (Hfresh r Hin). lia.
  - apply str_in_false in Hs. rewrite Hs. reflexivity.
Qed.

Lemma evidence_span_recorded_then_audited_witness :
  update_audit 2 "verified" "qwen3:32b" "supported" "t2"
    (fst (add_evidence_span 1 "sample_size" "40" "Forty patients" (1 # 2)
            example_audit_db))
  = (with_evidence_spans example_audit_db
       (evidence_spans example_audit_db ++
          [mkEvidenceSpanRow 2 1 "sample_size" "40" "Forty patients" (1 # 2)
             "verified" (Some "qwen3:32b") (Some "supported") (Some "t2")]),
     Return tt).
Proof.
  destruct (evidence_span_recorded_then_audited example_audit_db 1
              "sample_size" "40" "Forty patients" (1 # 2)) as [_ H].
  destruct (H _ 2 eq_refl) as (_ & _ & Haudit).
  apply Haudit. cbn. tauto.
Defined.

(* ================================================================== *)
(** * Further properties of deduplication *)

Lemma keeps_populated_refl c : keeps_populated c c.
Proof. unfold keeps_populated. repeat split; auto. Qed.

Lemma keeps_populated_trans c1 c2 c3 :
  keeps_populated c1 c2 -> keeps_populated c2 c3 -> keeps_populated c1 c3.
Proof.
  unfold keeps_populated.
  intros (Ht & Hs & Hr & Hd & Hp & Ha & Hj & Hy & Hau)
         (Ht' & Hs' & Hr' & Hd' & Hp' & Ha' & Hj' & Hy' & Hau').
  repeat split; try congruence; auto.
  intros Hne. rewrite <- (Hau Hne). apply Hau'. now rewrite (Hau Hne).
Qed.

(** One OpenAlex record either takes the place of a record (a duplicate
    more) or is appended (a unique more). *)
Lemma dedup_step_accounts st cit :
  indexes_in_range st ->
  let st' := dedup_step st cit in
  (List.length (unique st') + List.length (duplicate_pairs st')
   = S (List.length (unique st) + List.length (duplicate_pairs st)))%nat
  /\ forall i c, unique st !! i = Some c ->
                 exists c', unique st' !! i = Some c' /\ keeps_populated c c'.
Proof.
  intros Hinv. cbn zeta. unfold dedup_step.
  destruct (_find_match cit _ _ _) as [idx |] eqn:Hf.
  - pose proof (find_match_in_range _ _ _ Hinv Hf) as Hlt.
    destruct (lookup_lt_is_Some_2 _ _ Hlt) as [kept Hk]. rewrite Hk.
    cbn [unique duplicate_pairs]. rewrite length_insert, length_app.
    cbn [List.length]. split; [lia |].
    intros i c Hi. destruct (Nat.eq_dec i idx) as [-> | Hne].
    + rewrite list_lookup_insert_eq by exact Hlt.
      rewrite Hk in Hi. injection Hi as <-.
      eexists. split; [reflexivity | apply _merge_keeps_populated].
    + rewrite list_lookup_insert_ne by congruence.
      exists c. split; [exact Hi | apply keeps_populated_refl].
  - unfold index_new. cbn [unique duplicate_pairs]. rewrite length_app.
    cbn [List.length]. split; [lia |].
    intros i c Hi. exists c. split; [| apply keeps_populated_refl].
    now apply lookup_app_l_Some.
Qed.

Lemma index_pubmed_acc pm : forall st,
  unique (fold_left (fun st cit => index_new cit st) pm st)
  = (unique st ++ pm)%list
  /\ duplicate_pairs (fold_left (fun st cit => index_new cit st) pm st)
     = duplicate_pairs st.
Proof.
  induction pm as [| c pm IH]; intros st; cbn [fold_left].
  - now rewrite app_nil_r.
  - destruct (IH (index_new c st)) as [-> ->].
    unfold index_new. cbn [unique duplicate_pairs].
    now rewrite <- app_assoc.
Qed.

Lemma dedup_state_accounts pm oa :
  let st := dedup_state pm oa in
  (List.length (unique st) + List.length (duplicate_pairs st)
   = List.length pm + List.length oa)%nat
  /\ forall i p, pm !! i = Some p ->
                 exists c, unique st !! i = Some c /\ keeps_populated p c.
Proof.
  cbn zeta. induction oa as [| cit oa IH] using rev_ind.
  - unfold dedup_state. cbn [fold_left]. unfold index_pubmed.
    destruct (index_pubmed_acc pm dedup_init) as [-> ->].
    cbn [unique duplicate_pairs dedup_init app List.length]. split; [lia |].
    intros i p Hi. exists p. split; [exact Hi | apply keeps_populated_refl].
  - rewrite dedup_state_snoc.
    destruct (dedup_step_accounts (dedup_state pm oa) cit
                (dedup_state_in_range pm oa)) as [Hlen Hkeep].
    destruct IH as [IHlen IHkeep]. rewrite length_app. cbn [List.length].
    split; [lia |].
    intros i p Hi. destruct (IHkeep i p Hi) as (c & Hc & Hpc).
    destruct (Hkeep i c Hc) as (c' & Hc' & Hcc').
    exists c'. split; [exact Hc' |]. eapply keeps_populated_trans; eassumption.
Qed.

Lemma deduplicate_accounts_lengths pm oa :
  (List.length pm + List.length oa
   = List.length (unique_citations (deduplicate pm oa))
     + duplicates_found (stats (deduplicate pm oa)))%nat
  /\ unique_total (stats (deduplicate pm oa))
     = List.length (unique_citations (deduplicate pm oa)).
Proof.
  destruct (dedup_state_accounts pm oa) as [Hlen _].
  unfold deduplicate, dedup_state in *.
  cbn [stats unique_total duplicates_found unique_citations]. lia.
Qed.

(** X7. [deduplicate] accounts for every record: each OpenAlex record
    is either a unique record more or a duplicate pair more, so
    [unique_total + duplicates_found = pubmed_total + openalex_total].
    PubMed records are the primaries: the record at position [i] of the
    PubMed list is at position [i] of the unique list, with its title,
    source, raw data and every populated field kept. The PubMed list is
    never deduplicated against itself: with no OpenAlex records it is
    returned as it is, with no duplicate reported. *)
Theorem deduplicate_accounts (pubmed_citations openalex_citations : list Citation) :
  let result := deduplicate pubmed_citations openalex_citations in
  (unique_total (stats result) + duplicates_found (stats result)
   = pubmed_total (stats result) + openalex_total (stats result))%nat
  /\ unique_total (stats result) = List.length (unique_citations result)
  /\ duplicates_found (stats result)
     = List.length (result_duplicate_pairs result)
  /\ (forall i p, pubmed_citations !! i = Some p ->
        exists c, unique_citations result !! i = Some c
                  /\ keeps_populated p c)
  /\ deduplicate pubmed_citations []
     = mkDedupResult pubmed_citations []
         (mkDedupStats (List.length pubmed_citations) 0 0
            (List.length pubmed_citations)).
Proof.
  cbn zeta. unfold deduplicate.
  cbn [stats unique_total duplicates_found pubmed_total openalex_total
       unique_citations result_duplicate_pairs].
  destruct (dedup_state_accounts pubmed_citations openalex_citations)
    as [Hlen Hkeep]. unfold dedup_state in *.
  split; [exact Hlen |]. split; [reflexivity |]. split; [reflexivity |].
  split; [exact Hkeep |].
  cbn [fold_left List.length]. unfold index_pubmed.
  destruct (index_pubmed_acc pubmed_citations dedup_init) as [-> ->].
  reflexivity.
Qed.

Lemma index_new_indexed cit st : indexed (index_new cit st) cit.
Proof.
  unfold indexed, index_new, doi_key, pmid_key.
  cbn [doi_index pmid_index title_index]. repeat split.
  - intros k. destruct (doi cit) as [d |]; [| discriminate].
    destruct (String.eqb d ""); [discriminate |]. intros [= <-].
    rewrite lookup_insert_eq. eauto.
  - intros k. destruct (pmid cit) as [p |]; [| discriminate].
    destruct (String.eqb p ""); [discriminate |]. intros [= <-].
    rewrite lookup_insert_eq. eauto.
  - rewrite List.map_app. apply in_or_app. right. now left.
Qed.

Lemma insert_keeps_key (m : gmap string nat) k k' v :
  is_Some (m !! k) -> is_Some (<[k' := v]> m !! k).
Proof.
  intros H. destruct (decide (k' = k)) as [-> | Hne].
  - rewrite lookup_insert_eq. eauto.
  - now rewrite lookup_insert_ne.
Qed.

Lemma index_new_keeps_indexed cit st c :
  indexed st c -> indexed (index_new cit st) c.
Proof.
  intros (Hd & Hp & Ht). unfold indexed, index_new.
  cbn [doi_index pmid_index title_index]. repeat split.
  - intros k Hk. specialize (Hd k Hk). destruct (doi cit) as [d |]; [| exact Hd].
    destruct (String.eqb d ""); [exact Hd | now apply insert_keeps_key].
  - intros k Hk. specialize (Hp k Hk). destruct (pmid cit) as [p |]; [| exact Hp].
    destruct (String.eqb p ""); [exact Hp | now apply insert_keeps_key].
  - rewrite List.map_app. apply in_or_app. now left.
Qed.

Lemma dedup_step_keeps_indexed st cit c :
  indexed st c -> indexed (dedup_step st cit) c.
Proof.
  intros H. unfold dedup_step.
  destruct (_find_match cit _ _ _) as [idx |];
    [| now apply index_new_keeps_indexed].
  destruct (unique st !! idx); exact H.
Qed.

Lemma index_pubmed_indexed pm c :
  In c pm -> indexed (index_pubmed pm) c.
Proof.
  unfold index_pubmed. generalize dedup_init.
  induction pm as [| p pm IH]; intros st Hin; [destruct Hin |].
  cbn [fold_left]. destruct Hin as [-> | Hin]; [| now apply IH].
  assert (H : indexed (index_new c st) c) by apply index_new_indexed.
  revert H. generalize (index_new c st). clear.
  induction pm as [| p pm IH]; intros st H; [exact H |].
  cbn [fold_left]. apply IH. now apply index_new_keeps_indexed.
Qed.

Lemma dedup_state_indexed pm oa c :
  In c pm -> indexed (dedup_state pm oa) c.
Proof.
  intros Hin. induction oa as [| cit oa IH] using rev_ind.
  - now apply index_pubmed_indexed.
  - rewrite dedup_state_snoc. now apply dedup_step_keeps_indexed.
Qed.

Lemma indexed_is_found st c1 c2 :
  indexed st c1 -> same_record c1 c2 ->
  is_Some (_find_match c2 (doi_index st) (pmid_index st) (title_index st)).
Proof.
  intros (Hd & Hp & Ht) Hsame. rewrite _find_match_unfold.
  destruct (doi_key c2 ≫= (fun k => doi_index st !! k)) as [i |] eqn:Ed;
    [eauto |].
  destruct (pmid_key c2 ≫= (fun k => pmid_index st !! k)) as [i |] eqn:Ep;
    [eauto |].
  destruct Hsame as [(k & H1 & H2) | [(k & H1 & H2) | Hn]].
  - rewrite H2 in Ed. cbn in Ed. destruct (Hd k H1) as [i Hi]. congruence.
  - rewrite H2 in Ep. cbn in Ep. destruct (Hp k H1) as [i Hi]. congruence.
  - rewrite Hn in Ht. apply in_map_iff in Ht as ([t i] & Hfst & Hin).
    cbn [fst] in Hfst. subst t.
    destruct (List.find _ (title_index st)) as [e |] eqn:Ef; [cbn; eauto |].
    exfalso. pose proof (find_none _ _ Ef _ Hin) as Hno. cbn [fst] in Hno.
    now rewrite similar_enough_same in Hno.
Qed.

(** X8. An OpenAlex record that shares an identifier with a PubMed
    record (the DOI up to letter case and surrounding blanks, the PMID up
    to surrounding blanks, or the normalized title) is always taken for a
    duplicate, wherever it stands in the OpenAlex list: it finds a match,
    the unique list does not grow, and one duplicate pair more is
    reported. *)
Theorem deduplicate_shared_identifier
  (pubmed_citations openalex_citations : list Citation) (p oa_cit : Citation) :
  In p pubmed_citations -> same_record p oa_cit ->
  let st := dedup_state pubmed_citations openalex_citations in
  let before := deduplicate pubmed_citations openalex_citations in
  let after := deduplicate pubmed_citations (openalex_citations ++ [oa_cit]) in
  is_Some (_find_match oa_cit (doi_index st) (pmid_index st) (title_index st))
  /\ unique_total (stats after) = unique_total (stats before)
  /\ duplicates_found (stats after) = S (duplicates_found (stats before)).
Proof.
  intros Hin Hsame. cbn zeta.
  pose proof (indexed_is_found _ _ _
                (dedup_state_indexed _ openalex_citations _ Hin) Hsame)
    as [idx Hf].
  split; [rewrite Hf; eauto |].
  unfold deduplicate. cbn [stats unique_total duplicates_found].
  fold (dedup_state pubmed_citations (openalex_citations ++ [oa_cit])).
  fold (dedup_state pubmed_citations openalex_citations).
  rewrite dedup_state_snoc. unfold dedup_step. rewrite Hf.
  pose proof (find_match_in_range _ _ _
                (dedup_state_in_range pubmed_citations openalex_citations) Hf)
    as Hlt.
  destruct (lookup_lt_is_Some_2 _ _ Hlt) as [kept ->].
  cbn [unique duplicate_pairs]. rewrite length_insert, length_app.
  cbn [List.length]. split; [reflexivity | lia].
Qed.

(** X8 for a DOI written with other letter case and blanks around it. *)
Lemma deduplicate_shared_identifier_witness :
  unique_total (stats (deduplicate [example_primary] [example_secondary])) = 1%nat
  /\ duplicates_found (stats (deduplicate [example_primary] [example_secondary]))
     = 1%nat.
Proof.
  assert (Hsame : same_record example_primary example_secondary).
  { left. exists "10.1/a". split; reflexivity. }
  destruct (deduplicate_shared_identifier [example_primary] [] example_primary
              example_secondary (or_introl eq_refl) Hsame) as (_ & Hu & Hd).
  split; [exact Hu | exact Hd].
Defined.

(** ** Normalized titles are normal forms *)

Lemma lower_char_facts c :
  lower_char (lower_char c) = lower_char c
  /\ is_space (lower_char c) = is_space c
  /\ is_word (lower_char c) = is_word c.
Proof. destruct c as [[] [] [] [] [] [] [] []]; vm_compute; auto. Qed.

Lemma lower_lower s : lower (lower s) = lower s.
Proof.
  induction s as [| c s IH]; cbn [lower]; [reflexivity |].
  now rewrite IH, (proj1 (lower_char_facts c)).
Qed.

Lemma lower_sub_punct s : lower (sub_punct s) = sub_punct (lower s).
Proof.
  induction s as [| c s IH]; cbn [lower sub_punct]; [reflexivity |].
  destruct (lower_char_facts c) as (_ & -> & ->).
  destruct (is_word c || is_space c); cbn [lower]; now rewrite IH.
Qed.

Lemma lower_sub_spaces s : forall b,
  lower (sub_spaces_from b s) = sub_spaces_from b (lower s).
Proof.
  induction s as [| c s IH]; intros b; cbn [lower sub_spaces_from];
    [reflexivity |].
  destruct (lower_char_facts c) as (_ & -> & _).
  destruct (is_space c); [destruct b |]; cbn [lower]; now rewrite IH.
Qed.

Lemma lower_lstrip s : lower (lstrip s) = lstrip (lower s).
Proof.
  induction s as [| c s IH]; cbn [lower lstrip]; [reflexivity |].
  destruct (lower_char_facts c) as (_ & -> & _).
  destruct (is_space c); [exact IH | reflexivity].
Qed.

Lemma lower_rstrip s : lower (rstrip s) = rstrip (lower s).
Proof.
  induction s as [| c s IH]; cbn [lower rstrip]; [reflexivity |].
  rewrite <- IH. destruct (lower_char_facts c) as (_ & -> & _).
  destruct (rstrip s); cbn [lower]; [| reflexivity].
  now destruct (is_space c).
Qed.

Lemma lower_strip s : lower (strip s) = strip (lower s).
Proof. unfold strip. now rewrite lower_rstrip, lower_lstrip. Qed.

Lemma rstrip_rstrip s : rstrip (rstrip s) = rstrip s.
Proof.
  induction s as [| c s IH]; [reflexivity |]. cbn [rstrip].
  destruct (rstrip s) as [| d r] eqn:E.
  - destruct (is_space c) eqn:Ec; [reflexivity |]. cbn [rstrip]. now rewrite Ec.
  - cbn [rstrip]. cbn [rstrip] in IH. now rewrite IH.
Qed.

Lemma lstrip_starts_clean s : starts_clean (lstrip s) = true.
Proof.
  induction s as [| c s IH]; [reflexivity |]. cbn [lstrip].
  destruct (is_space c) eqn:Ec; [exact IH |]. cbn. now rewrite Ec.
Qed.

Lemma lstrip_clean_start s : starts_clean s = true -> lstrip s = s.
Proof.
  destruct s as [| c s]; [reflexivity |]. cbn.
  now destruct (is_space c).
Qed.

Lemma rstrip_starts_clean s :
  starts_clean s = true -> starts_clean (rstrip s) = true.
Proof.
  destruct s as [| c s]; [reflexivity |]. cbn [starts_clean rstrip].
  intros Hc. destruct (rstrip s); [| exact Hc].
  destruct (is_space c) eqn:Ec; [discriminate |]. cbn. now rewrite Ec.
Qed.

Lemma strip_strip s : strip (strip s) = strip s.
Proof.
  unfold strip.
  rewrite (lstrip_clean_start (rstrip (lstrip s)))
    by apply rstrip_starts_clean, lstrip_starts_clean.
  apply rstrip_rstrip.
Qed.

Lemma sub_spaces_collapsed s : forall b, collapsed b (sub_spaces_from b s) = true.
Proof.
  induction s as [| c s IH]; intros b; [reflexivity |]. cbn [sub_spaces_from].
  destruct (is_space c) eqn:Ec.
  - destruct b; [apply IH |]. cbn. apply IH.
  - cbn [collapsed]. rewrite Ec. apply IH.
Qed.

Lemma sub_spaces_fixed s : forall b,
  collapsed b s = true -> sub_spaces_from b s = s.
Proof.
  induction s as [| c s IH]; intros b H; [reflexivity |].
  cbn [collapsed sub_spaces_from] in *. destruct (is_space c).
  - apply andb_true_iff in H as [H Hs]. apply andb_true_iff in H as [Hc Hb].
    apply Ascii.eqb_eq in Hc. subst c. destruct b; [discriminate |].
    now rewrite IH.
  - now rewrite IH.
Qed.

Lemma lstrip_collapsed s : forall b,
  collapsed b s = true -> collapsed false (lstrip s) = true.
Proof.
  induction s as [| c s IH]; intros b H; [reflexivity |].
  cbn [collapsed lstrip] in *. destruct (is_space c) eqn:Ec.
  - apply andb_true_iff in H as [_ Hs]. now apply (IH true).
  - cbn [collapsed]. now rewrite Ec.
Qed.

Lemma collapsed_cons b c s :
  collapsed b (String c s)
  = if is_space c then Ascii.eqb c " " && negb b && collapsed true s
    else collapsed false s.
Proof. reflexivity. Qed.

Lemma rstrip_collapsed s : forall b,
  collapsed b s = true -> collapsed b (rstrip s) = true.
Proof.
  induction s as [| c s IH]; intros b H; [reflexivity |].
  rewrite collapsed_cons in H. cbn [rstrip]. destruct (is_space c) eqn:Ec.
  - apply andb_true_iff in H as [H Hs]. specialize (IH true Hs).
    destruct (rstrip s); [reflexivity |].
    now rewrite collapsed_cons, Ec, H, IH.
  - specialize (IH false H).
    destruct (rstrip s); rewrite collapsed_cons, Ec; [reflexivity | exact IH].
Qed.

Lemma strip_collapsed s b :
  collapsed b s = true -> collapsed false (strip s) = true.
Proof.
  intros H. unfold strip. apply rstrip_collapsed. eapply lstrip_collapsed, H.
Qed.

Section CharClass.
Variable f : ascii -> bool.
Hypothesis f_blank : f " " = true.

Lemma sub_spaces_forall s : forall b,
  str_forall f s = true -> str_forall f (sub_spaces_from b s) = true.
Proof.
  induction s as [| c s IH]; intros b H; [reflexivity |].
  cbn [str_forall sub_spaces_from] in *.
  apply andb_true_iff in H as [Hc Hs].
  destruct (is_space c); [destruct b |]; cbn [str_forall];
    rewrite ?f_blank, ?Hc; cbn [andb]; now apply IH.
Qed.

Lemma lstrip_forall s : str_forall f s = true -> str_forall f (lstrip s) = true.
Proof.
  induction s as [| c s IH]; intros H; [reflexivity |]. cbn [lstrip].
  destruct (is_space c); [| exact H].
  cbn [str_forall] in H. apply andb_true_iff in H as [_ Hs]. now apply IH.
Qed.

Lemma rstrip_forall s : str_forall f s = true -> str_forall f (rstrip s) = true.
Proof.
  induction s as [| c s IH]; intros H; [reflexivity |].
  cbn [str_forall rstrip] in *. apply andb_true_iff in H as [Hc Hs].
  specialize (IH Hs). destruct (rstrip s).
  - destruct (is_space c); cbn [str_forall]; [reflexivity |].
    now rewrite Hc.
  - cbn [str_forall] in *. now rewrite Hc, IH.
Qed.
End CharClass.

Lemma sub_punct_forall s :
  str_forall (fun c => is_word c || is_space c) (sub_punct s) = true.
Proof.
  induction s as [| c s IH]; [reflexivity |]. cbn [sub_punct].
  destruct (is_word c || is_space c) eqn:Ec; [| exact IH].
  cbn [str_forall]. now rewrite Ec, IH.
Qed.

Lemma sub_punct_fixed s :
  str_forall (fun c => is_word c || is_space c) s = true -> sub_punct s = s.
Proof.
  induction s as [| c s IH]; intros H; [reflexivity |].
  cbn [str_forall sub_punct] in *. apply andb_true_iff in H as [Hc Hs].
  now rewrite Hc, IH.
Qed.

(** X9. [normalize_title] yields normal forms: normalizing a normalized
    title changes nothing. So the titles held in the title index are
    compared as they are, and a title that is already lower case, free of
    punctuation and single-spaced is its own index entry. *)
Theorem normalize_title_idempotent (title : string) :
  normalize_title (normalize_title title) = normalize_title title.
Proof.
  unfold normalize_title at 1.
  assert (Hl : lower (normalize_title title) = normalize_title title).
  { unfold normalize_title, sub_spaces.
    now rewrite lower_strip, lower_sub_spaces, lower_sub_punct, lower_lower. }
  assert (Hp : sub_punct (normalize_title title) = normalize_title title).
  { apply sub_punct_fixed. unfold normalize_title, strip, sub_spaces.
    apply rstrip_forall, lstrip_forall, sub_spaces_forall;
      [reflexivity | apply sub_punct_forall]. }
  assert (Hs : sub_spaces (normalize_title title) = normalize_title title).
  { apply sub_spaces_fixed. unfold normalize_title.
    apply (strip_collapsed _ false), sub_spaces_collapsed. }
  rewrite Hl, Hp, Hs. unfold normalize_title. apply strip_strip.
Qed.

(** ** The similarity ratio lies between 0 and 1 *)

Section BlockSizes.
Variables a b : list ascii.

Lemma block_total_snoc blocks i j k :
  block_total (blocks ++ [(i, j, k)]) = (block_total blocks + k)%nat.
Proof.
  unfold block_total. induction blocks as [| x blocks IH]; cbn in *; lia.
Qed.

Lemma span_a_app q1 q2 : span_a (q1 ++ q2) = (span_a q1 + span_a q2)%nat.
Proof.
  unfold span_a. induction q1 as [| e q1 IH]; cbn [app List.map fold_right];
    [reflexivity |]. rewrite IH. lia.
Qed.

Lemma span_b_app q1 q2 : span_b (q1 ++ q2) = (span_b q1 + span_b q2)%nat.
Proof.
  unfold span_b. induction q1 as [| e q1 IH]; cbn [app List.map fold_right];
    [reflexivity |]. rewrite IH. lia.
Qed.

(** The blocks found never cover more than the ranges that were queued. *)
Lemma matching_blocks_loop_size steps : forall queue blocks result,
  Forall range_ok queue ->
  matching_blocks_loop a b steps queue blocks = Some result ->
  (block_total result <= block_total blocks + span_a queue)%nat
  /\ (block_total result <= block_total blocks + span_b queue)%nat.
Proof.
  induction steps as [| steps IH]; intros queue blocks result Hok Hloop.
  - destruct queue as [| [[[alo ahi] blo] bhi] queue]; [| discriminate].
    injection Hloop as <-. lia.
  - destruct queue as [| [[[alo ahi] blo] bhi] queue].
    { injection Hloop as <-. lia. }
    apply Forall_cons in Hok as [[Hra Hrb] Hok].
    cbn [matching_blocks_loop] in Hloop.
    pose proof (find_longest_match_bounds a b alo ahi blo bhi Hra Hrb) as Hblock.
    destruct (find_longest_match a b alo ahi blo bhi) as [[i j] k].
    cbn in Hblock. destruct Hblock as (Hi & Hj & Hik & Hjk).
    assert (Hsa : span_a ((alo, ahi, blo, bhi) :: queue)
                  = (ahi - alo + span_a queue)%nat) by reflexivity.
    assert (Hsb : span_b ((alo, ahi, blo, bhi) :: queue)
                  = (bhi - blo + span_b queue)%nat) by reflexivity.
    rewrite Hsa, Hsb.
    destruct (Nat.eqb k 0).
    { destruct (IH _ _ _ Hok Hloop). lia. }
    apply IH in Hloop.
    + rewrite block_total_snoc, !span_a_app, !span_b_app in Hloop.
      assert (H2 : (span_a (if (Nat.ltb (i + k) ahi && Nat.ltb (j + k) bhi)%bool
                            then [((i + k)%nat, ahi, (j + k)%nat, bhi)] else [])
                    <= ahi - (i + k)
                    /\ span_b (if (Nat.ltb (i + k) ahi && Nat.ltb (j + k) bhi)%bool
                               then [((i + k)%nat, ahi, (j + k)%nat, bhi)] else [])
                       <= bhi - (j + k))%nat).
      { destruct (Nat.ltb (i + k) ahi && Nat.ltb (j + k) bhi)%bool;
          unfold span_a, span_b; cbn; lia. }
      assert (H1 : (span_a (if (Nat.ltb alo i && Nat.ltb blo j)%bool
                            then [(alo, i, blo, j)] else [])
                    <= i - alo
                    /\ span_b (if (Nat.ltb alo i && Nat.ltb blo j)%bool
                               then [(alo, i, blo, j)] else [])
                       <= j - blo)%nat).
      { destruct (Nat.ltb alo i && Nat.ltb blo j)%bool;
          unfold span_a, span_b; cbn; lia. }
      lia.
    + apply Forall_app. split; [| apply Forall_app; split; [| exact Hok]].
      * destruct (Nat.ltb_spec (i + k) ahi); cbn [andb]; [| constructor].
        destruct (Nat.ltb_spec (j + k) bhi); [| constructor].
        repeat constructor; cbn; lia.
      * destruct (Nat.ltb_spec alo i); cbn [andb]; [| constructor].
        destruct (Nat.ltb_spec blo j); [| constructor].
        repeat constructor; cbn; lia.
Qed.

Lemma matches_bound :
  (matches a b <= List.length a)%nat /\ (matches a b <= List.length b)%nat.
Proof.
  destruct (matching_blocks_loop_total a b) as (blocks & Hloop & Hget).
  unfold matches. rewrite Hget.
  apply matching_blocks_loop_size in Hloop; [| repeat constructor; lia].
  unfold block_total, span_a, span_b in Hloop. cbn in Hloop.
  fold (block_total blocks) in *. unfold block_total in *. lia.
Qed.

Lemma ratio_range : (0 <= ratio a b <= 1)%Q.
Proof.
  destruct matches_bound as [Ha Hb]. unfold ratio.
  destruct (List.length a + List.length b)%nat as [| n] eqn:Hn;
    [split; discriminate |].
  cbn [Nat.eqb]. unfold Qle. cbn [Qnum Qden].
  rewrite <- Pos.of_nat_succ, Zpos_P_of_succ_nat. lia.
Qed.

Lemma ratio_above_bound (p q : positive) :
  (Z.pos p # q < ratio a b)%Q ->
  Z.pos p * Z.of_nat (List.length a + List.length b)
  <= 2 * Z.pos q * Z.of_nat (Nat.min (List.length a) (List.length b)).
Proof.
  destruct matches_bound as [Ha Hb]. unfold ratio.
  destruct (List.length a + List.length b)%nat as [| n] eqn:Hn.
  - cbn [Nat.eqb]. intros _. lia.
  - cbn [Nat.eqb]. unfold Qlt. cbn [Qnum Qden].
    rewrite <- Pos.of_nat_succ, Zpos_P_of_succ_nat. nia.
Qed.
End BlockSizes.

(** X10. [title_similarity] is a number between 0 and 1, as its
    docstring says, and exactly 1 for a title compared with itself. Two
    titles can only be similar enough for a fuzzy match (ratio above 0.9)
    when the longer one has at most 11/9 of the characters of the
    shorter one. *)
Theorem title_similarity_range (t1 t2 : string) :
  (0 <= title_similarity t1 t2 <= 1)%Q
  /\ (title_similarity t1 t1 == 1)%Q
  /\ (similar_enough t1 t2 = true ->
      9 * Z.of_nat (Nat.max (String.length t1) (String.length t2))
      <= 11 * Z.of_nat (Nat.min (String.length t1) (String.length t2))).
Proof.
  unfold title_similarity. split; [apply ratio_range |]. split.
  - unfold ratio. rewrite matches_self.
    destruct (List.length (list_ascii_of_string t1)) as [| n] eqn:Hn;
      [reflexivity |].
    cbn [Nat.add Nat.eqb]. unfold Qeq. cbn [Qnum Qden].
    rewrite <- Pos.of_nat_succ, Zpos_P_of_succ_nat. lia.
  - intros H. apply similar_enough_iff in H. unfold title_similarity in H.
    apply ratio_above_bound in H.
    assert (Hlen : forall s, List.length (list_ascii_of_string s) = String.length s).
    { induction s as [| c s IH]; cbn; [reflexivity | now rewrite IH]. }
    rewrite !Hlen in H. lia.
Qed.

Lemma title_similarity_range_witness :
  9 * Z.of_nat (Nat.max (String.length "study a") (String.length "study a."))
  <= 11 * Z.of_nat (Nat.min (String.length "study a") (String.length "study a.")).
Proof.
  apply (title_similarity_range "study a" "study a."). vm_compute. reflexivity.
Defined.

(* ================================================================== *)
(** * Matching priority of [_find_match] *)

(** ** Whitespace in titles *)














(** ** Titles without a common character *)

Section NoCommonCharacter.
Variables a b : list ascii.
Hypothesis Hdisjoint : forall c, In c a -> ~ In c b.







End NoCommonCharacter.

(** ** The priorities *)



(* ================================================================== *)
(** * Properties of the audit *)

(** ** [_normalize] and [grep_verify] *)

Lemma lower_empty s : String.eqb (lower s) "" = String.eqb s "".
Proof. now destruct s. Qed.

Lemma prefix_refl s : String.prefix s s = true.
Proof.
  induction s as [| c s IH]; [reflexivity |]. cbn.
  destruct (ascii_dec c c); [exact IH | congruence].
Qed.

Lemma str_contains_refl s : str_contains s s = true.
Proof. destruct s; cbn [str_contains]; now rewrite prefix_refl. Qed.

Lemma str_contains_empty hay : str_contains "" hay = true.
Proof. now destruct hay. Qed.

(** A string that does not begin with whitespace and has no word is
    empty. *)
Lemma split_from_nil s : forall word,
  split_from word s = [] -> word = "" /\ str_forall is_space s = true.
Proof.
  induction s as [| c s IH]; intros word; cbn [split_from str_forall].
  - destruct (String.eqb_spec word ""); [auto | discriminate].
  - destruct (is_space c).
    + destruct (String.eqb_spec word ""); [| discriminate].
      intros H. apply IH in H as [_ H]. auto.
    + intros H. apply IH in H as [H _]. destruct word; discriminate.
Qed.

Lemma no_word_empty s :
  starts_clean s = true -> split s = [] -> s = "".
Proof.
  intros Hc Hs. apply split_from_nil in Hs as [_ Hs].
  destruct s as [| c s]; [reflexivity |]. cbn in Hc, Hs.
  destruct (is_space c); discriminate.
Qed.

Lemma _normalize_starts_clean t : starts_clean (auditor._normalize t) = true.
Proof.
  unfold auditor._normalize, strip.
  apply rstrip_starts_clean, lstrip_starts_clean.
Qed.

(** X11. [_normalize] yields normal forms and ignores letter case:
    normalizing twice is normalizing once, and a text and its lower-case
    form normalize to the same string. *)
Theorem _normalize_idempotent (text : string) :
  auditor._normalize (auditor._normalize text) = auditor._normalize text
  /\ auditor._normalize (lower text) = auditor._normalize text.
Proof.
  split; [| unfold auditor._normalize; now rewrite lower_lower].
  unfold auditor._normalize at 1.
  assert (Hl : lower (auditor._normalize text) = auditor._normalize text).
  { unfold auditor._normalize, sub_spaces.
    now rewrite lower_strip, lower_sub_spaces, lower_lower. }
  assert (Hs : sub_spaces (auditor._normalize text) = auditor._normalize text).
  { apply sub_spaces_fixed. unfold auditor._normalize.
    apply (strip_collapsed _ false), sub_spaces_collapsed. }
  rewrite Hl, Hs. unfold auditor._normalize. apply strip_strip.
Qed.

(** The guards on [snippet_len] and [window_size] never decide. *)
Lemma grep_verify_unfold source_snippet paper_text :
  source_snippet <> "" -> paper_text <> "" ->
  auditor.grep_verify source_snippet paper_text
  = (str_contains (auditor._normalize source_snippet)
       (auditor._normalize paper_text)
     || existsb
          (auditor.window_matches (auditor._normalize source_snippet)
             (split (auditor._normalize paper_text))
             (List.length (split (auditor._normalize source_snippet))))
          (seq 0 (Nat.max 1
                    (List.length (split (auditor._normalize paper_text)) + 1
                     - List.length
                         (split (auditor._normalize source_snippet))))))%bool.
Proof.
  intros Hs Ht. unfold auditor.grep_verify.
  apply String.eqb_neq in Hs, Ht. rewrite Hs, Ht. cbn [orb].
  destruct (str_contains (auditor._normalize source_snippet)
              (auditor._normalize paper_text)) eqn:Hc; [reflexivity |].
  cbn [orb].
  destruct (Nat.eqb_spec
              (String.length (auditor._normalize source_snippet)) 0)
    as [E | _].
  { destruct (auditor._normalize source_snippet); [| discriminate].
    now rewrite str_contains_empty in Hc. }
  destruct (Nat.eqb_spec
              (List.length (split (auditor._normalize source_snippet))) 0)
    as [E | _]; [| reflexivity].
  apply length_zero_iff_nil in E.
  apply no_word_empty in E; [| apply _normalize_starts_clean].
  rewrite E in Hc. now rewrite str_contains_empty in Hc.
Qed.

(** X12. [grep_verify] answers [False] on an empty snippet or an empty
    paper text. Otherwise it answers [True] exactly when the normalized
    snippet occurs in the normalized text or some word window is similar
    enough; the two later guards ([snippet_len == 0], [window_size == 0])
    never decide, because a normalized snippet without characters or
    without words is the empty string, which occurs in every text. So a
    snippet of blanks only is found in any non-empty text. Every non-empty
    text contains itself, and the answer does not depend on letter
    case. *)
Theorem grep_verify_cases (source_snippet paper_text : string) :
  let norm_snippet := auditor._normalize source_snippet in
  let norm_text := auditor._normalize paper_text in
  (source_snippet = "" \/ paper_text = "" ->
   auditor.grep_verify source_snippet paper_text = false)
  /\ (source_snippet <> "" -> paper_text <> "" ->
      auditor.grep_verify source_snippet paper_text
      = (str_contains norm_snippet norm_text
         || existsb
              (auditor.window_matches norm_snippet (split norm_text)
                 (List.length (split norm_snippet)))
              (seq 0 (Nat.max 1 (List.length (split norm_text) + 1
                                 - List.length (split norm_snippet)))))%bool)
  /\ (source_snippet <> "" -> paper_text <> "" -> norm_snippet = "" ->
      auditor.grep_verify source_snippet paper_text = true)
  /\ (source_snippet <> "" ->
      auditor.grep_verify source_snippet source_snippet = true)
  /\ auditor.grep_verify (lower source_snippet) (lower paper_text)
     = auditor.grep_verify source_snippet paper_text.
Proof.
  cbn zeta. pose proof grep_verify_unfold as Hgen.
  split.
  { unfold auditor.grep_verify. intros [-> | ->];
      [reflexivity | now rewrite orb_true_r]. }
  split; [apply Hgen |]. split.
  { intros Hs Ht Hn. rewrite (Hgen _ _ Hs Ht), Hn. now rewrite str_contains_empty. }
  split.
  { intros Hs. rewrite (Hgen _ _ Hs Hs). now rewrite str_contains_refl. }
  unfold auditor.grep_verify. rewrite !lower_empty.
  now rewrite !(proj2 (_normalize_idempotent _)).
Qed.

Lemma grep_verify_cases_witness :
  auditor.grep_verify "   " "Forty patients were enrolled." = true.
Proof.
  destruct (grep_verify_cases "   " "Forty patients were enrolled.")
    as (_ & _ & H & _).
  apply H; [discriminate | discriminate | reflexivity].
Defined.

(** ** [audit_span] *)

(** X13. [audit_span] consults the model only for a found field whose
    snippet passed the grep check. A NOT_FOUND field is verified and a
    span whose snippet is not in the paper text is flagged, both with
    [grep_found] false and whatever the model would say. Hence a verdict
    "verified" for a found field always comes with a snippet that is in
    the text, and a verdict with [grep_found] false for a found field is
    always "flagged". *)
Theorem audit_span_verdicts
  (semantic_verify : EvidenceSpan -> string -> outcome auditor.AuditVerdict)
  (span_data : EvidenceSpanRow) (paper_text : string) :
  (es_value span_data = "NOT_FOUND" ->
   auditor.audit_span semantic_verify span_data paper_text
   = Return (auditor.mkAuditVerdict auditor.verified false
               auditor.REASON_NOT_FOUND))
  /\ (es_value span_data <> "NOT_FOUND" ->
      auditor.grep_verify (es_source_snippet span_data) paper_text = false ->
      auditor.audit_span semantic_verify span_data paper_text
      = Return (auditor.mkAuditVerdict auditor.flagged false
                  auditor.REASON_NO_SNIPPET))
  /\ (forall verdict,
        auditor.audit_span semantic_verify span_data paper_text
        = Return verdict ->
        es_value span_data <> "NOT_FOUND" ->
        (auditor.status verdict = auditor.verified ->
         auditor.grep_verify (es_source_snippet span_data) paper_text = true
         /\ auditor.grep_found verdict = true)
        /\ (auditor.grep_found verdict = false ->
            auditor.status verdict = auditor.flagged)).
Proof.
  unfold auditor.audit_span. split; [| split].
  - intros ->. reflexivity.
  - intros Hv Hg. apply String.eqb_neq in Hv. now rewrite Hv, Hg.
  - intros verdict Ha Hv. apply String.eqb_neq in Hv. rewrite Hv in Ha.
    destruct (auditor.grep_verify (es_source_snippet span_data) paper_text).
    + cbn [negb] in Ha.
      destruct (make_EvidenceSpan _ _ _ _ _) as [span |]; [| discriminate].
      destruct (semantic_verify span paper_text) as [v |]; [| discriminate].
      injection Ha as <-. cbn. split; [auto | discriminate].
    + cbn [negb] in Ha. injection Ha as <-. cbn. split; [discriminate | auto].
Qed.

Lemma audit_span_verdicts_witness :
  auditor.audit_span example_verifier
    (mkEvidenceSpanRow 1 1 "sample_size" "40" "Sixty controls" (1 # 2)
       "pending" None None None)
    "Forty patients were enrolled."
  = Return (auditor.mkAuditVerdict auditor.flagged false
              auditor.REASON_NO_SNIPPET).
Proof.
  apply (audit_span_verdicts example_verifier); [discriminate |].
  vm_compute. reflexivity.
Defined.

(** ** The audit of one paper *)

Lemma NoDup_map_inj {A B} (f : A -> B) (l : list A) x y :
  NoDup (List.map f l) -> In x l -> In y l -> f x = f y -> x = y.
Proof.
  induction l as [| z l IH]; intros Hnd Hx Hy Hf; [destruct Hx |].
  cbn [List.map] in Hnd. apply NoDup_cons in Hnd as [Hfresh Hnd].
  destruct Hx as [-> | Hx], Hy as [-> | Hy]; auto.
  - exfalso. apply Hfresh. rewrite Hf. apply list_elem_of_In. now apply in_map.
  - exfalso. apply Hfresh. rewrite <- Hf. apply list_elem_of_In. now apply in_map.
Qed.

Lemma status_text_valid st :
  str_in (auditor.status_text st) ["pending"; "verified"; "flagged"] = true.
Proof. now destruct st. Qed.

Lemma status_text_not_pending st :
  String.eqb (auditor.status_text st) "pending" = false.
Proof. now destruct st. Qed.

Lemma update_audit_verdict span_id st model rationale now db :
  update_audit span_id (auditor.status_text st) model rationale now db
  = (with_evidence_spans db
       (List.map (fun r => if Z.eqb (es_id r) span_id
                           then set_audit (auditor.status_text st) model
                                  rationale now r
                           else r)
          (evidence_spans db)),
     Return tt).
Proof.
  unfold update_audit. rewrite status_text_valid. cbn [negb].
  now rewrite andb_false_r.
Qed.

Lemma count_verdict_total verdict stats :
  auditor.papers_audited (auditor.count_verdict verdict stats)
  = auditor.papers_audited stats
  /\ auditor.spans_verified (auditor.count_verdict verdict stats)
     + auditor.spans_flagged (auditor.count_verdict verdict stats)
     = auditor.spans_verified stats + auditor.spans_flagged stats + 1.
Proof.
  unfold auditor.count_verdict.
  destruct (auditor.status verdict), (auditor.grep_found verdict); cbn; lia.
Qed.

Section AuditOne.
Variable semantic_verify :
  EvidenceSpan -> string -> outcome auditor.AuditVerdict.
Variable newest_parsed_text : Z -> option (outcome string).
Variable _now : Z -> string.

Lemma audit_spans_effect pid paper_text spans : forall stats db,
  NoDup (List.map es_id spans) ->
  (forall s r, In s spans -> In r (evidence_spans db) ->
               es_id r = es_id s -> r = s) ->
  (forall s, In s spans ->
             is_raise (auditor.audit_span semantic_verify s paper_text) = false) ->
  exists stats',
    auditor.audit_spans semantic_verify _now pid paper_text spans stats db
    = (with_evidence_spans db
         (List.map
            (fun r => if existsb (Z.eqb (es_id r)) (List.map es_id spans)
                      then audited_row semantic_verify paper_text (_now pid) r
                      else r)
            (evidence_spans db)),
       Return stats')
    /\ auditor.papers_audited stats' = auditor.papers_audited stats
    /\ auditor.spans_verified stats' + auditor.spans_flagged stats'
       = auditor.spans_verified stats + auditor.spans_flagged stats
         + Z.of_nat (List.length spans).
Proof.
  induction spans as [| s rest IH]; intros stats db Hnd Hsame Hret.
  - exists stats. cbn [auditor.audit_spans List.map existsb List.length].
    split; [| split; [reflexivity | lia]].
    unfold ret. f_equal. rewrite map_id. unfold with_evidence_spans.
    symmetry. apply db_eta.
  - cbn [List.map] in Hnd. apply NoDup_cons in Hnd as [Hfresh Hnd].
    assert (Hfresh' : forall s', In s' rest -> es_id s' <> es_id s).
    { intros s' Hin E. apply Hfresh. rewrite <- E.
      apply list_elem_of_In. now apply in_map. }
    cbn [auditor.audit_spans]. unfold bind, call.
    pose proof (Hret s (or_introl eq_refl)) as Hs.
    destruct (auditor.audit_span semantic_verify s paper_text) as [v |] eqn:Hv;
      [| discriminate].
    rewrite update_audit_verdict.
    set (f := fun r => if Z.eqb (es_id r) (es_id s)
                       then set_audit (auditor.status_text (auditor.status v))
                              auditor.MODEL (auditor.reasoning v) (_now pid) r
                       else r).
    assert (Hfid : forall r, es_id (f r) = es_id r).
    { intros r. unfold f. now destruct (Z.eqb (es_id r) (es_id s)). }
    destruct (IH (auditor.count_verdict v stats)
                (with_evidence_spans db (List.map f (evidence_spans db))))
      as (stats' & Hrun & Hpa & Hsum).
    + exact Hnd.
    + intros s' r' Hin' Hr' Hid. cbn [evidence_spans with_evidence_spans] in Hr'.
      apply in_map_iff in Hr' as (r & <- & Hr). rewrite Hfid in Hid.
      assert (Hne : es_id r <> es_id s).
      { rewrite Hid. now apply Hfresh'. }
      unfold f. apply Z.eqb_neq in Hne. rewrite Hne.
      apply Hsame; [now right | exact Hr | exact Hid].
    + intros s' Hin'. apply Hret. now right.
    + exists stats'. rewrite Hrun.
      destruct (count_verdict_total v stats) as [Hpa1 Hsum1].
      split; [| split; [congruence | cbn [List.length]; lia]].
      f_equal. unfold with_evidence_spans.
      cbn [papers screening_decisions full_text_assets extractions
           evidence_spans]. f_equal.
      rewrite List.map_map. apply map_ext_in. intros r Hr.
      rewrite Hfid. cbn [List.map existsb]. unfold f.
      destruct (Z.eqb_spec (es_id r) (es_id s)) as [E | E].
      * cbn [orb].
        assert (Hrs : r = s) by (apply Hsame; [now left | exact Hr | exact E]).
        assert (Hno : existsb (Z.eqb (es_id r)) (List.map es_id rest) = false).
        { apply not_true_is_false. intros Hex.
          apply existsb_exists in Hex as (x & Hx & Hxe).
          apply Z.eqb_eq in Hxe. apply in_map_iff in Hx as (s' & <- & Hs').
          apply (Hfresh' s' Hs'). congruence. }
        rewrite Hno. unfold audited_row. rewrite Hrs, Hv. reflexivity.
      * cbn [orb]. reflexivity.
Qed.

End AuditOne.

(** X14. The audit of one paper by [run_audit]. On a table of spans
    with distinct ids, for a paper whose row is EXTRACTED, whose parsed
    text is read and which has an extraction, when [audit_span] returns
    for every pending span of its latest extraction: the step returns;
    exactly those spans get the verdict of [audit_span] written to their
    audit columns and every other span row is unchanged; the paper
    becomes AUDITED; no span of that extraction is pending afterwards;
    [papers_audited] grows by one and the verified and flagged counters
    together by the number of spans audited. *)
Theorem audit_one_effect
  (semantic_verify : EvidenceSpan -> string -> outcome auditor.AuditVerdict)
  (newest_parsed_text : Z -> option (outcome string)) (_now : Z -> string)
  (paper row : Paper) (stats : auditor.AuditStats)
  (db : ReviewDatabase) (paper_text : string) (ext_id : Z) :
  NoDup (List.map es_id (evidence_spans db)) ->
  select_paper (p_id paper) (papers db) = Some row ->
  p_status row = "EXTRACTED" ->
  newest_parsed_text (p_id paper) = Some (Return paper_text) ->
  max_extraction_id (p_id paper) (extractions db) = Some ext_id ->
  (forall s, In s (auditor.pending_spans ext_id db) ->
     is_raise (auditor.audit_span semantic_verify s paper_text) = false) ->
  let now := _now (p_id paper) in
  let db' :=
    mkDb (sql_update_status (p_id paper) "AUDITED" now (papers db))
      (screening_decisions db) (full_text_assets db) (extractions db)
      (List.map (fun r => if is_pending_of ext_id r
                          then audited_row semantic_verify paper_text now r
                          else r)
         (evidence_spans db)) in
  exists stats',
    auditor.audit_one semantic_verify newest_parsed_text _now paper stats db
    = (db', Return stats')
    /\ auditor.pending_spans ext_id db' = []
    /\ auditor.papers_audited stats' = auditor.papers_audited stats + 1
    /\ auditor.spans_verified stats' + auditor.spans_flagged stats'
       = auditor.spans_verified stats + auditor.spans_flagged stats
         + Z.of_nat (List.length (auditor.pending_spans ext_id db)).
Proof.
  intros Hnd Hrow Hst Htext Hext Hret now db'.
  destruct (audit_spans_effect semantic_verify _now (p_id paper) paper_text
              (auditor.pending_spans ext_id db) stats db)
    as (stats1 & Hrun & Hpa & Hsum).
  { unfold auditor.pending_spans. now apply NoDup_map_filter. }
  { intros s r Hs Hr Hid. unfold auditor.pending_spans in Hs.
    apply filter_In in Hs as [Hs _].
    now apply (NoDup_map_inj es_id (evidence_spans db)). }
  { exact Hret. }
  assert (Hmap :
    List.map
      (fun r => if existsb (Z.eqb (es_id r))
                     (List.map es_id (auditor.pending_spans ext_id db))
                then audited_row semantic_verify paper_text now r else r)
      (evidence_spans db)
    = List.map (fun r => if is_pending_of ext_id r
                         then audited_row semantic_verify paper_text now r
                         else r)
        (evidence_spans db)).
  { apply map_ext_in. intros r Hr.
    replace (existsb (Z.eqb (es_id r))
               (List.map es_id (auditor.pending_spans ext_id db)))
      with (is_pending_of ext_id r); [reflexivity |].
    destruct (is_pending_of ext_id r) eqn:Hp; symmetry.
    - apply existsb_exists. exists (es_id r). split; [| apply Z.eqb_refl].
      apply in_map. unfold auditor.pending_spans. apply filter_In. auto.
    - apply not_true_is_false. intros Hex.
      apply existsb_exists in Hex as (x & Hx & Hxe). apply Z.eqb_eq in Hxe.
      apply in_map_iff in Hx as (s & Hid & Hs).
      unfold auditor.pending_spans in Hs. apply filter_In in Hs as [Hs Hps].
      assert (r = s)
        by (apply (NoDup_map_inj es_id (evidence_spans db)); congruence).
      subst s. unfold is_pending_of in Hp. congruence. }
  exists (auditor.mkAuditStats (auditor.papers_audited stats1 + 1)
            (auditor.spans_verified stats1) (auditor.spans_flagged stats1)
            (auditor.grep_failures stats1)).
  split; [| split; [| split; [cbn; lia | cbn; lia]]].
  - unfold auditor.audit_one. rewrite Htext, Hext. unfold bind.
    fold now in Hrun. rewrite Hrun, Hmap.
    unfold update_status. cbn [papers with_evidence_spans]. rewrite Hrow, Hst.
    cbn. reflexivity.
  - subst db'. unfold auditor.pending_spans. cbn [evidence_spans].
    assert (Hall : forall l : list EvidenceSpanRow,
              (forall r, In r l -> In r (evidence_spans db)) ->
              List.filter
                (fun r => Z.eqb (es_extraction_id r) ext_id
                          && String.eqb (es_audit_status r) "pending")
                (List.map (fun r => if is_pending_of ext_id r
                                    then audited_row semantic_verify paper_text
                                           now r
                                    else r) l) = []).
    { induction l as [| r l IH]; intros Hl; [reflexivity |].
      cbn [List.map List.filter].
      rewrite IH by (intros x Hx; apply Hl; now right).
      destruct (is_pending_of ext_id r) eqn:Hp.
      - unfold audited_row.
        assert (Hin : In r (auditor.pending_spans ext_id db)).
        { unfold auditor.pending_spans. apply filter_In.
          split; [apply Hl; now left | exact Hp]. }
        specialize (Hret r Hin).
        destruct (auditor.audit_span semantic_verify r paper_text) as [v |];
          [| discriminate].
        cbn [set_audit es_extraction_id es_audit_status].
        now rewrite status_text_not_pending, andb_false_r.
      - unfold is_pending_of in Hp. now rewrite Hp. }
    apply Hall. auto.
Qed.

(** X14 at a store with one pending span whose snippet is in the text. *)
Lemma audit_one_effect_witness :
  exists stats',
    auditor.audit_one example_verifier example_parsed_text example_clock
      (example_paper 1 (Some "111") "EXTRACTED")
      (auditor.mkAuditStats 0 0 0 0) example_audit_db
    = (mkDb [set_status "AUDITED" (example_clock 1)
               (example_paper 1 (Some "111") "EXTRACTED")] [] []
            (extractions example_audit_db)
            [mkEvidenceSpanRow 1 1 "study_design" "RCT" "This was an RCT"
               (19 # 20) "verified" (Some "qwen3:32b") (Some "supported")
               (Some (example_clock 1))],
       Return stats')
    /\ auditor.papers_audited stats' = 1.
Proof.
  destruct (audit_one_effect example_verifier example_parsed_text example_clock
              (example_paper 1 (Some "111") "EXTRACTED")
              (example_paper 1 (Some "111") "EXTRACTED")
              (auditor.mkAuditStats 0 0 0 0) example_audit_db
              "Methods. This was an RCT of forty patients." 1)
    as (stats' & Hrun & _ & Hpa & _).
  - apply (bool_decide_unpack _). vm_compute. exact I.
  - reflexivity.
  - reflexivity.
  - reflexivity.
  - reflexivity.
  - intros s [<- | []]. vm_compute. reflexivity.
  - exists stats'. split; [exact Hrun | exact Hpa].
Defined.

(* ================================================================== *)
(** * Properties of the extraction *)

(** ** [parse_thinking_trace] *)

Lemma split_at_first_eq sub s :
  split_at_first sub s
  = if String.prefix sub s then Some ("", drop_chars (String.length sub) s)
    else match s with
         | EmptyString => None
         | String c rest =>
             match split_at_first sub rest with
             | Some (before, after) => Some (String c before, after)
             | None => None
             end
         end.
Proof. destruct s; reflexivity. Qed.

Lemma prefix_app sub rest : String.prefix sub (sub ++ rest) = true.
Proof.
  induction sub as [| c sub IH]; [now destruct rest |].
  rewrite append_cons. cbn [String.prefix].
  destruct (ascii_dec c c); [exact IH | congruence].
Qed.

Lemma drop_chars_app sub rest : drop_chars (String.length sub) (sub ++ rest) = rest.
Proof.
  induction sub as [| c sub IH]; [apply append_nil_l |].
  rewrite append_cons. exact IH.
Qed.

Lemma prefix_no_lt sub c s :
  no_lt c = true -> String.prefix (String "<" sub) (String c s) = false.
Proof.
  unfold no_lt. intros H. cbn [String.prefix].
  destruct (ascii_dec "<" c) as [<- | _]; [discriminate | reflexivity].
Qed.

Lemma split_at_first_none sub s :
  str_forall no_lt s = true -> split_at_first (String "<" sub) s = None.
Proof.
  induction s as [| c s IH]; intros H; [reflexivity |].
  cbn [str_forall] in H. apply andb_true_iff in H as [Hc Hs].
  rewrite split_at_first_eq, (prefix_no_lt _ _ _ Hc), (IH Hs). reflexivity.
Qed.

Lemma split_at_first_here sub pre rest :
  str_forall no_lt pre = true ->
  split_at_first (String "<" sub) (pre ++ String "<" sub ++ rest)
  = Some (pre, rest).
Proof.
  induction pre as [| c pre IH]; intros H.
  - rewrite append_nil_l, split_at_first_eq, prefix_app, drop_chars_app.
    reflexivity.
  - cbn [str_forall] in H. apply andb_true_iff in H as [Hc Hs].
    rewrite append_cons, split_at_first_eq, (prefix_no_lt _ _ _ Hc), (IH Hs).
    reflexivity.
Qed.

(** X15. [parse_thinking_trace] always returns a text without
    whitespace at either end. For angle-bracket-free texts [pre] and
    [inner]: from [pre <think> inner </think> post] it returns [inner]
    stripped, whatever follows; a content with no tag at all is returned
    stripped; and so is, tag included, a content whose opening tag is never
    closed. *)
Theorem parse_thinking_trace_cases (content pre inner post : string) :
  strip (parse_thinking_trace content) = parse_thinking_trace content
  /\ (str_forall no_lt content = true ->
      parse_thinking_trace content = strip content)
  /\ (str_forall no_lt pre = true -> str_forall no_lt inner = true ->
      parse_thinking_trace (pre ++ "<think>" ++ inner ++ "</think>" ++ post)
      = strip inner)
  /\ (str_forall no_lt pre = true -> str_forall no_lt inner = true ->
      parse_thinking_trace (pre ++ "<think>" ++ inner)
      = strip (pre ++ "<think>" ++ inner)).
Proof.
  split; [| split; [| split]].
  - unfold parse_thinking_trace.
    destruct (split_at_first "<think>" content) as [[before after] |];
      [| apply strip_strip].
    destruct (split_at_first "</think>" after) as [[group1 rest] |];
      apply strip_strip.
  - intros H. unfold parse_thinking_trace.
    now rewrite (split_at_first_none "think>" content H).
  - intros Hp Hi. unfold parse_thinking_trace.
    rewrite (split_at_first_here "think>" pre _ Hp).
    now rewrite (split_at_first_here "/think>" inner post Hi).
  - intros Hp Hi. unfold parse_thinking_trace.
    rewrite (split_at_first_here "think>" pre inner Hp).
    now rewrite (split_at_first_none "/think>" inner Hi).
Qed.

Lemma parse_thinking_trace_cases_witness :
  parse_thinking_trace "Sure. <think> The design is an RCT. </think> {}"
  = "The design is an RCT.".
Proof.
  destruct (parse_thinking_trace_cases "" "Sure. " " The design is an RCT. "
              " {}") as (_ & _ & H & _).
  apply H; reflexivity.
Defined.

(** ** What [extract_paper] stores *)

Lemma store_spans_appends ext_id spans : forall db,
  extraction_exists ext_id db = true ->
  Forall (fun s => confidence_in_range (confidence s) = true) spans ->
  store_spans ext_id spans db
  = (with_evidence_spans db
       (evidence_spans db ++
          span_rows ext_id (next_rowid (List.map es_id (evidence_spans db)))
            spans),
     Return tt).
Proof.
  induction spans as [| s rest IH]; intros db Hex Hc.
  - cbn [store_spans span_rows]. rewrite app_nil_r. unfold ret.
    f_equal. unfold with_evidence_spans. symmetry. apply db_eta.
  - apply Forall_cons in Hc as [Hs Hc]. cbn [store_spans span_rows].
    unfold bind at 1. unfold add_evidence_span. rewrite Hex, Hs. cbn [andb].
    rewrite IH; [| exact Hex | exact Hc].
    cbn [evidence_spans with_evidence_spans]. f_equal.
    unfold with_evidence_spans.
    cbn [papers screening_decisions full_text_assets extractions]. f_equal.
    rewrite <- app_assoc. cbn [app]. do 2 f_equal.
    rewrite List.map_app. cbn [List.map es_id]. now rewrite next_rowid_snoc.
Qed.

(** X16. When both model calls return and the paper is stored,
    [extract_paper] returns the fields of the second pass and writes
    exactly: one extraction row for the paper, under the hash of the
    spec's extraction schema and holding the reasoning trace and the
    fields; and one pending evidence span per field, in the order of the
    fields, under consecutive ids and all pointing to that extraction
    row. Papers, screening decisions and assets are untouched.
    (A field's confidence lies in [0, 1]: the second pass validates it.) *)
Theorem extract_paper_stores (sha256_hexdigest : string -> string)
  (build_extraction_prompt : string -> review_spec.ReviewSpec -> string)
  (extract_pass1_reasoning : string -> outcome string)
  (extract_pass2_output :
     string -> string -> review_spec.ReviewSpec -> Z ->
     outcome (list EvidenceSpan))
  (_now : Z -> string) (paper_id : Z) (paper_text : string)
  (spec : review_spec.ReviewSpec) (db : ReviewDatabase) (trace : string)
  (fields : list EvidenceSpan) :
  let prompt := build_extraction_prompt paper_text spec in
  let schema_hash := review_spec.extraction_hash sha256_hexdigest spec in
  let ext_id := next_rowid (List.map e_id (extractions db)) in
  paper_exists paper_id db = true ->
  extract_pass1_reasoning prompt = Return trace ->
  extract_pass2_output prompt trace spec paper_id = Return fields ->
  Forall (fun s => confidence_in_range (confidence s) = true) fields ->
  extract_paper sha256_hexdigest build_extraction_prompt
    extract_pass1_reasoning extract_pass2_output _now paper_id paper_text
    spec db
  = (mkDb (papers db) (screening_decisions db) (full_text_assets db)
       (extractions db ++
          [mkExtraction ext_id paper_id schema_hash fields trace
             EXTRACTOR_MODEL (_now paper_id)])
       (evidence_spans db ++
          span_rows ext_id (next_rowid (List.map es_id (evidence_spans db)))
            fields),
     Return (mkExtractionResult paper_id fields trace EXTRACTOR_MODEL
               schema_hash (_now paper_id))).
Proof.
  intros prompt schema_hash ext_id Hp H1 H2 Hc.
  unfold extract_paper, bind, call. fold prompt. rewrite H1.
  unfold extract_pass2_structured. rewrite H2.
  cbn [er_extraction_schema_hash er_fields].
  unfold add_extraction. rewrite Hp. fold ext_id. fold schema_hash.
  rewrite store_spans_appends; [reflexivity | | exact Hc].
  unfold extraction_exists. cbn [extractions with_extractions].
  rewrite existsb_app. cbn [existsb e_id]. rewrite Z.eqb_refl.
  now rewrite orb_true_r.
Qed.

Lemma extract_paper_stores_witness :
  fst (extract_paper example_digest example_prompt example_pass1 example_pass2
         example_clock 1 "This was an RCT." example_spec
         (mkDb [example_paper 1 (Some "111") "PARSED"] [] [] [] []))
  = mkDb [example_paper 1 (Some "111") "PARSED"] [] []
      [mkExtraction 1 1
         (review_spec.extraction_hash example_digest example_spec)
         example_fields "The paper reports a randomized trial."
         EXTRACTOR_MODEL "t1"]
      [mkEvidenceSpanRow 1 1 "study_design" "RCT" "This was an RCT" (19 # 20)
         "pending" None None None;
       mkEvidenceSpanRow 2 1 "sample_size" "NOT_FOUND" "" 0 "pending" None
         None None].
Proof.
  rewrite (extract_paper_stores example_digest example_prompt example_pass1
             example_pass2 example_clock 1 "This was an RCT." example_spec
             (mkDb [example_paper 1 (Some "111") "PARSED"] [] [] [] [])
             "The paper reports a randomized trial." example_fields);
    try reflexivity.
  repeat constructor.
Defined.

(** ** The counters of [run_extraction] *)

Section ExtractionCounters.
Variable sha256_hexdigest : string -> string.
Variable build_extraction_prompt : string -> review_spec.ReviewSpec -> string.
Variable extract_pass1_reasoning : string -> outcome string.
Variable extract_pass2_output :
  string -> string -> review_spec.ReviewSpec -> Z -> outcome (list EvidenceSpan).
Variable newest_parsed_text : Z -> option (outcome string).
Variable _now : Z -> string.

Let extract_one' :=
  extract_one sha256_hexdigest build_extraction_prompt
    extract_pass1_reasoning extract_pass2_output newest_parsed_text _now.
Let extraction_loop' :=
  extraction_loop sha256_hexdigest build_extraction_prompt
    extract_pass1_reasoning extract_pass2_output newest_parsed_text _now.

(** One paper is one count: extracted, skipped or failed. Only reading
    the parsed text can make the iteration raise. *)
Lemma extract_one_counts spec schema_hash paper stats db :
  match extract_one' spec schema_hash paper stats db with
  | (_, Return stats') =>
      extracted stats' + skipped stats' + x_failed stats'
      = extracted stats + skipped stats + x_failed stats + 1
      /\ extracted stats <= extracted stats'
      /\ skipped stats <= skipped stats'
      /\ x_failed stats <= x_failed stats'
      /\ total_spans stats <= total_spans stats'
  | (_, Raise e) => newest_parsed_text (p_id paper) = Some (Raise e)
  end.
Proof.
  subst extract_one'. unfold extract_one.
  destruct (select_current_extraction _ _ db); [cbn; lia |].
  destruct (newest_parsed_text (p_id paper)) as [[text | e] |];
    [| reflexivity | cbn; lia].
  unfold try_except, bind, ret.
  destruct (extract_paper _ _ _ _ _ _ _ _ db) as [db1 [result | e]];
    [| cbn; lia].
  destruct (update_status _ _ _ db1) as [db2 [[] | e]]; cbn; lia.
Qed.

Lemma extraction_loop_counts spec schema_hash ps : forall stats db,
  match extraction_loop' spec schema_hash ps stats db with
  | (_, Return stats') =>
      extracted stats' + skipped stats' + x_failed stats'
      = extracted stats + skipped stats + x_failed stats
        + Z.of_nat (List.length ps)
      /\ extracted stats <= extracted stats'
      /\ skipped stats <= skipped stats'
      /\ x_failed stats <= x_failed stats'
      /\ total_spans stats <= total_spans stats'
  | (_, Raise e) =>
      exists p, In p ps /\ newest_parsed_text (p_id p) = Some (Raise e)
  end.
Proof.
  subst extraction_loop'.
  induction ps as [| paper rest IH]; intros stats db.
  - cbn. lia.
  - cbn [extraction_loop]. unfold bind.
    pose proof (extract_one_counts spec schema_hash paper stats db) as H1.
    subst extract_one'.
    destruct (extract_one _ _ _ _ _ _ spec schema_hash paper stats db)
      as [db1 [stats1 | e]].
    + specialize (IH stats1 db1).
      destruct (extraction_loop _ _ _ _ _ _ spec schema_hash rest stats1 db1)
        as [db2 [stats2 | e]].
      * cbn [List.length]. lia.
      * destruct IH as (p & Hin & Hp). exists p. split; [now right | exact Hp].
    + exists paper. split; [now left | exact H1].
Qed.

(** X17. [run_extraction] accounts for every PARSED paper: when it
    returns, [extracted + skipped + failed] is the number of papers that
    were PARSED and no counter is negative. Whatever the model calls and
    the store do, it returns unless reading a parsed text raises, the one
    step of the loop that is outside the [try]. *)
Theorem run_extraction_accounts (spec : review_spec.ReviewSpec)
  (db : ReviewDatabase) :
  let run :=
    run_extraction sha256_hexdigest build_extraction_prompt
      extract_pass1_reasoning extract_pass2_output newest_parsed_text _now
      spec db in
  (forall stats, snd run = Return stats ->
     extracted stats + skipped stats + x_failed stats
     = Z.of_nat (List.length (get_papers_by_status "PARSED" db))
     /\ 0 <= extracted stats /\ 0 <= skipped stats /\ 0 <= x_failed stats
     /\ 0 <= total_spans stats)
  /\ (forall e, snd run = Raise e ->
        exists p, In p (get_papers_by_status "PARSED" db)
                  /\ newest_parsed_text (p_id p) = Some (Raise e)).
Proof.
  cbn zeta. unfold run_extraction.
  pose proof (extraction_loop_counts spec
                (review_spec.extraction_hash sha256_hexdigest spec)
                (get_papers_by_status "PARSED" db)
                (mkExtractionStats 0 0 0 0) db) as H.
  subst extraction_loop'.
  destruct (extraction_loop _ _ _ _ _ _ _ _ _ _ db) as [db' [stats' | e']];
    cbn [snd]; split.
  - intros stats [= <-]. cbn in H. lia.
  - discriminate.
  - discriminate.
  - intros e [= <-]. exact H.
Qed.
End ExtractionCounters.

Lemma run_extraction_accounts_witness :
  exists stats,
    snd (run_extraction example_digest example_prompt example_pass1
           example_pass2 example_parsed_text example_clock example_spec
           (mkDb [example_paper 1 (Some "111") "PARSED"] [] [] [] []))
    = Return stats
    /\ extracted stats + skipped stats + x_failed stats = 1.
Proof.
  eexists. split; [vm_compute; reflexivity |].
  apply (run_extraction_accounts example_digest example_prompt example_pass1
           example_pass2 example_parsed_text example_clock example_spec
           (mkDb [example_paper 1 (Some "111") "PARSED"] [] [] [] [])).
  vm_compute. reflexivity.
Defined.

(* ================================================================== *)
(** * Further properties of parsing *)

Section ParsingCounters.
Variable compute_pdf_hash : string -> outcome string.
Variable is_scanned_pdf : string -> outcome bool.
Variable parse_with_docling : string -> outcome string.
Variable parse_with_minicpm : string -> outcome string.
Variable md_path : Z -> Z -> string.
Variable read_md : string -> outcome string.
Variable write_md : string -> string -> outcome unit.
Variable find_pdf : Z -> option string.
Variable _now : Z -> string.

Let parse_pdf' :=
  parse_pdf compute_pdf_hash is_scanned_pdf parse_with_docling
    parse_with_minicpm md_path read_md write_md _now.
Let parse_one' :=
  parse_one compute_pdf_hash is_scanned_pdf parse_with_docling
    parse_with_minicpm md_path read_md write_md find_pdf _now.
Let parse_loop' :=
  parse_loop compute_pdf_hash is_scanned_pdf parse_with_docling
    parse_with_minicpm md_path read_md write_md find_pdf _now.

Lemma route_parser_names pdf_path db db1 markdown parser :
  route_parser is_scanned_pdf parse_with_docling parse_with_minicpm pdf_path db
  = (db1, Return (markdown, parser)) ->
  parser = "minicpm-v" \/ parser = "docling".
Proof.
  unfold route_parser, bind, call, ret.
  destruct (is_scanned_pdf pdf_path) as [[|] |]; [| | discriminate].
  - destruct (parse_with_minicpm pdf_path); [| discriminate].
    intros [= _ _ <-]. now left.
  - destruct (parse_with_docling pdf_path) as [md |]; [| discriminate].
    destruct (Nat.ltb _ _).
    + destruct (parse_with_minicpm pdf_path); [| discriminate].
      intros [= _ _ <-]. now left.
    + intros [= _ _ <-]. now right.
Qed.

Lemma make_ParsedDocument_parser pid path h md parser now v doc :
  make_ParsedDocument pid path h md parser now v = Return doc ->
  parser_used doc = parser /\ (parser = "docling" \/ parser = "qwen2.5vl").
Proof.
  unfold make_ParsedDocument.
  destruct (str_in parser ["docling"; "qwen2.5vl"]) eqn:Hs; [| discriminate].
  destruct (Z.leb 1 v); [| discriminate]. intros [= <-].
  split; [reflexivity |]. apply str_in_true in Hs.
  destruct Hs as [<- | [<- | []]]; auto.
Qed.

(** A document that [parse_pdf] returns always names Docling as its
    parser: the only other name it passes, "minicpm-v", is refused by the
    [ParsedDocument] model. *)
Lemma parse_pdf_returns_docling pdf_path pid db db1 doc :
  parse_pdf' pdf_path pid db = (db1, Return doc) ->
  parser_used doc = "docling".
Proof.
  subst parse_pdf'. unfold parse_pdf, bind, call.
  destruct (compute_pdf_hash pdf_path) as [h |]; [| discriminate].
  destruct (select_existing_version pid h (full_text_assets db)) as [v |].
  - destruct (read_md _); [| discriminate].
    destruct (make_ParsedDocument _ _ _ _ _ _ _) as [d |] eqn:Hd;
      [| discriminate].
    intros [= _ <-]. now apply make_ParsedDocument_parser in Hd as [-> _].
  - destruct (route_parser _ _ _ pdf_path db) as [db0 [[md parser] |]] eqn:Hr;
      [| discriminate].
    destruct (write_md _ md); [| discriminate].
    cbn [fst snd]. destruct (paper_exists pid db0); [| discriminate].
    destruct (make_ParsedDocument _ _ _ _ _ _ _) as [d |] eqn:Hd;
      [| discriminate].
    intros [= _ <-]. apply make_ParsedDocument_parser in Hd as [-> Hd].
    apply route_parser_names in Hr as [-> | ->]; [| reflexivity].
    destruct Hd; discriminate.
Qed.

Lemma parse_one_counts paper stats db :
  exists db1 stats1,
    parse_one' paper stats db = (db1, Return stats1)
    /\ parsed stats1 + failed stats1 = parsed stats + failed stats + 1
    /\ skipped_existing stats1 = skipped_existing stats
    /\ minicpm stats1 = minicpm stats
    /\ parsed stats <= parsed stats1
    /\ failed stats <= failed stats1
    /\ parsed stats1 - parsed stats <= docling stats1 - docling stats <= 1.
Proof.
  subst parse_one'. unfold parse_one.
  destruct (find_pdf (p_id paper)) as [pdf_path |];
    [| do 2 eexists; split; [reflexivity | cbn; lia]].
  pose proof (parse_pdf_returns_docling pdf_path (p_id paper) db) as Hdoc.
  subst parse_pdf'.
  destruct (parse_pdf _ _ _ _ _ _ _ _ _ _ db) as [db1 [doc | e]];
    [| do 2 eexists; split; [reflexivity | cbn; lia]].
  rewrite (Hdoc db1 doc eq_refl). cbn [String.eqb Ascii.eqb Bool.eqb].
  destruct (update_status _ _ _ db1) as [db2 [[] | e]];
    do 2 eexists; (split; [reflexivity | cbn; lia]).
Qed.

Lemma parse_loop_counts ps : forall stats db,
  exists db1 stats1,
    parse_loop' ps stats db = (db1, Return stats1)
    /\ parsed stats1 + failed stats1
       = parsed stats + failed stats + Z.of_nat (List.length ps)
    /\ skipped_existing stats1 = skipped_existing stats
    /\ minicpm stats1 = minicpm stats
    /\ parsed stats <= parsed stats1
    /\ failed stats <= failed stats1
    /\ parsed stats1 - parsed stats <= docling stats1 - docling stats
       <= Z.of_nat (List.length ps).
Proof.
  subst parse_loop'.
  induction ps as [| paper rest IH]; intros stats db.
  - exists db, stats. split; [reflexivity | cbn; lia].
  - cbn [parse_loop]. unfold bind.
    destruct (parse_one_counts paper stats db) as (db1 & stats1 & H0 & H1).
    subst parse_one'. rewrite H0.
    destruct (IH stats1 db1) as (db2 & stats2 & -> & H2).
    exists db2, stats2. split; [reflexivity |]. cbn [List.length]. lia.
Qed.

(** X18. [parse_all_pdfs] always returns, and its counters account for
    every PDF_ACQUIRED paper: [parsed + failed] is their number. The
    counters [skipped_existing] and [minicpm] are 0 in every result: the
    first is never incremented, and no returned document names another
    parser than Docling. [docling] counts every paper whose document was
    returned, so it is at least [parsed]. *)
Theorem parse_all_pdfs_accounts (db : ReviewDatabase) :
  exists db1 stats,
    parse_all_pdfs compute_pdf_hash is_scanned_pdf parse_with_docling
      parse_with_minicpm md_path read_md write_md find_pdf _now db
    = (db1, Return stats)
    /\ parsed stats + failed stats
       = Z.of_nat (List.length (get_papers_by_status "PDF_ACQUIRED" db))
    /\ skipped_existing stats = 0
    /\ minicpm stats = 0
    /\ 0 <= parsed stats <= docling stats
    /\ docling stats
       <= Z.of_nat (List.length (get_papers_by_status "PDF_ACQUIRED" db))
    /\ 0 <= failed stats.
Proof.
  unfold parse_all_pdfs.
  destruct (parse_loop_counts (get_papers_by_status "PDF_ACQUIRED" db)
              (mkParseStats 0 0 0 0 0) db) as (db1 & stats1 & Hrun & H).
  subst parse_loop'. exists db1, stats1. split; [exact Hrun |]. cbn in H. lia.
Qed.

(** X19. A scanned PDF is never parsed at the first attempt. For a
    PDF_ACQUIRED paper whose PDF has a hash that is new for it and is
    routed to MiniCPM-V (here: found scanned), with the model and the file
    write returning: the Markdown is written and the asset row is stored
    with parser "minicpm-v", but building the [ParsedDocument] raises, so
    the runner counts the paper as failed and leaves it PDF_ACQUIRED. The
    next run finds the asset by its hash, reads the Markdown back, reports
    the parser as Docling, and marks the paper PARSED. *)
Theorem scanned_pdf_parsed_on_second_run (paper row : Paper)
  (stats stats' : ParseStats) (db : ReviewDatabase)
  (pdf_path pdf_hash markdown text : string) :
  let pid := p_id paper in
  let version := or_zero (select_last_version pid (full_text_assets db)) + 1 in
  let asset := new_asset md_path _now db pdf_path pid pdf_hash "minicpm-v" in
  let db1 := with_full_text_assets db (full_text_assets db ++ [asset]) in
  select_paper pid (papers db) = Some row ->
  p_status row = "PDF_ACQUIRED" ->
  Forall (fun r => 1 <= fta_parsed_text_version r) (full_text_assets db) ->
  find_pdf pid = Some pdf_path ->
  compute_pdf_hash pdf_path = Return pdf_hash ->
  select_existing_version pid pdf_hash (full_text_assets db) = None ->
  is_scanned_pdf pdf_path = Return true ->
  parse_with_minicpm pdf_path = Return markdown ->
  write_md (md_path pid version) markdown = Return tt ->
  read_md (md_path pid version) = Return text ->
  parse_pdf' pdf_path pid db = (db1, Raise ValidationError)
  /\ parse_one' paper stats db = (db1, Return (add_failed stats))
  /\ parse_one' paper stats' db1
     = (with_papers db1 (sql_update_status pid "PARSED" (_now pid) (papers db)),
        Return (add_parsed (add_docling stats'))).
Proof.
  intros pid version asset db1 Hrow Hst Hver Hpdf Hhash Hnew Hscan Hmini
    Hwrite Hread.
  assert (Hparse : parse_pdf' pdf_path pid db = (db1, Raise ValidationError)).
  { subst parse_pdf'. unfold parse_pdf, bind, call. rewrite Hhash, Hnew.
    unfold route_parser, bind, call, ret. rewrite Hscan, Hmini.
    fold version. rewrite Hwrite. cbn [fst snd].
    rewrite (select_paper_exists pid db row Hrow). reflexivity. }
  split; [exact Hparse |]. split.
  { subst parse_one'. unfold parse_one. fold pid. rewrite Hpdf.
    fold parse_pdf'. now rewrite Hparse. }
  assert (Hv : 1 <= version).
  { subst version. unfold select_last_version.
    destruct (sql_max _) as [m |] eqn:Hm; cbn; [| lia].
    apply sql_max_spec in Hm as [Hin _].
    apply in_map_iff in Hin as (r & <- & Hr). apply filter_In in Hr as [Hr _].
    rewrite List.Forall_forall in Hver. specialize (Hver r Hr). lia. }
  assert (Hfound : select_existing_version pid pdf_hash (full_text_assets db1)
                   = Some version).
  { unfold select_existing_version in *. subst db1.
    cbn [full_text_assets with_full_text_assets].
    rewrite List.filter_app, List.map_app.
    apply sql_max_None in Hnew. rewrite Hnew.
    subst asset. unfold new_asset. cbn [List.filter fta_paper_id fta_pdf_hash].
    now rewrite Z.eqb_refl, String.eqb_refl. }
  subst parse_one'. unfold parse_one. fold pid. rewrite Hpdf.
  unfold parse_pdf, bind, call. rewrite Hhash, Hfound, Hread.
  unfold make_ParsedDocument. cbn [str_in existsb String.eqb Ascii.eqb Bool.eqb orb andb].
  destruct (Z.leb_spec 1 version); [| lia]. cbn [parser_used String.eqb Ascii.eqb Bool.eqb].
  unfold update_status. cbn [papers with_full_text_assets db1].
  fold pid. rewrite Hrow, Hst. reflexivity.
Qed.
End ParsingCounters.

Lemma scanned_pdf_parsed_on_second_run_witness :
  let db := mkDb [example_paper 1 (Some "111") "PDF_ACQUIRED"] [] [] [] [] in
  let parse_one' :=
    parse_one example_hash example_scanned example_docling example_ocr
      example_md_path example_read_md example_write_md example_find_pdf
      example_clock (example_paper 1 (Some "111") "PDF_ACQUIRED") in
  snd (parse_one' (mkParseStats 0 0 0 0 0) db)
  = Return (mkParseStats 0 0 1 0 0)
  /\ snd (parse_one' (mkParseStats 0 0 1 0 0)
            (fst (parse_one' (mkParseStats 0 0 0 0 0) db)))
     = Return (mkParseStats 1 0 1 1 0).
Proof.
  cbn zeta.
  destruct (scanned_pdf_parsed_on_second_run example_hash example_scanned
              example_docling example_ocr example_md_path example_read_md
              example_write_md example_find_pdf example_clock
              (example_paper 1 (Some "111") "PDF_ACQUIRED")
              (example_paper 1 (Some "111") "PDF_ACQUIRED")
              (mkParseStats 0 0 0 0 0) (mkParseStats 0 0 1 0 0)
              (mkDb [example_paper 1 (Some "111") "PDF_ACQUIRED"] [] [] [] [])
              "pdfs/1.pdf" "pdfs/1.pdf" "# Extracted Text" example_markdown)
    as (_ & H1 & H2); try reflexivity; [constructor |].
  cbn zeta in H1, H2. rewrite H1. cbn [fst snd]. rewrite H2. split; reflexivity.
Defined.

(** ** The scanned-page heuristic *)

Lemma total_chars_bounds (page_texts : list string) :
  (Forall (fun t => (_SCANNED_THRESHOLD <= String.length t)%nat) page_texts ->
   (_SCANNED_THRESHOLD * List.length page_texts
    <= fold_right Nat.add 0 (List.map String.length page_texts))%nat)
  /\ (Forall (fun t => (String.length t < _SCANNED_THRESHOLD)%nat) page_texts ->
      page_texts <> [] ->
      (fold_right Nat.add 0 (List.map String.length page_texts)
       < _SCANNED_THRESHOLD * List.length page_texts)%nat).
Proof.
  unfold _SCANNED_THRESHOLD. split.
  - induction 1 as [| t l Ht _ IH]; cbn [List.length List.map fold_right]; lia.
  - induction 1 as [| t l Ht Hl IH]; [congruence |]. intros _.
    cbn [List.length List.map fold_right].
    destruct l as [| t' l']; [cbn; lia |].
    assert (t' :: l' <> []) by discriminate. specialize (IH H). lia.
Qed.

(** X20. The heuristic of [is_scanned_pdf] works on the average: a
    document without pages is scanned; a document is scanned when every
    page has fewer than 100 characters of text and digital when every page
    has at least 100; and whenever it is found digital some page has at
    least 100 characters, whenever it has pages and is found scanned some
    page has fewer. *)
Theorem is_scanned_pages_cases (page_texts : list string) :
  is_scanned_pages [] = true
  /\ (Forall (fun t => (String.length t < 100)%nat) page_texts ->
      is_scanned_pages page_texts = true)
  /\ (page_texts <> [] ->
      Forall (fun t => (100 <= String.length t)%nat) page_texts ->
      is_scanned_pages page_texts = false)
  /\ (is_scanned_pages page_texts = false ->
      Exists (fun t => (100 <= String.length t)%nat) page_texts)
  /\ (page_texts <> [] -> is_scanned_pages page_texts = true ->
      Exists (fun t => (String.length t < 100)%nat) page_texts).
Proof.
  destruct (total_chars_bounds page_texts) as [Hge Hlt].
  unfold _SCANNED_THRESHOLD in *.
  assert (Hcase : forall l : list string,
            Forall (fun t => (String.length t < 100)%nat) l
            \/ Exists (fun t => (100 <= String.length t)%nat) l).
  { induction l as [| t l [IH | IH]]; [left; constructor | |].
    - destruct (Nat.lt_ge_cases (String.length t) 100);
        [left; now constructor | right; now constructor].
    - right. now apply Exists_cons_tl. }
  assert (Hcase' : forall l : list string,
            Forall (fun t => (100 <= String.length t)%nat) l
            \/ Exists (fun t => (String.length t < 100)%nat) l).
  { induction l as [| t l [IH | IH]]; [left; constructor | |].
    - destruct (Nat.lt_ge_cases (String.length t) 100);
        [right; now constructor | left; now constructor].
    - right. now apply Exists_cons_tl. }
  unfold is_scanned_pages, _SCANNED_THRESHOLD.
  split; [reflexivity |]. split; [| split; [| split]].
  - intros H. destruct page_texts as [| t l]; [reflexivity |].
    cbn [List.length Nat.eqb]. apply Nat.ltb_lt. apply Hlt; [exact H | discriminate].
  - intros Hne H. destruct page_texts as [| t l]; [congruence |].
    cbn [List.length Nat.eqb]. apply Nat.ltb_ge. now apply Hge.
  - intros H. destruct (Hcase page_texts) as [Hall | Hex]; [| exact Hex].
    exfalso. destruct page_texts as [| t l]; [discriminate |].
    cbn [List.length Nat.eqb] in H. apply Nat.ltb_ge in H.
    specialize (Hlt Hall ltac:(discriminate)). cbn [List.length] in Hlt. lia.
  - intros Hne H. destruct (Hcase' page_texts) as [Hall | Hex]; [| exact Hex].
    exfalso. destruct page_texts as [| t l]; [congruence |].
    cbn [List.length Nat.eqb] in H. apply Nat.ltb_lt in H.
    specialize (Hge Hall). cbn [List.length] in Hge. lia.
Qed.

Lemma is_scanned_pages_cases_witness :
  is_scanned_pages ["Page 1 of 2"; ""] = true.
Proof.
  apply (is_scanned_pages_cases ["Page 1 of 2"; ""]).
  repeat constructor.
Defined.

(* ================================================================== *)
(** * The search stage of the pipeline *)

Lemma ingested_length cits : forall seen,
  (List.length (ingested seen cits) <= List.length cits)%nat.
Proof.
  induction cits as [| c cits IH]; intros seen; cbn [ingested List.length];
    [lia |].
  destruct (pmid c) as [s |].
  - destruct (str_in s seen); cbn [List.length].
    + specialize (IH seen). lia.
    + specialize (IH (seen ++ [s])%list). lia.
  - cbn [List.length]. specialize (IH seen). lia.
Qed.

Lemma slice_to_length {A} (limit : Z) (l : list A) :
  (List.length (slice_to limit l) <= List.length l)%nat
  /\ (0 <= limit -> Z.of_nat (List.length (slice_to limit l)) <= limit).
Proof.
  unfold slice_to. destruct (Z.ltb_spec limit 0); rewrite length_take; lia.
Qed.

(** X21. [_stage_search] returns exactly when both search clients
    return, and its report is then consistent: it holds the numbers of
    PubMed and OpenAlex citations, which add up to the unique count plus
    the duplicates; the number of papers added is the number of rows
    appended to the papers table (all INGESTED, nothing else is touched),
    it is at most the unique count and, under a positive [--limit], at
    most the limit. When [search_pubmed] raises, or [search_openalex]
    raises after [search_pubmed] has returned, the stage raises that
    exception and the store is as it was: the citations PubMed returned
    are not stored. A limit of 0 is no limit: the stage then does what it
    does without the option. *)
Theorem stage_search_report
  (search_pubmed search_openalex
     : review_spec.ReviewSpec -> outcome (list Citation))
  (spec : review_spec.ReviewSpec) (limit : option Z) (now : string)
  (db : ReviewDatabase) :
  let run := _stage_search search_pubmed search_openalex spec limit now db in
  (forall pm_cits oa_cits,
     search_pubmed spec = Return pm_cits ->
     search_openalex spec = Return oa_cits ->
     exists report rows,
       run = (with_papers db (papers db ++ rows), Return report)
       /\ Forall (fun r => p_status r = "INGESTED") rows
       /\ report_added report = Z.of_nat (List.length rows)
       /\ report_pubmed report = List.length pm_cits
       /\ report_openalex report = List.length oa_cits
       /\ (report_pubmed report + report_openalex report
           = report_unique report + report_duplicates report)%nat
       /\ report_added report <= Z.of_nat (report_unique report)
       /\ (forall n, limit = Some n -> 0 < n -> report_added report <= n))
  /\ (forall exc, search_pubmed spec = Raise exc -> run = (db, Raise exc))
  /\ (forall pm_cits exc,
        search_pubmed spec = Return pm_cits ->
        search_openalex spec = Raise exc -> run = (db, Raise exc))
  /\ (is_raise (snd run) = false
      <-> is_raise (search_pubmed spec) = false
          /\ is_raise (search_openalex spec) = false)
  /\ _stage_search search_pubmed search_openalex spec (Some 0) now db
     = _stage_search search_pubmed search_openalex spec None now db.
Proof.
  cbn zeta.
  assert (Hreturn : forall pm_cits oa_cits,
     search_pubmed spec = Return pm_cits ->
     search_openalex spec = Return oa_cits ->
     exists report rows,
       _stage_search search_pubmed search_openalex spec limit now db
       = (with_papers db (papers db ++ rows), Return report)
       /\ Forall (fun r => p_status r = "INGESTED") rows
       /\ report_added report = Z.of_nat (List.length rows)
       /\ report_pubmed report = List.length pm_cits
       /\ report_openalex report = List.length oa_cits
       /\ (report_pubmed report + report_openalex report
           = report_unique report + report_duplicates report)%nat
       /\ report_added report <= Z.of_nat (report_unique report)
       /\ (forall n, limit = Some n -> 0 < n -> report_added report <= n)).
  { intros pm_cits oa_cits Hpm Hoa.
    unfold _stage_search, bind, call, add_papers. rewrite Hpm, Hoa.
    set (unique := match limit with
                   | Some n => if Z.eqb n 0
                               then unique_citations (deduplicate pm_cits oa_cits)
                               else slice_to n (unique_citations
                                                  (deduplicate pm_cits oa_cits))
                   | None => unique_citations (deduplicate pm_cits oa_cits)
                   end).
    rewrite add_papers_loop_spec. unfold ret.
    eexists _, _. split; [reflexivity |].
    cbn [report_added report_pubmed report_openalex report_unique
         report_duplicates].
    rewrite rows_from_length.
    pose proof (ingested_length unique (stored_pmids (papers db))) as Hle.
    destruct (deduplicate_accounts_lengths pm_cits oa_cits) as [Hsum Hu].
    assert (Hul : (List.length unique
                   <= List.length
                        (unique_citations (deduplicate pm_cits oa_cits)))%nat).
    { subst unique. destruct limit as [n |]; [| lia].
      destruct (Z.eqb n 0); [lia | apply slice_to_length]. }
    split; [apply rows_from_ingested |]. split; [lia |].
    split; [reflexivity |]. split; [reflexivity |].
    split; [lia |]. split; [lia |].
    intros n -> Hn. subst unique. destruct (Z.eqb_spec n 0); [lia |].
    pose proof (proj2 (slice_to_length n
                         (unique_citations (deduplicate pm_cits oa_cits)))
                  ltac:(lia)).
    lia. }
  split; [exact Hreturn |].
  split; [intros exc Hpm; unfold _stage_search, bind, call; now rewrite Hpm |].
  split; [intros pm_cits exc Hpm Hoa; unfold _stage_search, bind, call;
          now rewrite Hpm, Hoa |].
  split; [| unfold _stage_search; reflexivity].
  destruct (search_pubmed spec) as [pm_cits | exc] eqn:Hpm.
  - destruct (search_openalex spec) as [oa_cits | exc] eqn:Hoa.
    + destruct (Hreturn pm_cits oa_cits eq_refl eq_refl)
        as (report & rows & -> & _). cbn. tauto.
    + unfold _stage_search, bind, call. rewrite Hpm, Hoa. cbn.
      split; [discriminate | intros [_ H]; discriminate].
  - unfold _stage_search, bind, call. rewrite Hpm. cbn.
    split; [discriminate | intros [H _]; discriminate].
Qed.

(** X21 with each client returning one record, the two being duplicates,
    and with an OpenAlex client that is down. *)
Lemma stage_search_report_witness :
  (exists report,
     snd (_stage_search example_search_pubmed example_search_openalex
            example_spec (Some 1) "t0" empty_db) = Return report
     /\ report_pubmed report = 1%nat /\ report_openalex report = 1%nat
     /\ report_added report <= 1)
  /\ _stage_search example_search_pubmed example_openalex_down example_spec
       (Some 1) "t0" empty_db
     = (empty_db, Raise (CollaboratorError "HTTP 503")).
Proof.
  destruct (stage_search_report example_search_pubmed example_search_openalex
              example_spec (Some 1) "t0" empty_db) as (Hret & _).
  destruct (stage_search_report example_search_pubmed example_openalex_down
              example_spec (Some 1) "t0" empty_db) as (_ & _ & Hdown & _).
  split.
  - destruct (Hret [example_primary] [example_secondary] eq_refl eq_refl)
      as (report & rows & Hrun & _ & _ & Hpm & Hoa & _ & _ & Hlim).
    exists report. split; [now rewrite Hrun |].
    split; [exact Hpm |]. split; [exact Hoa |].
    apply (Hlim 1); [reflexivity | lia].
  - exact (Hdown [example_primary] _ eq_refl eq_refl).
Defined.

(* ================================================================== *)
(** * Further properties of screening *)





Section ScreeningCounters.
Variable screen_paper :
  Paper -> review_spec.ReviewSpec -> Z -> outcome ScreeningDecision.
Variable _now : Z -> string.
Variable spec : review_spec.ReviewSpec.



End ScreeningCounters.


(* ================================================================== *)
(** * A validated review spec and the extraction prompt *)

Lemma tiers_partition (l : list review_spec.ExtractionField) :
  Forall (fun f => 1 <= review_spec.tier f <= 3) l ->
  Permutation
    (List.filter (fun f => Z.eqb (review_spec.tier f) 1) l
     ++ List.filter (fun f => Z.eqb (review_spec.tier f) 2) l
     ++ List.filter (fun f => Z.eqb (review_spec.tier f) 3) l)
    l.
Proof.
  induction 1 as [| f l Hf _ IH]; [constructor |].
  cbn [List.filter].
  destruct (Z.eqb_spec (review_spec.tier f) 1),
    (Z.eqb_spec (review_spec.tier f) 2), (Z.eqb_spec (review_spec.tier f) 3);
    try lia.
  - cbn [app]. apply perm_skip, IH.
  - rewrite <- app_comm_cons, <- Permutation_middle. apply perm_skip, IH.
  - rewrite app_assoc, <- Permutation_middle, <- app_assoc. apply perm_skip, IH.
Qed.

Lemma prompt_blocks_lines spec :
  flat_map (fun lines => tl lines) (prompt_blocks spec)
  = List.map field_line
      (review_spec.fields_by_tier (review_spec.extraction_schema spec) 1
       ++ review_spec.fields_by_tier (review_spec.extraction_schema spec) 2
       ++ review_spec.fields_by_tier (review_spec.extraction_schema spec) 3).
Proof.
  unfold prompt_blocks. cbn [omap list_omap]. generalize field_line as line.
  intros line.
  destruct (review_spec.fields_by_tier _ 1) as [| a1 l1];
    destruct (review_spec.fields_by_tier _ 2) as [| a2 l2];
    destruct (review_spec.fields_by_tier _ 3) as [| a3 l3];
    cbn [flat_map tl app]; rewrite ?app_nil_r;
    repeat (rewrite List.map_app || rewrite List.map_cons);
    reflexivity.
Qed.

(** X23. What validation guarantees to the prompt builder. A spec that
    [load_review_spec] accepts is returned as it is, has every tier
    within 1..3, at least one tier-1 field and a date range of two years
    in order; the prompt built from it then has a block for tier 1 and one
    line for every field of the schema, none lost and none twice. A field
    with a tier outside 1..3, which the prompt's tier loop would skip, a
    schema without tier-1 field or a date range out of order are
    refused. *)
Theorem validated_spec_prompt (raw : review_spec.ReviewSpec) :
  let fields := review_spec.fields (review_spec.extraction_schema raw) in
  (forall spec, model_validate raw = Return spec ->
     spec = raw
     /\ Forall (fun f => 1 <= review_spec.tier f <= 3) fields
     /\ review_spec.fields_by_tier (review_spec.extraction_schema raw) 1 <> []
     /\ (exists start stop,
           review_spec.date_range (review_spec.search_strategy raw)
           = [start; stop] /\ start <= stop)
     /\ prompt_blocks raw <> []
     /\ Permutation (flat_map (fun lines => tl lines) (prompt_blocks raw))
          (List.map field_line fields))
  /\ (Exists (fun f => review_spec.tier f < 1 \/ 3 < review_spec.tier f) fields
      \/ review_spec.fields_by_tier (review_spec.extraction_schema raw) 1 = []
      \/ (forall start stop,
            review_spec.date_range (review_spec.search_strategy raw)
            = [start; stop] -> stop < start) ->
      model_validate raw = Raise ValidationError).
Proof.
  cbn zeta. unfold model_validate. split.
  - intros spec H.
    destruct (forallb validate_field _) eqn:Hf; [| discriminate].
    destruct (at_least_one_tier1 _) eqn:H1; [| discriminate].
    destruct (valid_date_range _) eqn:Hd; [| discriminate].
    injection H as <-. split; [reflexivity |].
    assert (Htiers : Forall (fun f => 1 <= review_spec.tier f <= 3)
                       (review_spec.fields (review_spec.extraction_schema raw))).
    { apply List.Forall_forall. intros f Hin.
      rewrite forallb_forall in Hf. specialize (Hf f Hin).
      unfold validate_field in Hf. apply andb_true_iff in Hf as [Ha Hb].
      apply Z.leb_le in Ha, Hb. lia. }
    assert (Hne : review_spec.fields_by_tier (review_spec.extraction_schema raw) 1
                  <> []).
    { unfold at_least_one_tier1 in H1. apply existsb_exists in H1 as (f & Hin & Ht).
      unfold review_spec.fields_by_tier. intros Hnil.
      assert (Hin' : In f (List.filter
                             (fun f => Z.eqb (review_spec.tier f) 1)
                             (review_spec.fields (review_spec.extraction_schema raw))))
        by (apply filter_In; auto).
      rewrite Hnil in Hin'. destruct Hin'. }
    split; [exact Htiers |]. split; [exact Hne |]. split.
    { unfold valid_date_range in Hd.
      destruct (review_spec.date_range _) as [| start [| stop [| x l]]];
        try discriminate.
      exists start, stop. split; [reflexivity |].
      apply negb_true_iff, Z.ltb_ge in Hd. exact Hd. }
    split.
    { unfold prompt_blocks. cbn [omap list_omap].
      destruct (review_spec.fields_by_tier _ 1); [congruence | discriminate]. }
    rewrite prompt_blocks_lines. apply Permutation_map.
    unfold review_spec.fields_by_tier. now apply tiers_partition.
  - intros [Hex | [Hno | Hdate]].
    + assert (Hf : forallb validate_field
                     (review_spec.fields (review_spec.extraction_schema raw))
                   = false).
      { apply not_true_is_false. intros Hf. rewrite forallb_forall in Hf.
        apply List.Exists_exists in Hex as (f & Hin & Ht). specialize (Hf f Hin).
        unfold validate_field in Hf. apply andb_true_iff in Hf as [Ha Hb].
        apply Z.leb_le in Ha, Hb. lia. }
      now rewrite Hf.
    + assert (H1 : at_least_one_tier1
                     (review_spec.fields (review_spec.extraction_schema raw))
                   = false).
      { apply not_true_is_false. intros H1. unfold at_least_one_tier1 in H1.
        apply existsb_exists in H1 as (f & Hin & Ht).
        unfold review_spec.fields_by_tier in Hno.
        assert (Hin' : In f (List.filter
                               (fun f => Z.eqb (review_spec.tier f) 1)
                               (review_spec.fields
                                  (review_spec.extraction_schema raw))))
          by (apply filter_In; auto).
        rewrite Hno in Hin'. destruct Hin'. }
      rewrite H1. now rewrite andb_false_r.
    + assert (Hd : valid_date_range
                     (review_spec.date_range (review_spec.search_strategy raw))
                   = false).
      { unfold valid_date_range.
        destruct (review_spec.date_range _) as [| start [| stop [| x l]]];
          try reflexivity.
        specialize (Hdate start stop eq_refl).
        apply negb_false_iff, Z.ltb_lt. exact Hdate. }
      rewrite Hd. now rewrite andb_false_r.
Qed.

Lemma validated_spec_prompt_witness :
  prompt_blocks example_spec <> []
  /\ model_validate example_spec = Return example_spec.
Proof.
  split; [| reflexivity].
  destruct (validated_spec_prompt example_spec) as [H _].
  apply (H example_spec). reflexivity.
Defined.

(* ================================================================== *)
(** * The canonical JSON of the protocol hashes *)

Lemma ascii_compare_trans (a b c : ascii) :
  Ascii.compare a b <> Gt -> Ascii.compare b c <> Gt ->
  Ascii.compare a c <> Gt
  /\ (Ascii.compare a c = Eq ->
      Ascii.compare a b = Eq /\ Ascii.compare b c = Eq).
Proof.
  unfold Ascii.compare.
  destruct (N.compare_spec (N_of_ascii a) (N_of_ascii b)),
    (N.compare_spec (N_of_ascii b) (N_of_ascii c)),
    (N.compare_spec (N_of_ascii a) (N_of_ascii c));
    intros; split; intros; try congruence; try lia; auto.
Qed.

Lemma string_leb_trans s1 : forall s2 s3,
  String.leb s1 s2 = true -> String.leb s2 s3 = true -> String.leb s1 s3 = true.
Proof.
  unfold String.leb.
  induction s1 as [| c1 s1 IH]; intros [| c2 s2] [| c3 s3]; cbn [String.compare];
    try reflexivity; try discriminate.
  intros H12 H23.
  assert (A12 : Ascii.compare c1 c2 <> Gt)
    by (destruct (Ascii.compare c1 c2); congruence).
  assert (A23 : Ascii.compare c2 c3 <> Gt)
    by (destruct (Ascii.compare c2 c3); congruence).
  destruct (ascii_compare_trans c1 c2 c3 A12 A23) as [A13 Aeq].
  destruct (Ascii.compare c1 c3) eqn:E13; [| reflexivity | congruence].
  destruct (Aeq eq_refl) as [E12 E23]. rewrite E12 in H12. rewrite E23 in H23.
  now apply (IH s2 s3).
Qed.

(** Inserting two items under different keys gives the same list in
    either order. *)
Lemma insert_by_key_comm {A} (x y : string * A) (l : list (string * A)) :
  fst x <> fst y ->
  insert_by_key x (insert_by_key y l) = insert_by_key y (insert_by_key x l).
Proof.
  intros Hne.
  assert (Hxy : String.leb (fst x) (fst y) = true ->
                String.leb (fst y) (fst x) = false).
  { intros H. apply not_true_is_false. intros H'.
    apply Hne. now apply String.leb_antisym. }
  assert (Hcases : (String.leb (fst x) (fst y) = true
                    /\ String.leb (fst y) (fst x) = false)
                   \/ (String.leb (fst x) (fst y) = false
                       /\ String.leb (fst y) (fst x) = true)).
  { destruct (String.leb (fst x) (fst y)) eqn:E; [left; auto | right].
    destruct (String.leb_total (fst x) (fst y)) as [H | H]; [congruence | auto]. }
  induction l as [| a l IH]; cbn [insert_by_key].
  - destruct Hcases as [[-> ->] | [-> ->]]; reflexivity.
  - destruct (String.leb (fst y) (fst a)) eqn:Eya,
      (String.leb (fst x) (fst a)) eqn:Exa; cbn [insert_by_key];
      rewrite ?Eya, ?Exa.
    + destruct Hcases as [[-> ->] | [-> ->]]; reflexivity.
    + destruct Hcases as [[Hle _] | [-> _]]; [| reflexivity].
      pose proof (string_leb_trans _ _ _ Hle Eya). congruence.
    + destruct Hcases as [[_ ->] | [_ Hle]]; [reflexivity |].
      pose proof (string_leb_trans _ _ _ Hle Exa). congruence.
    + now rewrite IH.
Qed.

Lemma sort_by_key_permutation {A} (l l' : list (string * A)) :
  Permutation l l' -> NoDup (List.map fst l) ->
  sort_by_key l = sort_by_key l'.
Proof.
  unfold sort_by_key.
  induction 1 as [| x l l' Hp IH | x y l | l l' l'' Hp1 IH1 Hp2 IH2];
    intros Hnd.
  - reflexivity.
  - cbn [List.map] in Hnd. apply NoDup_cons in Hnd as [_ Hnd].
    cbn [fold_right]. now rewrite IH.
  - cbn [fold_right]. apply insert_by_key_comm.
    cbn [List.map] in Hnd. apply NoDup_cons in Hnd as [Hfresh _].
    intros E. apply Hfresh. rewrite E. apply list_elem_of_In. now left.
  - rewrite IH1 by exact Hnd. apply IH2.
    assert (Hm : Permutation (List.map fst l) (List.map fst l'))
      by now apply Permutation_map.
    now rewrite <- Hm.
Qed.

(** X24. The canonical hash of a dict does not depend on the order of
    its keys: two dicts with the same items (keys being distinct, as they
    are in a dict) in any order have the same canonical JSON and so the
    same hash, whatever the digest function. *)
Theorem canonical_hash_key_order (sha256_hexdigest : string -> string)
  (items items' : list (string * json)) :
  Permutation items items' -> NoDup (List.map fst items) ->
  json_dumps (JDict items) = json_dumps (JDict items')
  /\ review_spec._canonical_hash sha256_hexdigest (JDict items)
     = review_spec._canonical_hash sha256_hexdigest (JDict items').
Proof.
  intros Hp Hnd.
  assert (H : json_dumps (JDict items) = json_dumps (JDict items')).
  { cbn [json_dumps]. do 4 f_equal.
    apply sort_by_key_permutation.
    - now apply Permutation_map.
    - rewrite List.map_map. cbn [fst]. exact Hnd. }
  split; [exact H |]. unfold review_spec._canonical_hash. now rewrite H.
Qed.

Lemma canonical_hash_key_order_witness :
  json_dumps (JDict [("inclusion", JList [JStr "robotic surgery"]);
                     ("exclusion", JList [])])
  = json_dumps (JDict [("exclusion", JList []);
                       ("inclusion", JList [JStr "robotic surgery"])]).
Proof.
  apply (canonical_hash_key_order example_digest).
  - apply perm_swap.
  - apply (bool_decide_unpack _). vm_compute. exact I.
Defined.

(* ================================================================== *)
(** * Which parsed text is read *)

Lemma append_assoc (s1 s2 s3 : string) : (s1 ++ s2) ++ s3 = s1 ++ s2 ++ s3.
Proof.
  induction s1 as [| c s1 IH]; [now rewrite !append_nil_l |].
  now rewrite !append_cons, IH.
Qed.

Lemma length_append (s1 s2 : string) :
  String.length (s1 ++ s2) = (String.length s1 + String.length s2)%nat.
Proof.
  induction s1 as [| c s1 IH]; [now rewrite append_nil_l |].
  rewrite append_cons. cbn [String.length]. now rewrite IH.
Qed.

Lemma ends_with_app (s suffix : string) : ends_with suffix (s ++ suffix) = true.
Proof.
  unfold ends_with. rewrite length_append.
  replace (String.length s + String.length suffix - String.length suffix)%nat
    with (String.length s) by lia.
  rewrite drop_chars_app, String.eqb_refl.
  apply andb_true_iff. split; [apply Nat.leb_le; lia | reflexivity].
Qed.

Lemma glob_md_name pid version : glob_md pid (md_name pid version) = true.
Proof.
  unfold glob_md, md_name.
  rewrite <- (append_assoc (dumps_int pid) "_v").
  now rewrite prefix_app, drop_chars_app, ends_with_app.
Qed.

Lemma string_leb_refl s : String.leb s s = true.
Proof. now destruct (String.leb_total s s). Qed.

Lemma compare_app (p s1 s2 : string) :
  String.compare (p ++ s1) (p ++ s2) = String.compare s1 s2.
Proof.
  induction p as [| c p IH]; [now rewrite !append_nil_l |].
  rewrite !append_cons. cbn [String.compare].
  unfold Ascii.compare. now rewrite N.compare_refl.
Qed.

Lemma first_descending_app (p : string) (names : list string) :
  first_descending (List.map (String.append p) names)
  = option_map (String.append p) (first_descending names).
Proof.
  induction names as [| name names IH]; [reflexivity |].
  cbn [List.map first_descending fold_right] in *.
  fold (first_descending (List.map (String.append p) names)).
  fold (first_descending names). rewrite IH.
  destruct (first_descending names) as [other |]; [| reflexivity].
  cbn [option_map]. unfold String.leb. rewrite compare_app.
  now destruct (String.compare other name).
Qed.

Lemma first_descending_largest (names : list string) (best : string) :
  first_descending names = Some best ->
  In best names /\ forall name, In name names -> String.leb name best = true.
Proof.
  revert best. induction names as [| a names IH]; intros best; [discriminate |].
  cbn [first_descending fold_right]. fold (first_descending names).
  destruct (first_descending names) as [other |] eqn:Hrest.
  - destruct (IH other eq_refl) as [Hin Hmax].
    destruct (String.leb other a) eqn:Hle; intros [= <-].
    + split; [now left |]. intros name [<- | Hn]; [apply string_leb_refl |].
      eapply string_leb_trans; [apply Hmax, Hn | exact Hle].
    + split; [now right |]. intros name [E | Hn]; [subst name | now apply Hmax].
      destruct (String.leb_total other a); [congruence | assumption].
  - intros [= <-]. split; [now left |].
    destruct names as [| b names]; [| cbn in Hrest;
      destruct (fold_right _ None names); [destruct (String.leb _ _) |];
      discriminate].
    intros name [<- | []]. apply string_leb_refl.
Qed.

Lemma newest_md_file_versions pid versions :
  newest_md_file pid (List.map (md_name pid) versions)
  = option_map (String.append (dumps_int pid))
      (first_descending
         (List.map (fun v => "_v" ++ dumps_int v ++ ".md") versions)).
Proof.
  unfold newest_md_file.
  assert (Hall : List.filter (glob_md pid) (List.map (md_name pid) versions)
                 = List.map (md_name pid) versions).
  { induction versions as [| v versions IH]; [reflexivity |].
    cbn [List.map List.filter]. now rewrite glob_md_name, IH. }
  rewrite Hall, <- first_descending_app, List.map_map. reflexivity.
Qed.

(** X25. The parsed text that [run_extraction] and [run_audit] read is
    the file whose name is largest, not the one with the largest version:
    [md_files[0]] is a file that matches the pattern and whose name no
    other matching file exceeds. With the versions 1, ..., n that
    [parse_pdf] writes for a paper, this is version n up to n = 9, but
    version 9 for every n from 10 to 89, because "9" sorts after "10". *)
Theorem newest_md_file_by_name (pid : Z) (dir : list string) (n : nat) :
  (forall name, newest_md_file pid dir = Some name ->
     In name dir /\ glob_md pid name = true
     /\ forall other, In other dir -> glob_md pid other = true ->
                      String.leb other name = true)
  /\ ((1 <= n <= 9)%nat ->
      newest_md_file pid (List.map (md_name pid) (one_to n))
      = Some (md_name pid (Z.of_nat n)))
  /\ ((10 <= n <= 89)%nat ->
      newest_md_file pid (List.map (md_name pid) (one_to n))
      = Some (md_name pid 9)).
Proof.
  split; [| split].
  - unfold newest_md_file. intros name H.
    apply first_descending_largest in H as [Hin Hmax].
    apply filter_In in Hin as [Hin Hg]. repeat split; try assumption.
    intros other Ho Hgo. apply Hmax. apply filter_In. auto.
  - intros Hn. rewrite newest_md_file_versions.
    do 10 (destruct n as [| n]; [try lia; vm_compute; reflexivity |]). lia.
  - intros Hn. rewrite newest_md_file_versions. unfold md_name.
    do 90 (destruct n as [| n];
           [try lia;
            match goal with
            | |- option_map _ ?x = _ =>
                let y := eval vm_compute in x in change x with y
            end; reflexivity |]).
    lia.
Qed.

Lemma newest_md_file_by_name_witness :
  newest_md_file 7 (List.map (md_name 7) (one_to 12)) = Some "7_v9.md".
Proof.
  apply (newest_md_file_by_name 7 [] 12). lia.
Defined.

(* ================================================================== *)
(** * The evidence table *)

Lemma insert_by_id_perm p l : Permutation (insert_by_id p l) (p :: l).
Proof.
  induction l as [| q l IH]; [reflexivity |]. cbn [insert_by_id].
  destruct (Z.leb (p_id p) (p_id q)); [reflexivity |].
  rewrite IH. apply perm_swap.
Qed.

Lemma order_by_id_perm ps : Permutation (order_by_id ps) ps.
Proof.
  unfold order_by_id. induction ps as [| p ps IH]; [reflexivity |].
  cbn [fold_right]. rewrite insert_by_id_perm. now apply perm_skip.
Qed.

Lemma insert_by_id_ascending p l :
  ascending_ids (List.map p_id l) ->
  ascending_ids (List.map p_id (insert_by_id p l)).
Proof.
  induction l as [| q l IH]; intros Hl; [cbn; auto |].
  cbn [insert_by_id]. cbn [List.map ascending_ids] in Hl. destruct Hl as [Hq Hl].
  destruct (Z.leb_spec (p_id p) (p_id q)).
  - cbn [List.map ascending_ids]. repeat split; try assumption.
    constructor; [assumption |].
    eapply List.Forall_impl; [| exact Hq]. cbn. intros; lia.
  - cbn [List.map ascending_ids]. split; [| now apply IH].
    assert (Hperm : Permutation (List.map p_id (insert_by_id p l))
                      (p_id p :: List.map p_id l)).
    { rewrite insert_by_id_perm. reflexivity. }
    rewrite Hperm. constructor; [lia | exact Hq].
Qed.

Lemma order_by_id_ascending ps : ascending_ids (List.map p_id (order_by_id ps)).
Proof.
  unfold order_by_id. induction ps as [| p ps IH]; [exact I |].
  cbn [fold_right]. now apply insert_by_id_ascending.
Qed.

Lemma field_cells_length span_map fname :
  List.length (field_cells span_map fname) = 4%nat.
Proof. unfold field_cells. now destruct (span_map !! fname). Qed.

Lemma flat_map_length4 {A B} (f : A -> list B) (l : list A) :
  (forall x, List.length (f x) = 4%nat) ->
  List.length (flat_map f l) = (4 * List.length l)%nat.
Proof.
  intros H. induction l as [| x l IH]; [reflexivity |].
  cbn [flat_map]. rewrite length_app, H, IH. cbn [List.length]. lia.
Qed.

Lemma no_span_cells (field_names : list string) :
  flat_map (field_cells ∅) field_names
  = repeat (CText "") (4 * List.length field_names).
Proof.
  induction field_names as [| f l IH]; [reflexivity |].
  cbn [flat_map List.length]. rewrite IH.
  replace (4 * S (List.length l))%nat with (4 + 4 * List.length l)%nat by lia.
  reflexivity.
Qed.

(** X26. The evidence table is rectangular and complete. The header
    has seven base columns and four columns per extraction field, and
    every row has as many cells as the header. There is exactly one row
    for each paper that is EXTRACTED or AUDITED, in ascending order of
    paper id, beginning with the seven base cells of the paper; the row of
    a paper without extraction has an empty text in every field column. *)
Theorem evidence_rows_rectangular (db : ReviewDatabase)
  (spec : review_spec.ReviewSpec) :
  let fields := review_spec.fields (review_spec.extraction_schema spec) in
  let headers := fst (_build_evidence_rows db spec) in
  let rows := snd (_build_evidence_rows db spec) in
  List.length headers = (7 + 4 * List.length fields)%nat
  /\ Forall (fun row => List.length row = List.length headers) rows
  /\ exists included,
       Permutation included
         (List.filter (fun p => str_in (p_status p) ["EXTRACTED"; "AUDITED"])
            (papers db))
       /\ ascending_ids (List.map p_id included)
       /\ List.map (firstn 7) rows = List.map base_cells included
       /\ List.length rows
          = (List.length (get_papers_by_status "EXTRACTED" db)
             + List.length (get_papers_by_status "AUDITED" db))%nat
       /\ forall i p row,
            included !! i = Some p -> rows !! i = Some row ->
            max_extraction_id (p_id p) (extractions db) = None ->
            row = (base_cells p
                   ++ repeat (CText "") (4 * List.length fields))%list.
Proof.
  cbn zeta. unfold _build_evidence_rows. cbn [fst snd].
  set (field_names := List.map review_spec.name
         (review_spec.fields (review_spec.extraction_schema spec))).
  assert (Hn : List.length field_names
               = List.length (review_spec.fields
                                (review_spec.extraction_schema spec)))
    by apply length_map.
  assert (Hh : List.length
                 (List.app
                    ["paper_id"; "pmid"; "doi"; "title"; "authors"; "year";
                     "journal"]
                    (flat_map
                       (fun fname =>
                          [fname; fname ++ "_snippet"; fname ++ "_confidence";
                           fname ++ "_audit"]) field_names))
               = (7 + 4 * List.length field_names)%nat).
  { rewrite length_app, flat_map_length4 by reflexivity. reflexivity. }
  rewrite Hh, Hn. split; [reflexivity |]. split.
  { apply List.Forall_map. apply List.Forall_forall. intros p _.
    rewrite length_app, flat_map_length4 by apply field_cells_length.
    cbn [List.length]. lia. }
  set (kept := List.filter
                 (fun p => str_in (p_status p) ["EXTRACTED"; "AUDITED"])
                 (papers db)).
  exists (order_by_id kept).
  split; [apply order_by_id_perm |]. split; [apply order_by_id_ascending |].
  split.
  { rewrite List.map_map. apply map_ext. intros p. reflexivity. }
  split.
  { rewrite length_map, (Permutation_length (order_by_id_perm kept)).
    subst kept. unfold get_papers_by_status.
    induction (papers db) as [| p ps IH]; [reflexivity |].
    cbn [List.filter str_in existsb].
    destruct (String.eqb_spec (p_status p) "EXTRACTED") as [E | E].
    - rewrite E. cbn [orb String.eqb Ascii.eqb Bool.eqb List.length].
      cbn [str_in existsb] in IH. lia.
    - cbn [orb]. destruct (String.eqb (p_status p) "AUDITED");
        cbn [orb List.length]; cbn [str_in existsb] in IH; lia. }
  intros i p row Hp Hrow Hext.
  change (List.map ?f (order_by_id kept)) with (f <$> order_by_id kept) in Hrow.
  rewrite list_lookup_fmap, Hp in Hrow. cbn in Hrow. injection Hrow as <-.
  rewrite Hext, no_span_cells, Hn. reflexivity.
Qed.


(** ** The canonical JSON determines the screening criteria *)

Lemma read_chars_escape_char c rest :
  read_chars (escape_char c ++ rest)
  = match read_chars rest with
    | Some (text, after) => Some (String c text, after)
    | None => None
    end.
Proof.
  destruct c as [[] [] [] [] [] [] [] []]; reflexivity.
Qed.

Lemma read_chars_escape_string s rest :
  read_chars (escape_string s ++ quote ++ rest) = Some (s, rest).
Proof.
  induction s as [| c s IH]; [reflexivity |].
  cbn [escape_string]. now rewrite append_assoc, read_chars_escape_char, IH.
Qed.

Lemma read_str_dumps s rest : read_str (dumps_str s ++ rest) = Some (s, rest).
Proof.
  unfold dumps_str. rewrite !append_assoc.
  change (read_str (quote ++ escape_string s ++ quote ++ rest))
    with (read_chars (escape_string s ++ quote ++ rest)).
  apply read_chars_escape_string.
Qed.

Lemma read_items_join l : forall fuel rest,
  l <> [] -> (List.length l <= fuel)%nat ->
  read_items fuel (join ", " (List.map dumps_str l) ++ "]" ++ rest)
  = Some (l, rest).
Proof.
  induction l as [| x l IH]; intros fuel rest Hne Hfuel; [congruence |].
  destruct fuel as [| fuel]; [cbn in Hfuel; lia |].
  cbn [List.length] in Hfuel. cbn [read_items List.map join].
  destruct l as [| y l].
  - cbn [List.map]. now rewrite read_str_dumps.
  - cbn [List.map]. cbn [List.map] in IH.
    rewrite !append_assoc, read_str_dumps.
    change (", " ++ ?t) with (String "," (String " " t)).
    cbn [N_of_ascii N.eqb Pos.eqb]. cbv iota.
    rewrite IH; [reflexivity | discriminate | cbn [List.length] in *; lia].
Qed.

Lemma join_length l rest :
  (List.length l
   <= String.length (join ", " (List.map dumps_str l) ++ rest))%nat.
Proof.
  induction l as [| x l IH]; [cbn; lia |].
  destruct l as [| y l].
  - cbn [List.map join List.length]. unfold dumps_str. rewrite !length_append.
    change (String.length quote) with 1%nat. lia.
  - change (join ", " (List.map dumps_str (x :: y :: l)))
      with (dumps_str x ++ ", " ++ join ", " (List.map dumps_str (y :: l))).
    rewrite !append_assoc. rewrite length_append in IH.
    rewrite !length_append. change (String.length ", ") with 2%nat.
    cbn [List.length] in *. lia.
Qed.

Lemma read_str_list_dumps l rest :
  read_str_list (json_dumps (JList (List.map JStr l)) ++ rest) = Some (l, rest).
Proof.
  cbn [json_dumps]. rewrite List.map_map. cbn [json_dumps].
  rewrite !append_assoc.
  change ("[" ++ ?t) with (String "[" t).
  destruct l as [| x l]; [reflexivity |].
  change (List.map (fun x => dumps_str x) (x :: l))
    with (List.map dumps_str (x :: l)).
  pose proof (join_length (x :: l) ("]" ++ rest)) as Hlen.
  pose proof (read_items_join (x :: l)) as Hitems.
  assert (Hq : exists t, join ", " (List.map dumps_str (x :: l)) ++ "]" ++ rest
                         = String (ascii_of_N 34) t).
  { destruct l as [| y l]; cbn [List.map join]; unfold dumps_str at 1;
      unfold quote; rewrite !append_cons; eexists; reflexivity. }
  remember (join ", " (List.map dumps_str (x :: l)) ++ "]" ++ rest) as body
    eqn:Hb.
  destruct Hq as [t Ht]. unfold read_str_list. rewrite Ht.
  change (N.eqb (N_of_ascii (ascii_of_N 34)) 93) with false. cbv iota.
  rewrite <- Ht, Hb. apply Hitems; [discriminate |].
  rewrite <- Hb. cbn [String.length]. lia.
Qed.

(** X27. The canonical JSON of the screening criteria can be read back:
    the inclusion and exclusion lists are recovered from the text that
    [screening_hash] digests, whatever characters they contain. So two
    different criteria never have the same canonical JSON. *)
Theorem screening_criteria_read_back (c c' : review_spec.ScreeningCriteria) :
  read_screening_criteria (json_dumps (review_spec.dump_screening_criteria c))
  = Some c
  /\ (json_dumps (review_spec.dump_screening_criteria c)
      = json_dumps (review_spec.dump_screening_criteria c') -> c = c').
Proof.
  assert (Hread : forall c,
            read_screening_criteria
              (json_dumps (review_spec.dump_screening_criteria c)) = Some c).
  { intros [incl excl]. unfold review_spec.dump_screening_criteria.
    cbn [review_spec.inclusion review_spec.exclusion].
    unfold review_spec.dump_str_list.
    set (I := JList (List.map JStr incl)). set (E := JList (List.map JStr excl)).
    assert (Hblob : json_dumps (JDict [("inclusion", I); ("exclusion", E)])
                    = "{" ++ dumps_str "exclusion" ++ ": "
                      ++ (json_dumps E
                          ++ ", " ++ dumps_str "inclusion" ++ ": "
                          ++ (json_dumps I ++ "}"))).
    { cbn [json_dumps List.map fst snd].
      change (sort_by_key [("inclusion", json_dumps I); ("exclusion", json_dumps E)])
        with [("exclusion", json_dumps E); ("inclusion", json_dumps I)].
      cbn [List.map join fst snd]. now rewrite !append_assoc. }
    rewrite Hblob. unfold read_screening_criteria.
    change (drop_chars 14 ("{" ++ dumps_str "exclusion" ++ ": " ++ ?t)) with t.
    subst E. rewrite read_str_list_dumps.
    change (drop_chars 15 (", " ++ dumps_str "inclusion" ++ ": " ++ ?t)) with t.
    subst I. now rewrite read_str_list_dumps. }
  split; [apply Hread |].
  intros H. pose proof (Hread c) as H1.
  rewrite H, Hread in H1. now injection H1.
Qed.

(** ** The search clients *)

Lemma fetched_ids_app l1 l2 :
  fetched_ids (l1 ++ l2) = (fetched_ids l1 ++ fetched_ids l2)%list.
Proof. apply flat_map_app. Qed.

Lemma sleeps_app l1 l2 : sleeps (l1 ++ l2) = (sleeps l1 + sleeps l2)%nat.
Proof. unfold sleeps. now rewrite List.filter_app, length_app. Qed.

Lemma slice_batch {A} (start : nat) (l : list A) :
  (start < List.length l)%nat ->
  let batch := slice start (start + _BATCH_SIZE) l in
  (1 <= List.length batch <= _BATCH_SIZE)%nat
  /\ skipn start l = (batch ++ skipn (start + _BATCH_SIZE) l)%list.
Proof.
  intros Hlt. cbn zeta. unfold slice.
  replace (start + _BATCH_SIZE - start)%nat with _BATCH_SIZE by lia.
  split.
  - rewrite length_firstn, length_skipn. unfold _BATCH_SIZE. lia.
  - rewrite Nat.add_comm, <- skipn_skipn. symmetry. apply firstn_skipn.
Qed.

Section PubmedBatches.

Variable int : string -> option Z.
Variable _efetch : list string -> outcome (list MedlineRecord).

Lemma fetch_batches_spec (pmids : list string) :
  forall fuel start citations log,
    (List.length pmids - start <= fuel)%nat ->
    exists evts,
      let run := fetch_batches int _efetch
                   (range_from fuel start (List.length pmids) _BATCH_SIZE)
                   pmids (List.length pmids) citations log in
      let batches := fetched_ids evts in
      fst run = (log ++ evts)%list
      /\ Forall (fun b => (1 <= List.length b <= _BATCH_SIZE)%nat) batches
      /\ (exists rest, skipn start pmids = (List.concat batches ++ rest)%list)
      /\ (forall found, snd run = Return found ->
            List.concat batches = skipn start pmids
            /\ (List.length pmids - start <= List.length batches * _BATCH_SIZE
                < List.length pmids - start + _BATCH_SIZE)%nat
            /\ sleeps evts = (List.length batches - 1)%nat
            /\ exists records,
                 Forall2 (fun b r => _efetch b = Return r) batches records
                 /\ found
                    = (citations ++ parse_records int (List.concat records))%list)
      /\ (forall e, snd run = Raise e ->
            exists b, last batches = Some b /\ _efetch b = Raise e).
Proof.
  induction fuel as [| fuel IH]; intros start citations log Hfuel.
  - exists []. cbn [range_from fetch_batches fst snd fetched_ids flat_map List.concat].
    rewrite app_nil_r.
    assert (Hs : skipn start pmids = []) by (apply skipn_all2; lia).
    split; [reflexivity |]. split; [constructor |].
    split; [now exists (skipn start pmids) |].
    split; [| discriminate].
    intros found Hf. injection Hf as <-. rewrite Hs. cbn [List.length].
    split; [reflexivity |].
    split; [unfold _BATCH_SIZE; lia |].
    split; [reflexivity |].
    exists []. split; [constructor |]. cbn. now rewrite app_nil_r.
  - cbn [range_from].
    destruct (Nat.ltb_spec start (List.length pmids)) as [Hlt | Hge].
    + cbn [fetch_batches].
      destruct (slice_batch start pmids Hlt) as [Hlen Hsplit].
      set (batch := slice start (start + _BATCH_SIZE) pmids) in *.
      destruct (_efetch batch) as [records | e] eqn:Efetched.
      * set (log1 := if Nat.ltb (start + _BATCH_SIZE) (List.length pmids)
                     then ((log ++ [Efetch batch]) ++ [Sleep _RATE_LIMIT_DELAY])%list
                     else (log ++ [Efetch batch])%list).
        destruct (IH (start + _BATCH_SIZE)%nat
                    (citations ++ parse_records int records)%list log1)
          as (evts & Hlog & Hall & (rest & Hrest) & Hret & Hraise).
        { unfold _BATCH_SIZE. lia. }
        cbn zeta in Hlog, Hall, Hrest, Hret, Hraise.
        set (pause := if Nat.ltb (start + _BATCH_SIZE) (List.length pmids)
                      then [Sleep _RATE_LIMIT_DELAY] else []).
        assert (Hlog1 : log1 = (log ++ Efetch batch :: pause)%list).
        { subst log1 pause.
          destruct (Nat.ltb (start + _BATCH_SIZE) (List.length pmids));
            now rewrite <- ?app_assoc. }
        assert (Hids : fetched_ids (Efetch batch :: pause ++ evts)
                       = batch :: fetched_ids evts).
        { subst pause.
          destruct (Nat.ltb (start + _BATCH_SIZE) (List.length pmids));
            reflexivity. }
        exists (Efetch batch :: pause ++ evts)%list. cbn zeta.
        rewrite Hids. cbn [List.concat List.length].
        split; [rewrite Hlog, Hlog1, <- app_assoc; reflexivity |].
        split; [constructor; assumption |].
        split; [exists rest; rewrite Hsplit, Hrest; now rewrite app_assoc |].
        split.
        -- intros found Hf.
           destruct (Hret found Hf) as (Hcat & Hcount & Hsl & recs & Hrecs & Hfound).
           split; [now rewrite Hcat, Hsplit |].
           split; [unfold _BATCH_SIZE in *; lia |].
           split.
           ++ change (Efetch batch :: pause ++ evts)%list
                with ([Efetch batch] ++ pause ++ evts)%list.
              rewrite !sleeps_app, Hsl. subst pause.
              destruct (Nat.ltb_spec (start + _BATCH_SIZE) (List.length pmids));
                cbn [sleeps List.filter List.length];
                unfold _BATCH_SIZE in *; lia.
           ++ exists (records :: recs). split; [now constructor |].
              rewrite Hfound. cbn [List.concat].
              unfold parse_records. now rewrite flat_map_app, app_assoc.
        -- intros e He. destruct (Hraise e He) as (b & Hlast & Hb).
           exists b. split; [| exact Hb].
           rewrite last_cons, Hlast. reflexivity.
      * exists [Efetch batch]. cbn [fst snd fetched_ids flat_map List.concat app].
        split; [reflexivity |].
        split; [constructor; [apply Hlen | constructor] |].
        split; [exists (skipn (start + _BATCH_SIZE) pmids);
                now rewrite app_nil_r |].
        split; [discriminate |].
        intros e' He'. exists batch. split; [reflexivity |]. congruence.
    + exists []. cbn [fetch_batches fst snd fetched_ids flat_map List.concat].
      rewrite app_nil_r.
      assert (Hs : skipn start pmids = []) by (apply skipn_all2; lia).
      split; [reflexivity |]. split; [constructor |].
      split; [now exists (skipn start pmids) |].
      split; [| discriminate].
      intros found Hf. injection Hf as <-. rewrite Hs. cbn [List.length].
      split; [reflexivity |].
      split; [unfold _BATCH_SIZE; lia |].
      split; [reflexivity |].
      exists []. split; [constructor |]. cbn. now rewrite app_nil_r.
Qed.

(** X28. [search_pubmed] fetches the PMIDs it found in batches and loses
    none. Every request carries between 1 and 500 PMIDs, and the requests
    are consecutive pieces of the list, in order. When the search returns,
    the pieces make up the whole list, their number is the list length
    divided by 500 and rounded up, there is one pause fewer than requests,
    and the citations are those parsed from the records of all batches, in
    order. When it raises, it is with the exception of the last request
    made. With no PMID nothing is requested. *)
Theorem search_pubmed_batches (pmids : list string) :
  let run := search_pubmed int _efetch pmids [] in
  let batches := fetched_ids (fst run) in
  Forall (fun b => (1 <= List.length b <= _BATCH_SIZE)%nat) batches
  /\ (exists rest, pmids = (List.concat batches ++ rest)%list)
  /\ (forall found, snd run = Return found ->
        List.concat batches = pmids
        /\ (List.length pmids <= List.length batches * _BATCH_SIZE
            < List.length pmids + _BATCH_SIZE)%nat
        /\ sleeps (fst run) = (List.length batches - 1)%nat
        /\ exists records,
             Forall2 (fun b r => _efetch b = Return r) batches records
             /\ found = parse_records int (List.concat records))
  /\ (forall e, snd run = Raise e ->
        exists b, last batches = Some b /\ _efetch b = Raise e)
  /\ (pmids = [] -> run = ([], Return [])).
Proof.
  cbn zeta. unfold search_pubmed.
  destruct (Nat.eqb_spec (List.length pmids) 0) as [H0 | Hpos].
  - destruct pmids; [| discriminate].
    cbn [fst snd fetched_ids flat_map List.concat List.length app].
    split; [constructor |]. split; [now exists [] |].
    split; [| split; [discriminate | reflexivity]].
    intros found Hf. injection Hf as <-.
    split; [reflexivity |]. split; [unfold _BATCH_SIZE; lia |].
    split; [reflexivity |]. exists []. split; [constructor | reflexivity].
  - unfold range.
    destruct (fetch_batches_spec pmids (List.length pmids) 0 [] [])
      as (evts & Hlog & Hall & Hpre & Hret & Hraise); [lia |].
    cbn zeta in Hlog, Hall, Hpre, Hret, Hraise. cbn [app] in Hlog.
    rewrite Hlog. cbn [skipn] in Hpre, Hret. rewrite Nat.sub_0_r in Hret.
    split; [exact Hall |]. split; [exact Hpre |].
    split; [exact Hret |]. split; [exact Hraise |].
    intros ->. now destruct Hpos.
Qed.

End PubmedBatches.

Section OpenalexPages.

Variable invert_abstract : list (string * list nat) -> string.

Lemma paginate_from_spec (paginator : list Response) :
  forall run : nat,
    (run <= 2)%nat ->
    let '(pages, slept, ending) := paginate_from paginator (Z.of_nat run + 1) in
    (if tolerable run paginator
     then pages = pages_until_stop paginator /\ ending = Return tt
     else exists exc, ending = Raise exc /\ In (Failure exc) paginator)
    /\ Forall (fun wait => wait = 2 \/ wait = 4) slept
    /\ (List.length slept + run <= 2 * (List.length pages + 1))%nat.
Proof.
  induction paginator as [| response rest IH]; intros run Hrun.
  - cbn [paginate_from tolerable pages_until_stop List.length].
    split; [now split |]. split; [constructor | lia].
  - destruct response as [page | | exc].
    + cbn [paginate_from tolerable pages_until_stop].
      specialize (IH 0%nat ltac:(lia)). change (Z.of_nat 0 + 1) with 1 in IH.
      destruct (paginate_from rest 1) as [[pages slept] ending].
      destruct IH as (Hcase & Hslept & Hlen).
      split; [| split; [exact Hslept | cbn [List.length] in *; lia]].
      destruct (tolerable 0 rest).
      * destruct Hcase as [-> ->]. now split.
      * destruct Hcase as (e & -> & Hin). exists e. split; [reflexivity |].
        now right.
    + cbn [paginate_from tolerable pages_until_stop List.length].
      split; [now split |]. split; [constructor | lia].
    + cbn [paginate_from tolerable].
      destruct (Nat.ltb_spec run 2) as [Hlt | Hge].
      * replace (Z.eqb (Z.of_nat run + 1) _MAX_RETRIES) with false
          by (symmetry; apply Z.eqb_neq; unfold _MAX_RETRIES; lia).
        specialize (IH (S run) ltac:(lia)).
        replace (Z.of_nat (S run) + 1) with (Z.of_nat run + 1 + 1) in IH by lia.
        destruct (paginate_from rest (Z.of_nat run + 1 + 1))
          as [[pages slept] ending].
        destruct IH as (Hcase & Hslept & Hlen). cbn [andb pages_until_stop].
        split; [| split].
        -- destruct (tolerable (S run) rest); [exact Hcase |].
           destruct Hcase as (e & -> & Hin). exists e. split; [reflexivity |].
           now right.
        -- constructor; [| exact Hslept].
           assert (Hr : run = 0%nat \/ run = 1%nat) by lia.
           destruct Hr as [-> | ->]; [now left | now right].
        -- cbn [List.length] in *. lia.
      * replace (Z.eqb (Z.of_nat run + 1) _MAX_RETRIES) with true
          by (symmetry; apply Z.eqb_eq; unfold _MAX_RETRIES; lia).
        cbn [andb List.length]. split; [| split; [constructor | lia]].
        exists exc. split; [reflexivity | now left].
Qed.

Lemma paginate_after_pages (pages : list (list Work)) (rest : list Response) :
  paginate_from (List.map GotPage pages ++ rest)%list 1
  = let '(more, slept, ending) := paginate_from rest 1 in
    ((pages ++ more)%list, slept, ending).
Proof.
  induction pages as [| page pages IH].
  - cbn [List.map app]. now destruct (paginate_from rest 1) as [[? ?] ?].
  - cbn [List.map app paginate_from]. rewrite IH.
    now destruct (paginate_from rest 1) as [[? ?] ?].
Qed.

(** X29. [search_openalex] returns all or nothing. When the paginator
    never fails three times in a row before it stops, the failures are not
    seen: the search returns the citations of every page, in order.
    Otherwise the search raises an exception of the paginator and returns
    no citation: however many pages it has read, three failures in a row
    end it with the third exception. Between attempts the generator
    sleeps 2 or 4 seconds, at most twice per page and twice before it
    ends. *)
Theorem search_openalex_all_or_nothing (paginator : list Response) :
  (if tolerable 0 paginator
   then search_openalex invert_abstract paginator
        = Return (flat_map (parse_page invert_abstract)
                    (pages_until_stop paginator))
   else exists exc,
          search_openalex invert_abstract paginator = Raise exc
          /\ In (Failure exc) paginator)
  /\ (forall pages exc1 exc2 exc3 after,
        search_openalex invert_abstract
          (List.map GotPage pages
           ++ Failure exc1 :: Failure exc2 :: Failure exc3 :: after)%list
        = Raise exc3)
  /\ (let '(pages, slept, _) := _paginate_with_retry paginator in
      Forall (fun wait => wait = 2 \/ wait = 4) slept
      /\ (List.length slept <= 2 * (List.length pages + 1))%nat).
Proof.
  pose proof (paginate_from_spec paginator 0 ltac:(lia)) as H.
  change (Z.of_nat 0 + 1) with 1 in H.
  unfold search_openalex, _paginate_with_retry.
  split; [| split].
  - destruct (paginate_from paginator 1) as [[pages slept] ending].
    destruct H as (Hcase & _ & _).
    destruct (tolerable 0 paginator).
    + now destruct Hcase as [-> ->].
    + destruct Hcase as (exc & -> & Hin). now exists exc.
  - intros pages exc1 exc2 exc3 after. now rewrite paginate_after_pages.
  - destruct (paginate_from paginator 1) as [[pages slept] ending].
    destruct H as (_ & Hslept & Hlen). split; [exact Hslept | lia].
Qed.

End OpenalexPages.

(** ** Identifiers as the two search clients deliver them *)

Lemma replace_doi_tag (d : string) :
  str_forall (fun c => negb (Ascii.eqb c " ")) d = true ->
  replace " [doi]" "" (d ++ " [doi]") = d.
Proof.
  unfold replace. induction d as [| c d IH]; intros Hd; [reflexivity |].
  cbn [str_forall] in Hd. apply andb_true_iff in Hd as [Hc Hd].
  rewrite append_cons. cbn [replace_from String.prefix].
  destruct (ascii_dec " " c) as [<- | _]; [discriminate |].
  now rewrite IH.
Qed.

Lemma lower_empty_inv (s : string) : lower s = "" -> s = "".
Proof. now destruct s. Qed.

Lemma same_doi_same_record (p o : Citation) (d d' : string) :
  doi p = Some d -> doi o = Some d' -> d <> "" -> lower d' = lower d ->
  same_record p o.
Proof.
  intros Hp Ho Hd Hlow.
  assert (Hd' : d' <> "").
  { intros ->. cbn [lower] in Hlow. symmetry in Hlow.
    now apply lower_empty_inv in Hlow. }
  left. exists (lower (strip d)). unfold doi_key. rewrite Hp, Ho.
  destruct (String.eqb_spec d ""); [contradiction |].
  destruct (String.eqb_spec d' ""); [contradiction |].
  split; [reflexivity |]. now rewrite !lower_strip, Hlow.
Qed.

Lemma same_record_duplicate (pm oa : Citation) (pms oas : list Citation) :
  same_record pm oa -> In pm pms ->
  unique_total (stats (deduplicate pms (oas ++ [oa])))
  = unique_total (stats (deduplicate pms oas))
  /\ duplicates_found (stats (deduplicate pms (oas ++ [oa])))
     = S (duplicates_found (stats (deduplicate pms oas))).
Proof.
  intros Hsame Hin.
  pose proof (indexed_is_found _ _ _ (dedup_state_indexed _ oas _ Hin) Hsame)
    as [idx Hf].
  unfold deduplicate. cbn [stats unique_total duplicates_found].
  fold (dedup_state pms (oas ++ [oa])). fold (dedup_state pms oas).
  rewrite dedup_state_snoc. unfold dedup_step. rewrite Hf.
  pose proof (find_match_in_range _ _ _ (dedup_state_in_range pms oas) Hf)
    as Hlt.
  destruct (lookup_lt_is_Some_2 _ _ Hlt) as [kept ->].
  cbn [unique duplicate_pairs]. rewrite length_insert, length_app.
  cbn [List.length]. split; [reflexivity | lia].
Qed.

Section SharedDoi.

Variable int : string -> option Z.
Variable invert_abstract : list (string * list nat) -> string.

(** X30. A DOI comes out of both search clients in a form that
    deduplication matches. PubMed tags it ([10.1000/x [doi]]) and
    OpenAlex writes it as a URL in lower case; [_parse_record] removes
    the tag and [_parse_work] the URL prefix. So for a record and a work
    that have titles, where the first DOI-tagged identifier of the record
    is a non-empty, blank-free DOI and the DOI of the work is the same
    up to letter case behind the prefix: both are parsed, the citations
    hold the bare DOIs, and the OpenAlex citation is taken for a duplicate
    of the PubMed one, whatever their titles and wherever they stand in
    the lists. *)
Theorem doi_shared_by_both_sources (rec : MedlineRecord) (work : Work)
  (d d' : string) :
  truthy (rec_TI rec) = true -> truthy (work_title work) = true ->
  d <> "" -> str_forall (fun c => negb (Ascii.eqb c " ")) d = true ->
  List.find (ends_with "[doi]") (rec_AID rec) = Some (d ++ " [doi]") ->
  work_doi work = Some ("https://doi.org/" ++ d') -> lower d' = lower d ->
  exists pm oa,
    _parse_record int rec = Some pm
    /\ _parse_work invert_abstract work = Some oa
    /\ doi pm = Some d /\ doi oa = Some d'
    /\ source pm = pubmed /\ source oa = openalex
    /\ same_record pm oa
    /\ forall pubmed_citations openalex_citations,
         In pm pubmed_citations ->
         let before := deduplicate pubmed_citations openalex_citations in
         let after := deduplicate pubmed_citations (openalex_citations ++ [oa]) in
         unique_total (stats after) = unique_total (stats before)
         /\ duplicates_found (stats after) = S (duplicates_found (stats before)).
Proof.
  intros Hti Hwt Hd Hblank Haid Hdoi Hlow.
  unfold _parse_record, _parse_work.
  destruct (rec_TI rec) as [ti |]; [| discriminate].
  destruct (work_title work) as [wt |]; [| discriminate].
  cbn [truthy] in Hti, Hwt.
  destruct (String.eqb ti ""); [discriminate |].
  destruct (String.eqb wt ""); [discriminate |].
  rewrite Haid, Hdoi, replace_doi_tag by exact Hblank.
  change (String.eqb ("https://doi.org/" ++ d') "") with false.
  rewrite prefix_app, drop_chars_app. cbn [negb andb].
  eexists _, _. split; [reflexivity |]. split; [reflexivity |].
  cbn [doi source].
  do 4 (split; [reflexivity |]).
  split; [now apply (same_doi_same_record _ _ d d') |].
  intros pms oas Hin. cbn zeta.
  refine (same_record_duplicate _ _ _ _ _ Hin).
  now apply (same_doi_same_record _ _ d d').
Qed.

End SharedDoi.

(** X30 for a PubMed record with the DOI in upper case and the work that
    OpenAlex holds for it under another title. *)
Lemma doi_shared_by_both_sources_witness :
  exists pm oa,
    _parse_record example_int example_record = Some pm
    /\ _parse_work example_invert_abstract example_work = Some oa
    /\ doi pm = Some "10.1000/J.Sur.7" /\ doi oa = Some "10.1000/j.sur.7"
    /\ duplicates_found (stats (deduplicate [pm] [oa])) = 1%nat.
Proof.
  destruct (doi_shared_by_both_sources example_int example_invert_abstract
              example_record example_work "10.1000/J.Sur.7" "10.1000/j.sur.7")
    as (pm & oa & Hpm & Hoa & Hd & Hd' & _ & _ & _ & Hdup);
    try reflexivity; [discriminate |].
  exists pm, oa. repeat (split; [assumption |]).
  destruct (Hdup [pm] [] (or_introl eq_refl)) as [_ H]. exact H.
Defined.
